(** * DNS-Client: a shallow embedding of the message codec (src/structs)

    Conventions of the embedding.
    - A byte is a [Z] in [0, 255]; a byte buffer is a [list Z]; a [u16] or a
      [u32] is a [Z], with Rust's truncating casts written out.
    - A Rust [String] is a Rocq [string] holding its UTF-8 bytes, one
      character per byte: [str::len] and [str::as_bytes] count and read
      bytes, [u8 as char] pushes one byte below [0x80] and two bytes from
      [0x80] on, and [str::trim] strips the Unicode White_Space characters.
    - A read cursor [&mut &[u8]] is the list of its remaining bytes.
    - The compression table [HashMap<usize, RefNode>] is a [gmap nat nat]
      from offsets to node addresses, and the [Rc<RefCell<Node>>] cells
      live in an explicit heap ([list node], the address is the index).
    - [bytes::Buf::get_u8]/[get_u16]/[get_u32] panic when too few bytes
      remain, and [assert_eq!] panics: both are [Panic] outcomes, distinct
      from the [Err] results of [Result]. *)

From Stdlib Require Import ZArith Lia String Ascii.
From stdpp Require Import base list gmap.

Open Scope Z_scope.

(** ** Outcomes and the decoder monad *)

(** The error values of the source: [ParseLabelError], [ParseQTypeError]
    and [ParseQClassError]; the [from_u16] variants carry the rejected
    code (their [value] field is its decimal rendering). *)
Inductive error : Type :=
| ParseLabelError (value : string)
| ParseQTypeError (value : string)
| ParseQTypeCode (value : Z)
| ParseQClassError (value : string)
| ParseQClassCode (value : Z).

(** Rust panics of the codec. *)
Inductive panic : Type :=
| AdvancePastEnd            (* bytes::Buf::get_* with too few bytes left *)
| AssertFailed (msg : string)
| SliceOutOfRange.          (* &buf[..len] with len > buf.len() *)

(** [Diverge] stands for a computation that does not finish: the recursion
    of [Node::get_full_label] on a cyclic chain of nodes (see
    [full_label_fuel_complete]). *)
Inductive outcome (A : Type) : Type :=
| Ok (a : A)
| Err (e : error)
| Panic (p : panic)
| Diverge.
Arguments Ok {A} a.
Arguments Err {A} e.
Arguments Panic {A} p.
Arguments Diverge {A}.

(** A node of the label chain: [struct Node { label, next }]. *)
Record node : Type := mkNode { label : string; next : option nat }.

(** Decoder state: the cursor, the compression table and the node heap. *)
Record dstate : Type := mkD {
  cursor : list Z;
  nodes : gmap nat nat;
  heap : list node
}.

Definition M (A : Type) : Type := dstate -> outcome (A * dstate).

Definition ret {A} (a : A) : M A := fun st => Ok (a, st).

Definition bind {A B} (m : M A) (k : A -> M B) : M B :=
  fun st => match m st with
            | Ok (a, st') => k a st'
            | Err e => Err e
            | Panic p => Panic p
            | Diverge => Diverge
            end.

Notation "x <- m ;; k" := (bind m (fun x => k))
  (at level 100, m at next level, right associativity).

Definition throw {A} (e : error) : M A := fun _ => Err e.
Definition fail {A} (p : panic) : M A := fun _ => Panic p.

(** Lift a [Result] (the [?] operator). *)
Definition lift {A} (r : outcome A) : M A :=
  fun st => match r with
            | Ok a => Ok (a, st)
            | Err e => Err e
            | Panic p => Panic p
            | Diverge => Diverge
            end.

(** [buf.remaining()] *)
Definition remaining : M nat := fun st => Ok (length (cursor st), st).

(** ** Primitive codec *)

(** [write_u16]: [v.to_be_bytes()] appended. *)
Definition write_u16 (v : Z) : list Z :=
  [Z.land (Z.shiftr v 8) 255; Z.land v 255].

(** [buf.get_u8()] *)
Definition get_u8 : M Z :=
  fun st => match cursor st with
            | b :: r => Ok (b, mkD r (nodes st) (heap st))
            | [] => Panic AdvancePastEnd
            end.

(** [buf.get_u16()], big-endian. *)
Definition get_u16 : M Z :=
  b0 <- get_u8 ;; b1 <- get_u8 ;; ret (Z.lor (Z.shiftl b0 8) b1).

(** [buf.get_u32()], big-endian. *)
Definition get_u32 : M Z :=
  hi <- get_u16 ;; lo <- get_u16 ;; ret (Z.lor (Z.shiftl hi 16) lo).

(** [(0..n).map(|_| buf.get_u8()).collect()] *)
Fixpoint get_bytes (n : nat) : M (list Z) :=
  match n with
  | O => ret []
  | S k => b <- get_u8 ;; bs <- get_bytes k ;; ret (b :: bs)
  end.

(** Strings. A Rust [String] is a sequence of UTF-8 bytes, and a Rocq
    [string] is a sequence of 8-bit characters: a [String] is modelled by
    its UTF-8 bytes, one Rocq character per byte. So [str::len] is
    [String.length], [str::as_bytes] reads the characters as bytes, and a
    string literal such as ["é"] is the two bytes [C3 A9]. *)

(** A byte as a Rocq character, and back. *)
Definition char_of_u8 (b : Z) : ascii := ascii_of_nat (Z.to_nat b).
Definition u8_of_char (c : ascii) : Z := Z.of_nat (nat_of_ascii c).

(** [String::push(b as char)]: [u8 as char] is the character U+00XX of the
    byte's value, written in UTF-8: one byte below [0x80], and the two
    bytes [0xC0 | b >> 6], [0x80 | b & 0x3F] from [0x80] on. *)
Definition push_u8_as_char (b : Z) (acc : string) : string :=
  if b <? 0x80 then String (char_of_u8 b) acc
  else String (char_of_u8 (Z.lor 0xC0 (Z.shiftr b 6)))
              (String (char_of_u8 (Z.lor 0x80 (Z.land b 0x3F))) acc).

(** [bytes.iter().map(|&b| b as char).collect::<String>()] *)
Fixpoint string_of_bytes (bs : list Z) : string :=
  match bs with
  | [] => EmptyString
  | b :: r => push_u8_as_char b (string_of_bytes r)
  end.

(** [str::as_bytes] *)
Fixpoint as_bytes (s : string) : list Z :=
  match s with
  | EmptyString => []
  | String c r => u8_of_char c :: as_bytes r
  end.

(** ** Record types and classes (question.rs) *)

Module QType.
(** [enum QType { A = 1, NS = 2, CNAME = 5, MX = 15, TXT = 16, AAAA = 28 }] *)
Inductive QType : Type := A | NS | CNAME | MX | TXT | AAAA.

(** [self as u16] *)
Definition to_u16 (t : QType) : Z :=
  match t with
  | A => 1 | NS => 2 | CNAME => 5 | MX => 15 | TXT => 16 | AAAA => 28
  end.

(** [QType::from_str] *)
Definition from_str (s : string) : outcome QType :=
  if String.eqb s "A" then Ok A
  else if String.eqb s "NS" then Ok NS
  else if String.eqb s "CNAME" then Ok CNAME
  else if String.eqb s "MX" then Ok MX
  else if String.eqb s "TXT" then Ok TXT
  else if String.eqb s "AAAA" then Ok AAAA
  else Err (ParseQTypeError s).

(** [QType::from_u16] *)
Definition from_u16 (v : Z) : outcome QType :=
  if v =? 1 then Ok A
  else if v =? 2 then Ok NS
  else if v =? 5 then Ok CNAME
  else if v =? 15 then Ok MX
  else if v =? 16 then Ok TXT
  else if v =? 28 then Ok AAAA
  else Err (ParseQTypeCode v).

(** [QType::to_bytes] *)
Definition to_bytes (t : QType) : list Z := write_u16 (to_u16 t).
End QType.

Module QClass.
(** [enum QClass { IN = 1, CS = 2, CH = 3, HS = 4, ANY = 255 }] *)
Inductive QClass : Type := IN | CS | CH | HS | ANY.

Definition to_u16 (c : QClass) : Z :=
  match c with IN => 1 | CS => 2 | CH => 3 | HS => 4 | ANY => 255 end.

(** [QClass::from_str] *)
Definition from_str (s : string) : outcome QClass :=
  if String.eqb s "IN" then Ok IN
  else if String.eqb s "CS" then Ok CS
  else if String.eqb s "CH" then Ok CH
  else if String.eqb s "HS" then Ok HS
  else if String.eqb s "ANY" then Ok ANY
  else Err (ParseQClassError s).

(** [QClass::from_u16] *)
Definition from_u16 (v : Z) : outcome QClass :=
  if v =? 1 then Ok IN
  else if v =? 2 then Ok CS
  else if v =? 3 then Ok CH
  else if v =? 4 then Ok HS
  else if v =? 255 then Ok ANY
  else Err (ParseQClassCode v).

Definition to_bytes (c : QClass) : list Z := write_u16 (to_u16 c).
End QClass.

(** ** Header (header.rs) *)

Record Header : Type := mkHeader {
  id : Z; flags : Z; qdcount : Z; ancount : Z; nscount : Z; arcount : Z
}.

(** [Header::create_query_header]; the random id is a parameter. *)
Definition create_query_header (rid : Z) : Header :=
  let flags := Z.lor 0 (Z.shiftl 1 8) in    (* RD (recursion desired) *)
  mkHeader rid flags 1 0 0 0.

(** [Header::to_bytes] *)
Definition header_to_bytes (h : Header) : list Z :=
  write_u16 (id h) ++ write_u16 (flags h) ++ write_u16 (qdcount h)
  ++ write_u16 (ancount h) ++ write_u16 (nscount h) ++ write_u16 (arcount h).

(** [Header::from_bytes] *)
Definition header_from_bytes : M Header :=
  i <- get_u16 ;; f <- get_u16 ;; qd <- get_u16 ;;
  an <- get_u16 ;; ns <- get_u16 ;; ar <- get_u16 ;;
  ret (mkHeader i f qd an ns ar).

(** ** Question (question.rs) *)

Record Question : Type := mkQuestion {
  qname : string; qtype : QType.QType; qclass : QClass.QClass
}.

(** [char::is_whitespace] on a one-byte character: U+0009 to U+000D and
    U+0020. *)
Definition is_whitespace (c : ascii) : bool :=
  let n := nat_of_ascii c in ((9 <=? n)%nat && (n <=? 13)%nat) || (n =? 32)%nat.

(** [char::is_whitespace] on the UTF-8 bytes of a two-byte character:
    U+0085 ([C2 85]) and U+00A0 ([C2 A0]). *)
Definition is_whitespace2 (c d : ascii) : bool :=
  let a := nat_of_ascii c in let b := nat_of_ascii d in
  (a =? 0xC2)%nat && ((b =? 0x85)%nat || (b =? 0xA0)%nat).

(** [char::is_whitespace] on the UTF-8 bytes of a three-byte character:
    U+1680 ([E1 9A 80]), U+2000 to U+200A ([E2 80 80] to [E2 80 8A]),
    U+2028, U+2029, U+202F ([E2 80 A8], [A9], [AF]), U+205F ([E2 81 9F])
    and U+3000 ([E3 80 80]). *)
Definition is_whitespace3 (c d e : ascii) : bool :=
  let a := nat_of_ascii c in let b := nat_of_ascii d in let x := nat_of_ascii e in
  ((a =? 0xE1)%nat && (b =? 0x9A)%nat && (x =? 0x80)%nat) ||
  ((a =? 0xE2)%nat && (b =? 0x80)%nat &&
     (((0x80 <=? x)%nat && (x <=? 0x8A)%nat) || (x =? 0xA8)%nat || (x =? 0xA9)%nat
      || (x =? 0xAF)%nat)) ||
  ((a =? 0xE2)%nat && (b =? 0x81)%nat && (x =? 0x9F)%nat) ||
  ((a =? 0xE3)%nat && (b =? 0x80)%nat && (x =? 0x80)%nat).

(** [str::trim_start]: drops whitespace characters from the front. A
    [&str] is valid UTF-8, so its first byte starts a character. *)
Fixpoint trim_start (s : string) : string :=
  match s with
  | EmptyString => EmptyString
  | String c r =>
      if is_whitespace c then trim_start r
      else match r with
           | String d r2 =>
               if is_whitespace2 c d then trim_start r2
               else match r2 with
                    | String e r3 => if is_whitespace3 c d e then trim_start r3 else s
                    | EmptyString => s
                    end
           | EmptyString => s
           end
  end.

(** The same on the reversed bytes: drops whitespace characters from the
    end. In valid UTF-8 the bytes [C2], [E1], [E2] and [E3] start a
    character, so a matching suffix is a whole character. *)
Fixpoint trim_rev (l : list ascii) : list ascii :=
  match l with
  | [] => []
  | c :: r =>
      if is_whitespace c then trim_rev r
      else match r with
           | d :: r2 =>
               if is_whitespace2 d c then trim_rev r2
               else match r2 with
                    | e :: r3 => if is_whitespace3 e d c then trim_rev r3 else l
                    | [] => l
                    end
           | [] => l
           end
  end.

(** [str::trim_end] *)
Definition trim_end (s : string) : string :=
  string_of_list_ascii (rev (trim_rev (rev (list_ascii_of_string s)))).

(** [str::trim] *)
Definition trim (s : string) : string := trim_end (trim_start s).

(** [str::split('.')]: every separator splits, so [""] gives [[""]] and a
    trailing dot gives a trailing empty piece. *)
Fixpoint split_dot (s : string) : list string :=
  match s with
  | EmptyString => [EmptyString]
  | String c r =>
      let parts := split_dot r in
      if Ascii.eqb c "." then EmptyString :: parts
      else match parts with
           | p :: ps => String c p :: ps
           | [] => [String c EmptyString]
           end
  end.

(** [Question::create_query_question] *)
Definition create_query_question (domain typ class : string) : outcome Question :=
  let qname := trim domain in
  match QType.from_str typ with
  | Ok qt =>
      match QClass.from_str class with
      | Ok qc => Ok (mkQuestion qname qt qc)
      | Err e => Err e
      | Panic p => Panic p
      | Diverge => Diverge
      end
  | Err e => Err e
  | Panic p => Panic p
  | Diverge => Diverge
  end.

(** One label as written by [Question::to_bytes]:
    [buf.push(label.len() as u8); buf.extend_from_slice(label.as_bytes())]. *)
Definition label_to_bytes (l : string) : list Z :=
  Z.land (Z.of_nat (String.length l)) 255 :: as_bytes l.

(** The name part of [Question::to_bytes]. *)
Definition qname_to_bytes (qname : string) : list Z :=
  flat_map label_to_bytes (split_dot qname) ++ [0].

(** [Question::to_bytes] *)
Definition question_to_bytes (q : Question) : list Z :=
  qname_to_bytes (qname q) ++ QType.to_bytes (qtype q) ++ QClass.to_bytes (qclass q).

(** ** Name decoding (mod.rs) *)

(** [Node::new(label)]: a fresh cell, [next = None]. *)
Definition node_new (l : string) : M nat :=
  fun st => Ok (length (heap st),
                mkD (cursor st) (nodes st) (heap st ++ [mkNode l None])).

(** [nodes.get(&offset)] *)
Definition nodes_get (offset : nat) : M (option nat) :=
  fun st => Ok (nodes st !! offset, st).

(** [nodes.insert(index, node.clone())] *)
Definition nodes_insert (index n : nat) : M unit :=
  fun st => Ok (tt, mkD (cursor st) (<[index := n]> (nodes st)) (heap st)).

(** [if let Some(p) = prev { p.borrow_mut().next = Some(n) }] *)
Definition set_next_of (prev : option nat) (n : nat) : M unit :=
  fun st => match prev with
            | Some p =>
                Ok (tt, mkD (cursor st) (nodes st)
                           (alter (fun nd => mkNode (label nd) (Some n)) p (heap st)))
            | None => Ok (tt, st)
            end.

(** [Node::get_full_label], as a relation: the label, a dot, and the full
    label of [next] when there is one. The recursion has no result on a
    cyclic chain. *)
Inductive full_label (h : list node) : nat -> string -> Prop :=
| full_label_last n nd :
    h !! n = Some nd -> next nd = None ->
    full_label h n (label nd ++ ".")%string
| full_label_next n nd m s :
    h !! n = Some nd -> next nd = Some m -> full_label h m s ->
    full_label h n (label nd ++ "." ++ s)%string.

(** [Node::get_full_label], following at most [fuel] nodes. *)
Fixpoint full_label_fuel (fuel : nat) (h : list node) (n : nat) : option string :=
  match fuel with
  | O => None
  | S f =>
      match h !! n with
      | None => None
      | Some nd =>
          match next nd with
          | None => Some (label nd ++ ".")%string
          | Some m =>
              match full_label_fuel f h m with
              | Some s => Some (label nd ++ "." ++ s)%string
              | None => None
              end
          end
      end
  end.

(** [head.unwrap().borrow().get_full_label()]: an acyclic chain has at most
    [length heap] nodes, so [S (length heap)] steps are enough; running out
    means the chain is cyclic and the Rust recursion does not return. *)
Definition get_full_label (n : nat) : M string :=
  fun st => match full_label_fuel (S (length (heap st))) (heap st) n with
            | Some s => Ok (s, st)
            | None => Diverge
            end.

(** One turn of the [loop] of [read_label]: it either leaves the loop
    ([break], with the head) or continues with the new index, head and prev. *)
Inductive step : Type :=
| Break (head : option nat)
| Continue (index : nat) (head prev : option nat).

(** [let label = (0..len).map(|_| buf.get_u8() as char).collect()] *)
Definition get_label (len : nat) : M string :=
  bs <- get_bytes len ;; ret (string_of_bytes bs).

(** The body of the [loop] in [read_label]. *)
Definition read_label_body (index : nat) (head prev : option nat) : M step :=
  octet <- get_u8 ;;
  let comp_bits := Z.land octet 0xC0 in
  if comp_bits =? 0xC0 then
    let upper := Z.land octet 0x3F in
    lower <- get_u8 ;;
    let offset := Z.to_nat (Z.lor (Z.shiftl upper 8) lower) in
    found <- nodes_get offset ;;
    match found with
    | Some n =>
        _ <- set_next_of prev n ;;
        ret (Break (match head with None => Some n | Some _ => head end))
    | None => throw (ParseLabelError "No entry on nodes")
    end
  else
    let len := Z.land octet 0x3F in
    if len =? 0 then ret (Break head)
    else
      l <- get_label (Z.to_nat len) ;;
      n <- node_new l ;;
      _ <- nodes_insert index n ;;
      let head' := match head with None => Some n | Some _ => head end in
      _ <- set_next_of prev n ;;
      ret (Continue (index + 1 + Z.to_nat len)%nat head' (Some n)).

(** The [loop] of [read_label]; every turn consumes at least one byte, so
    [S (length cursor)] turns are enough ([read_label_loop_fuel]). *)
Fixpoint read_label_loop (fuel : nat) (index : nat) (head prev : option nat)
  : M (option nat) :=
  match fuel with
  | O => fun _ => Diverge
  | S f =>
      s <- read_label_body index head prev ;;
      match s with
      | Break h => ret h
      | Continue i h p => read_label_loop f i h p
      end
  end.

(** [read_label(buf, index, nodes)] *)
Definition read_label (index : nat) : M string :=
  fun st =>
    (h <- read_label_loop (S (length (cursor st))) index None None ;;
     match h with
     | None => throw (ParseLabelError "No head detected")
     | Some n => get_full_label n
     end) st.

(** [Question::from_bytes(buf, len, nodes)] *)
Definition question_from_bytes (len : nat) : M Question :=
  r <- remaining ;;
  let index := (len - r)%nat in
  qn <- read_label index ;;
  t <- get_u16 ;; qt <- lift (QType.from_u16 t) ;;
  c <- get_u16 ;; qc <- lift (QClass.from_u16 c) ;;
  ret (mkQuestion qn qt qc).

(** ** Resource records (answer.rs) *)

Module RDATA.
(** [enum RDATA]; the [SOA] variant is never built: [QType] has no [SOA]
    (the [QType::SOA] arm of [Answer::from_bytes] names a variant that
    question.rs does not declare). *)
Inductive RDATA : Type :=
| DomainName (name : string)             (* CNAME, NS, PTR *)
| IPV4 (ip : list Z)                     (* A, 4 bytes *)
| IPV6 (ip : list Z)                     (* AAAA, 16 bytes *)
| TXT (s : string)
| MX (pref : Z) (exchange : string)
| SOA (mname rname : string) (serial refresh retry expire minimum : Z).
End RDATA.

Record Answer : Type := mkAnswer {
  name : string; rtype : QType.QType; class : QClass.QClass;
  ttl : Z; rdlength : Z; rdata : RDATA.RDATA
}.

(** The [match rtype { ... }] of [Answer::from_bytes] that reads RDATA. *)
Definition rdata_from_bytes (len : nat) (rt : QType.QType) (rdlen : Z)
  : M RDATA.RDATA :=
  match rt with
  | QType.A =>
      v <- get_bytes (Z.to_nat rdlen) ;;
      if (length v =? 4)%nat then ret (RDATA.IPV4 v)
      else fail (AssertFailed "Invalid A record length")
  | QType.AAAA =>
      v <- get_bytes (Z.to_nat rdlen) ;;
      if (length v =? 16)%nat then ret (RDATA.IPV6 v)
      else fail (AssertFailed "Invalid AAAA record length")
  | QType.TXT =>
      l <- get_u8 ;;
      v <- get_bytes (Z.to_nat l) ;;
      ret (RDATA.TXT (string_of_bytes v))
  | QType.CNAME | QType.NS =>
      r <- remaining ;;
      n <- read_label (len - r) ;;
      ret (RDATA.DomainName n)
  | QType.MX =>
      pref <- get_u16 ;;
      r <- remaining ;;
      n <- read_label (len - r) ;;
      ret (RDATA.MX pref n)
  end.

(** [Answer::from_bytes(buf, len, nodes)] *)
Definition answer_from_bytes (len : nat) : M Answer :=
  r <- remaining ;;
  qn <- read_label (len - r) ;;
  t <- get_u16 ;; rt <- lift (QType.from_u16 t) ;;
  c <- get_u16 ;; cl <- lift (QClass.from_u16 c) ;;
  tl <- get_u32 ;;
  rdlen <- get_u16 ;;
  rd <- rdata_from_bytes len rt rdlen ;;
  ret (mkAnswer qn rt cl tl rdlen rd).

(** ** Message (message.rs) *)

Record Message : Type := mkMessage {
  header : Header;
  question : list Question;
  answer : list Answer;
  authority : list Answer;
  additional : list Answer
}.

(** [(0..n).map(|_| m).collect::<Result<Vec<_>, _>>()?]: stops at the
    first error. *)
Fixpoint repeatM {A} (n : nat) (m : M A) : M (list A) :=
  match n with
  | O => ret []
  | S k => x <- m ;; xs <- repeatM k m ;; ret (x :: xs)
  end.

(** [Message::create_query]; [rid] is the random header id. *)
Definition create_query (rid : Z) (domain qt qc : string) : outcome Message :=
  match create_query_question domain qt qc with
  | Ok q => Ok (mkMessage (create_query_header rid) [q] [] [] [])
  | Err e => Err e
  | Panic p => Panic p
  | Diverge => Diverge
  end.

(** [Message::to_bytes]: the header, then every question. *)
Definition message_to_bytes (m : Message) : list Z :=
  header_to_bytes (header m) ++ flat_map question_to_bytes (question m).

(** The body of [Message::from_bytes] after [&buf[..len]]. *)
Definition message_body (len : nat) : M Message :=
  h <- header_from_bytes ;;
  qs <- repeatM (Z.to_nat (qdcount h)) (question_from_bytes len) ;;
  ans <- repeatM (Z.to_nat (ancount h)) (answer_from_bytes len) ;;
  ns <- repeatM (Z.to_nat (nscount h)) (answer_from_bytes len) ;;
  ad <- repeatM (Z.to_nat (arcount h)) (answer_from_bytes len) ;;
  ret (mkMessage h qs ans ns ad).

(** [Message::from_bytes(buf, len)]: a fresh, empty compression table. *)
Definition message_from_bytes (buf : list Z) (len : nat) : outcome Message :=
  if (len <=? length buf)%nat then
    match message_body len (mkD (take len buf) ∅ []) with
    | Ok (m, _) => Ok m
    | Err e => Err e
    | Panic p => Panic p
    | Diverge => Diverge
    end
  else Panic SliceOutOfRange.

(** Encoding a query and decoding the bytes back. *)
Definition encode_query (rid : Z) (domain qt qc : string) : outcome (list Z) :=
  match create_query rid domain qt qc with
  | Ok m => Ok (message_to_bytes m)
  | Err e => Err e
  | Panic p => Panic p
  | Diverge => Diverge
  end.

(** ** Display (the [fmt::Display] impls of header.rs, question.rs,
    answer.rs and message.rs) *)

(** The text written by [writeln!] after its arguments. *)
Definition nl : string := String (ascii_of_nat 10) EmptyString.

(** A digit as [{}] and [{:x}] write it: [0-9], then lowercase [a-f]. *)
Definition digit_char (d : Z) : ascii :=
  ascii_of_nat (Z.to_nat (if d <? 10 then 48 + d else 87 + d)).

(** The digits of [n] in base [base], most significant first, in front of
    [acc]; [fuel] bounds the number of digits. *)
Fixpoint digits_fuel (fuel : nat) (base n : Z) (acc : string) : string :=
  match fuel with
  | O => acc
  | S f =>
      let acc' := String (digit_char (n mod base)) acc in
      if n <? base then acc' else digits_fuel f base (n / base) acc'
  end.

(** [{}] on an unsigned integer: decimal without leading zeros. A number
    has at most [log2 n + 1] digits in any base, so the fuel is enough. *)
Definition dec (n : Z) : string :=
  digits_fuel (S (Z.to_nat (Z.log2 n))) 10 n EmptyString.

(** [{:x}]: lowercase hexadecimal, without leading zeros or prefix. *)
Definition hex (n : Z) : string :=
  digits_fuel (S (Z.to_nat (Z.log2 n))) 16 n EmptyString.

(** [writeln!(f, "<label>: {}", v)] *)
Definition line (label v : string) : string := (label ++ ": " ++ v ++ nl)%string.

(** [#[derive(Debug)]] on [QType] and [QClass]: the variant's name. *)
Definition qtype_debug (t : QType.QType) : string :=
  match t with
  | QType.A => "A" | QType.NS => "NS" | QType.CNAME => "CNAME"
  | QType.MX => "MX" | QType.TXT => "TXT" | QType.AAAA => "AAAA"
  end.

Definition qclass_debug (c : QClass.QClass) : string :=
  match c with
  | QClass.IN => "IN" | QClass.CS => "CS" | QClass.CH => "CH"
  | QClass.HS => "HS" | QClass.ANY => "ANY"
  end.

(** [impl fmt::Display for Header] (Rust's [>>] binds tighter than [&]). *)
Definition header_fmt (h : Header) : string :=
  (line "ID" (dec (id h)) ++
   line "QR" (dec (Z.shiftr (flags h) 15)) ++
   line "OPCODE" (dec (Z.land (Z.shiftr (flags h) 11) 0x7)) ++
   line "AA" (dec (Z.land (Z.shiftr (flags h) 10) 0x1)) ++
   line "TC" (dec (Z.land (Z.shiftr (flags h) 9) 0x1)) ++
   line "RD" (dec (Z.land (Z.shiftr (flags h) 8) 0x1)) ++
   line "RA" (dec (Z.land (Z.shiftr (flags h) 7) 0x1)) ++
   line "Z" (dec (Z.land (Z.shiftr (flags h) 4) 0x7)) ++
   line "RCODE" (dec (Z.land (flags h) 0xF)) ++
   line "QDCOUNT" (dec (qdcount h)) ++
   line "ANCOUNT" (dec (ancount h)) ++
   line "NSCOUNT" (dec (nscount h)) ++
   line "ARCOUNT" (dec (arcount h)))%string.

(** [impl fmt::Display for Question] *)
Definition question_fmt (q : Question) : string :=
  (line "QNAME" (qname q) ++ line "QTYPE" (qtype_debug (qtype q)) ++
   line "QCLASS" (qclass_debug (qclass q)))%string.

(** The [for i in 0..8] loop of the [IPV6] arm, from group [i] on:
    [if i != 0 { write!(f, ":") }] and the group in [{:x}]. *)
Fixpoint ipv6_groups (i k : nat) (ip : list Z) : string :=
  match k with
  | O => EmptyString
  | S k' =>
      ((if (i =? 0)%nat then EmptyString else ":") ++
       hex (Z.lor (Z.shiftl (nth (2 * i) ip 0) 8) (nth (2 * i + 1) ip 0)) ++
       ipv6_groups (S i) k' ip)%string
  end.

(** [impl fmt::Display for RDATA]; [ip[k]] is [nth k ip]. *)
Definition rdata_fmt (r : RDATA.RDATA) : string :=
  match r with
  | RDATA.DomainName s => (s ++ nl)%string
  | RDATA.TXT s => (s ++ nl)%string
  | RDATA.MX pref s => (s ++ " (" ++ dec pref ++ ")" ++ nl)%string
  | RDATA.IPV4 ip =>
      (dec (nth 0 ip 0) ++ "." ++ dec (nth 1 ip 0) ++ "." ++ dec (nth 2 ip 0) ++ "."
       ++ dec (nth 3 ip 0) ++ nl)%string
  | RDATA.IPV6 ip => ipv6_groups 0 8 ip
  | RDATA.SOA mname rname serial refresh retry expire minimum =>
      (nl ++ line "MNAME" mname ++ line "RNAME" rname ++ line "SERIAL" (dec serial) ++
       line "REFRESH" (dec refresh) ++ line "RETRY" (dec retry) ++
       line "EXPIRE" (dec expire) ++ line "MINIMUM" (dec minimum))%string
  end.

(** [impl fmt::Display for Answer] *)
Definition answer_fmt (a : Answer) : string :=
  (line "NAME" (name a) ++ line "TYPE" (qtype_debug (rtype a)) ++
   line "CLASS" (qclass_debug (class a)) ++ line "TTL" (dec (ttl a)) ++
   line "RDLENGTH" (dec (rdlength a)) ++ line "RDATA" (rdata_fmt (rdata a)))%string.

(** [writeln!(f, "### <title> ###")?; writeln!(f, "{x}")?] for each item. *)
Definition section_fmt {A} (title : string) (fmt : A -> string) (xs : list A) : string :=
  String.concat "" (map (fun x => "### " ++ title ++ " ###" ++ nl ++ fmt x ++ nl) xs)%string.

(** [impl fmt::Display for Message] *)
Definition message_fmt (m : Message) : string :=
  ("##### MESSAGE #####" ++ nl ++ "### HEADER ###" ++ nl ++ header_fmt (header m) ++ nl ++
   section_fmt "QUESTION" question_fmt (question m) ++
   section_fmt "ANSWER" answer_fmt (answer m) ++
   section_fmt "AUTHORITY" answer_fmt (authority m) ++
   section_fmt "ADDITIONAL" answer_fmt (additional m))%string.

Example ipv6_fmt_example :
  rdata_fmt (RDATA.IPV6 [0x20; 0x01; 0x0d; 0xb8; 0; 0; 0; 0; 0; 0; 0; 0; 0; 0; 0; 1])
  = "2001:db8:0:0:0:0:0:1"%string.
Proof. reflexivity. Qed.

Example ipv4_fmt_example :
  rdata_fmt (RDATA.IPV4 [93; 184; 216; 34]) = ("93.184.216.34" ++ nl)%string.
Proof. reflexivity. Qed.

Example header_fmt_example :
  header_fmt (mkHeader 4660 0x8180 1 1 0 0) =
  (line "ID" "4660" ++ line "QR" "1" ++ line "OPCODE" "0" ++ line "AA" "0" ++
   line "TC" "0" ++ line "RD" "1" ++ line "RA" "1" ++ line "Z" "0" ++ line "RCODE" "0" ++
   line "QDCOUNT" "1" ++ line "ANCOUNT" "1" ++ line "NSCOUNT" "0" ++ line "ARCOUNT" "0")%string.
Proof. reflexivity. Qed.

Example encode_example :
  encode_query 4660 "example.com" "A" "IN" =
  Ok [18; 52; 1; 0; 0; 1; 0; 0; 0; 0; 0; 0;
      7; 101; 120; 97; 109; 112; 108; 101; 3; 99; 111; 109; 0; 0; 1; 0; 1].
Proof. reflexivity. Qed.

Example roundtrip_example :
  message_from_bytes
    [18; 52; 1; 0; 0; 1; 0; 0; 0; 0; 0; 0;
     7; 101; 120; 97; 109; 112; 108; 101; 3; 99; 111; 109; 0; 0; 1; 0; 1] 29
  = Ok (mkMessage (mkHeader 4660 256 1 0 0 0)
          [mkQuestion "example.com." QType.A QClass.IN] [] [] []).
Proof. vm_compute. reflexivity. Qed.

(** ** Basic facts about the primitives *)

Lemma lor_shiftl_low (a b k : Z) :
  0 <= k -> 0 <= b < 2 ^ k -> Z.lor (Z.shiftl a k) b = a * 2 ^ k + b.
Proof.
  intros Hk Hb.
  assert (Hdis : Z.land (Z.shiftl a k) b = 0).
  { apply Z.bits_inj'; intros n Hn. rewrite Z.land_spec, Z.bits_0.
    destruct (Z.lt_ge_cases n k) as [Hlt | Hge].
    - rewrite Z.shiftl_spec_low by lia. reflexivity.
    - rewrite <- (Z.mod_small b (2 ^ k)) by lia.
      rewrite Z.mod_pow2_bits_high by lia. apply andb_false_r. }
  rewrite <- Z.lxor_lor by exact Hdis.
  rewrite <- Z.add_nocarry_lxor by exact Hdis.
  rewrite Z.shiftl_mul_pow2 by lia. reflexivity.
Qed.

(** Reading back a big-endian [u16]. *)
Lemma u16_of_be (v : Z) :
  0 <= v < 65536 ->
  Z.lor (Z.shiftl (Z.land (Z.shiftr v 8) 255) 8) (Z.land v 255) = v.
Proof.
  intros Hv.
  change 255 with (Z.ones 8).
  rewrite !Z.land_ones, Z.shiftr_div_pow2 by lia.
  rewrite lor_shiftl_low; change (2 ^ 8) with 256; try lia.
  - rewrite (Z.mod_small (v / 256)) by (split; [apply Z.div_pos | apply Z.div_lt_upper_bound]; lia).
    pose proof (Z.div_mod v 256). lia.
  - apply Z.mod_pos_bound; lia.
Qed.

Lemma get_u16_write (v : Z) (r : list Z) nds hp :
  0 <= v < 65536 ->
  get_u16 (mkD (write_u16 v ++ r) nds hp) = Ok (v, mkD r nds hp).
Proof. intros Hv. unfold get_u16. cbn. rewrite u16_of_be by exact Hv. reflexivity. Qed.

Lemma get_bytes_ok (n : nat) (st : dstate) :
  (n <= length (cursor st))%nat ->
  get_bytes n st = Ok (take n (cursor st), mkD (drop n (cursor st)) (nodes st) (heap st)).
Proof.
  revert st; induction n as [|n IH]; intros [c nds hp] Hn; cbn in *.
  - reflexivity.
  - destruct c as [|b c]; cbn in Hn; [lia|]. unfold bind at 1. cbn.
    unfold bind. rewrite (IH (mkD c nds hp)) by (cbn; lia). reflexivity.
Qed.

Lemma get_bytes_short (n : nat) (st : dstate) :
  (length (cursor st) < n)%nat -> get_bytes n st = Panic AdvancePastEnd.
Proof.
  revert st; induction n as [|n IH]; intros [c nds hp] Hn; cbn in *; [lia|].
  destruct c as [|b c]; [reflexivity|]. cbn in Hn. unfold bind at 1; cbn.
  unfold bind. rewrite (IH (mkD c nds hp)) by (cbn; lia). reflexivity.
Qed.

(** ** Query encoding *)

(** C2: the query for ["example.com"], [A], [IN] serializes to the id
    (big-endian), the flags [0x01 0x00] (only RD), the counts with
    [qdcount = 1] and the others [0], the name [7 'example' 3 'com' 0],
    then [QTYPE = 0x0001] and [QCLASS = 0x0001]. *)
Theorem query_bytes_example_com (rid : Z) :
  encode_query rid "example.com" "A" "IN" =
  Ok ([Z.land (Z.shiftr rid 8) 255; Z.land rid 255]
      ++ [0x01; 0x00]
      ++ [0x00; 0x01; 0x00; 0x00; 0x00; 0x00; 0x00; 0x00]
      ++ [7] ++ as_bytes "example" ++ [3] ++ as_bytes "com" ++ [0x00]
      ++ [0x00; 0x01] ++ [0x00; 0x01]).
Proof. reflexivity. Qed.

(** ** Header decoding *)

(** C10: [Header::from_bytes] reads six big-endian [u16] fields from any
    buffer of at least 12 bytes and rejects nothing; [Message::from_bytes]
    takes no query id and checks neither the id nor the QR bit, so a bare
    header with any id and any flags decodes. *)
Theorem header_decode_verbatim :
  (forall (b0 b1 b2 b3 b4 b5 b6 b7 b8 b9 b10 b11 : Z) (rest : list Z)
          (nds : gmap nat nat) (hp : list node),
      header_from_bytes
        (mkD (b0 :: b1 :: b2 :: b3 :: b4 :: b5 :: b6 :: b7 :: b8 :: b9 :: b10 :: b11 :: rest)
             nds hp)
      = Ok (mkHeader (Z.lor (Z.shiftl b0 8) b1) (Z.lor (Z.shiftl b2 8) b3)
                     (Z.lor (Z.shiftl b4 8) b5) (Z.lor (Z.shiftl b6 8) b7)
                     (Z.lor (Z.shiftl b8 8) b9) (Z.lor (Z.shiftl b10 8) b11),
            mkD rest nds hp)) /\
  (forall (i f : Z), 0 <= i < 65536 -> 0 <= f < 65536 ->
      message_from_bytes (write_u16 i ++ write_u16 f ++ [0; 0; 0; 0; 0; 0; 0; 0]) 12
      = Ok (mkMessage (mkHeader i f 0 0 0 0) [] [] [] [])).
Proof.
  assert (Hdec : forall (b0 b1 b2 b3 b4 b5 b6 b7 b8 b9 b10 b11 : Z) (rest : list Z)
                        (nds : gmap nat nat) (hp : list node),
      header_from_bytes
        (mkD (b0 :: b1 :: b2 :: b3 :: b4 :: b5 :: b6 :: b7 :: b8 :: b9 :: b10 :: b11 :: rest)
             nds hp)
      = Ok (mkHeader (Z.lor (Z.shiftl b0 8) b1) (Z.lor (Z.shiftl b2 8) b3)
                     (Z.lor (Z.shiftl b4 8) b5) (Z.lor (Z.shiftl b6 8) b7)
                     (Z.lor (Z.shiftl b8 8) b9) (Z.lor (Z.shiftl b10 8) b11),
            mkD rest nds hp)) by reflexivity.
  split; [exact Hdec|].
  intros i f Hi Hf. unfold message_from_bytes, message_body. cbn [length app write_u16 take].
  unfold bind at 1. rewrite Hdec, !u16_of_be by assumption. reflexivity.
Qed.

(** ** The label chain *)

(** [n.next == Some(m)] *)
Definition succ (h : list node) (n m : nat) : Prop :=
  exists nd, h !! n = Some nd /\ next nd = Some m.

Lemma full_label_fuel_sound (f : nat) (h : list node) (n : nat) (s : string) :
  full_label_fuel f h n = Some s -> full_label h n s.
Proof.
  revert n s; induction f as [|f IH]; intros n s Hf; cbn in Hf; [discriminate|].
  destruct (h !! n) as [nd|] eqn:Hn; [|discriminate].
  destruct (next nd) as [m|] eqn:Hnx.
  - destruct (full_label_fuel f h m) as [s'|] eqn:Hm; [|discriminate].
    injection Hf as <-. eapply full_label_next; eauto.
  - injection Hf as <-. eapply full_label_last; eauto.
Qed.

Lemma full_label_fuel_mono (f g : nat) (h : list node) (n : nat) (s : string) :
  (f <= g)%nat -> full_label_fuel f h n = Some s -> full_label_fuel g h n = Some s.
Proof.
  revert g n s; induction f as [|f IH]; intros g n s Hle Hf; cbn in Hf; [discriminate|].
  destruct g as [|g]; [lia|]. cbn.
  destruct (h !! n) as [nd|]; [|discriminate].
  destruct (next nd) as [m|]; [|exact Hf].
  destruct (full_label_fuel f h m) as [s'|] eqn:Hm; [|discriminate].
  rewrite (IH g m s') by (lia || exact Hm). exact Hf.
Qed.

Lemma tc_first {A} (R : relation A) (x z : A) :
  tc R x z -> exists y, R x y /\ rtc R y z.
Proof.
  intros H. inversion H as [? ? Hxy | ? y ? Hxy Hyz]; subst.
  - exists z. split; [exact Hxy | apply rtc_refl].
  - exists y. split; [exact Hxy | apply tc_rtc; exact Hyz].
Qed.

(** A node with a full label does not reach itself. *)
Lemma full_label_acyclic (h : list node) (n : nat) (s : string) :
  full_label h n s -> ~ tc (succ h) n n.
Proof.
  induction 1 as [n nd Hn Hnx | n nd m s Hn Hnx Hm IH]; intros Hc.
  - apply tc_first in Hc as [y [[nd' [Hn' Hnx']] _]]. congruence.
  - apply tc_first in Hc as [y [[nd' [Hn' Hnx']] Hrest]].
    rewrite Hn in Hn'. injection Hn' as <-. rewrite Hnx in Hnx'. injection Hnx' as <-.
    apply IH. apply rtc_tc in Hrest as [Heq | Hmn].
    + subst. apply tc_once. exists nd; split; assumption.
    + eapply tc_r; [exact Hmn|]. exists nd; split; assumption.
Qed.

(** Pigeonhole: distinct node addresses, all in the heap. *)
Lemma visited_bound (h : list node) (n : nat) (nd : node) (vis : list nat) :
  h !! n = Some nd -> List.NoDup vis -> (forall v, In v vis -> (v < length h)%nat) ->
  ~ In n vis -> (length vis < length h)%nat.
Proof.
  intros Hn Hnd Hlt Hn'.
  assert (Hlen : (length (n :: vis) <= length (seq 0 (length h)))%nat).
  { apply NoDup_incl_length; [constructor; assumption|].
    intros v Hv. apply in_seq. destruct Hv as [<- | Hv].
    - apply lookup_lt_Some in Hn. lia.
    - specialize (Hlt v Hv). lia. }
  rewrite length_seq in Hlen. cbn in Hlen. lia.
Qed.

Lemma full_label_fuel_visited (h : list node) (n : nat) (s : string) (vis : list nat) :
  full_label h n s -> List.NoDup vis ->
  (forall v, In v vis -> (v < length h)%nat) ->
  (forall v, In v vis -> ~ rtc (succ h) n v) ->
  full_label_fuel (length h - length vis) h n = Some s.
Proof.
  intros Hfl. revert vis.
  induction Hfl as [n nd Hn Hnx | n nd m s Hn Hnx Hm IH]; intros vis Hnd Hlt Hav.
  all: assert (Hn' : ~ In n vis) by (intros Hin; exact (Hav n Hin (rtc_refl _ _))).
  all: assert (Hbound : (length vis < length h)%nat)
         by (eapply visited_bound; eassumption).
  - replace (length h - length vis)%nat with (S (length h - S (length vis))) by lia.
    cbn. rewrite Hn, Hnx. reflexivity.
  - assert (Hstep : succ h n m) by (exists nd; split; assumption).
    assert (IH' : full_label_fuel (length h - length (n :: vis)) h m = Some s).
    { apply IH.
      - constructor; assumption.
      - intros v [<- | Hv]; [apply lookup_lt_Some in Hn; exact Hn | exact (Hlt v Hv)].
      - intros v [<- | Hv] Hr.
        + apply (full_label_acyclic h n (label nd ++ "." ++ s)%string);
            [eapply full_label_next; eauto|].
          eapply tc_rtc_r; [apply tc_once; exact Hstep | exact Hr].
        + apply (Hav v Hv). eapply rtc_l; [exact Hstep | exact Hr]. }
    replace (length h - length vis)%nat with (S (length h - length (n :: vis)))
      by (cbn; lia).
    cbn [full_label_fuel]. rewrite Hn, Hnx, IH'. reflexivity.
Qed.

(** A chain that has a full label is found within [S (length heap)] steps:
    [get_full_label] answers [Diverge] only where the recursion of
    [Node::get_full_label] has no result. *)
Lemma full_label_fuel_complete (h : list node) (n : nat) (s : string) :
  full_label h n s -> full_label_fuel (S (length h)) h n = Some s.
Proof.
  intros Hfl.
  assert (H0 := full_label_fuel_visited h n s [] Hfl (List.NoDup_nil _)
                  (fun v Hv => False_ind _ Hv) (fun v Hv => False_ind _ Hv)).
  eapply full_label_fuel_mono; [| exact H0]. cbn. lia.
Qed.

Lemma get_full_label_ok (n : nat) (st : dstate) (s : string) :
  full_label (heap st) n s -> get_full_label n st = Ok (s, st).
Proof.
  intros H. unfold get_full_label. rewrite (full_label_fuel_complete _ _ _ H). reflexivity.
Qed.

Lemma get_full_label_diverge (n : nat) (st : dstate) :
  get_full_label n st = Diverge <-> ~ exists s, full_label (heap st) n s.
Proof.
  unfold get_full_label. split.
  - intros Hd [s Hs]. rewrite (full_label_fuel_complete _ _ _ Hs) in Hd. discriminate.
  - intros Hno. destruct (full_label_fuel _ _ _) as [s|] eqn:Hf; [|reflexivity].
    exfalso. apply Hno. exists s. eapply full_label_fuel_sound; eauto.
Qed.

(** ** One turn of the name-decoding loop *)

(** The heap after [if let Some(p) = prev { p.borrow_mut().next = Some(n) }]. *)
Definition link (prev : option nat) (n : nat) (hp : list node) : list node :=
  match prev with
  | Some p => alter (fun nd => mkNode (label nd) (Some n)) p hp
  | None => hp
  end.

(** The 14-bit offset of a compression pointer [(upper << 8 | lower)]. *)
Definition pointer_offset (octet lower : Z) : nat :=
  Z.to_nat (Z.lor (Z.shiftl (Z.land octet 0x3F) 8) lower).

Lemma read_label_body_empty (i : nat) (head prev : option nat) nds hp :
  read_label_body i head prev (mkD [] nds hp) = Panic AdvancePastEnd.
Proof. reflexivity. Qed.

(** The turn of the loop, case by case on the length octet. *)
Lemma read_label_body_eq (i : nat) (head prev : option nat) (octet : Z) (r : list Z)
      (nds : gmap nat nat) (hp : list node) :
  read_label_body i head prev (mkD (octet :: r) nds hp) =
  if Z.land octet 0xC0 =? 0xC0 then
    match r with
    | [] => Panic AdvancePastEnd
    | lower :: r' =>
        match nds !! pointer_offset octet lower with
        | Some n =>
            Ok (Break (match head with None => Some n | Some _ => head end),
                mkD r' nds (link prev n hp))
        | None => Err (ParseLabelError "No entry on nodes")
        end
    end
  else if Z.land octet 0x3F =? 0 then Ok (Break head, mkD r nds hp)
  else if (Z.to_nat (Z.land octet 0x3F) <=? length r)%nat then
    Ok (Continue (i + 1 + Z.to_nat (Z.land octet 0x3F))
                 (match head with None => Some (length hp) | Some _ => head end)
                 (Some (length hp)),
        mkD (drop (Z.to_nat (Z.land octet 0x3F)) r) (<[i := length hp]> nds)
            (link prev (length hp)
               (hp ++ [mkNode (string_of_bytes (take (Z.to_nat (Z.land octet 0x3F)) r)) None])))
  else Panic AdvancePastEnd.
Proof.
  unfold read_label_body, get_label, bind at 1, get_u8 at 1. cbn [cursor nodes heap].
  destruct (Z.land octet 0xC0 =? 0xC0).
  - destruct r as [|lower r']; [reflexivity|]. cbn.
    unfold pointer_offset. destruct (nds !! _) as [n|]; [|reflexivity].
    destruct prev; reflexivity.
  - destruct (Z.land octet 0x3F =? 0); [reflexivity|].
    destruct (Nat.leb_spec (Z.to_nat (Z.land octet 0x3F)) (length r)) as [Hle | Hgt].
    + unfold bind at 1. unfold bind at 1.
      rewrite (get_bytes_ok _ (mkD r nds hp)) by exact Hle. cbn.
      destruct prev; reflexivity.
    + unfold bind at 1. unfold bind at 1.
      rewrite (get_bytes_short _ (mkD r nds hp)) by exact Hgt. reflexivity.
Qed.

(** Every turn that continues the loop consumes at least one byte. *)
Lemma read_label_body_progress (i : nat) (head prev : option nat) (st : dstate)
      (i' : nat) (head' prev' : option nat) (st' : dstate) :
  read_label_body i head prev st = Ok (Continue i' head' prev', st') ->
  (length (cursor st') < length (cursor st))%nat.
Proof.
  destruct st as [[|octet r] nds hp]; [discriminate|].
  rewrite read_label_body_eq. intros H.
  destruct (Z.land octet 0xC0 =? 0xC0).
  - destruct r as [|lower r']; [discriminate|].
    destruct (nds !! _); discriminate.
  - destruct (Z.land octet 0x3F =? 0); [discriminate|].
    destruct (Nat.leb _ _); [|discriminate].
    injection H as _ _ _ <-. cbn. rewrite length_drop. lia.
Qed.

(** [S (length cursor)] turns are enough: the loop never runs out of fuel. *)
Lemma read_label_loop_fuel (f i : nat) (head prev : option nat) (st : dstate) :
  (length (cursor st) < f)%nat -> read_label_loop f i head prev st <> Diverge.
Proof.
  revert i head prev st; induction f as [|f IH]; intros i head prev st Hf; [lia|].
  cbn [read_label_loop]. unfold bind at 1.
  destruct (read_label_body i head prev st) as [[[h|i' h' p'] st']| e | p |] eqn:Hb;
    try discriminate.
  - apply IH. apply read_label_body_progress in Hb. lia.
  - destruct st as [[|octet r] nds hp]; [discriminate|].
    rewrite read_label_body_eq in Hb.
    destruct (Z.land octet 0xC0 =? 0xC0);
      [destruct r; [discriminate|]; destruct (nds !! _); discriminate|].
    destruct (Z.land octet 0x3F =? 0); [discriminate|].
    destruct (Nat.leb _ _); discriminate.
Qed.

Lemma read_label_loop_err (i : nat) (st : dstate) (e : error) :
  read_label_loop (S (length (cursor st))) i None None st = Err e ->
  read_label i st = Err e.
Proof. intros H. unfold read_label, bind. rewrite H. reflexivity. Qed.

(** ** Compression pointers *)

(** C3: whenever the loop of [read_label] meets a compression pointer (top
    bits [11]) whose offset has no entry in the table, decoding stops with
    the error [ParseLabelError "No entry on nodes"] (the dangling-pointer
    error), and [read_label] returns that error, not a name. *)
Theorem dangling_pointer_rejected :
  (forall (f i : nat) (head prev : option nat) (octet lower : Z) (r : list Z)
          (nds : gmap nat nat) (hp : list node),
      Z.land octet 0xC0 = 0xC0 ->
      nds !! pointer_offset octet lower = None ->
      read_label_loop (S f) i head prev (mkD (octet :: lower :: r) nds hp)
      = Err (ParseLabelError "No entry on nodes")) /\
  (forall (i : nat) (st : dstate) (e : error),
      read_label_loop (S (length (cursor st))) i None None st = Err e ->
      read_label i st = Err e).
Proof.
  split; [|exact read_label_loop_err].
  intros f i head prev octet lower r nds hp Hc Hnone.
  cbn [read_label_loop]. unfold bind at 1.
  rewrite read_label_body_eq, Hc, Z.eqb_refl, Hnone. reflexivity.
Qed.

Lemma dangling_pointer_rejected_witness :
  (Z.land 0xC0 0xC0 = 0xC0 /\ (∅ : gmap nat nat) !! pointer_offset 0xC0 0x20 = None) /\
  read_label_loop 5 12 None None (mkD [0xC0; 0x20; 0; 1] ∅ [])
  = Err (ParseLabelError "No entry on nodes").
Proof.
  split; [split; reflexivity|].
  apply (proj1 dangling_pointer_rejected); reflexivity.
Defined.

(** A forward pointer, and a pointer into the header, inside a message. *)
Example dangling_pointer_forward :
  message_from_bytes [0; 1; 1; 0; 0; 1; 0; 0; 0; 0; 0; 0; 0xC0; 0x12; 0; 1; 0; 1; 1; 97; 0] 21
  = Err (ParseLabelError "No entry on nodes").
Proof. vm_compute. reflexivity. Qed.

Example dangling_pointer_header :
  message_from_bytes [0; 1; 1; 0; 0; 1; 0; 0; 0; 0; 0; 0; 0xC0; 0x02; 0; 1; 0; 1] 18
  = Err (ParseLabelError "No entry on nodes").
Proof. vm_compute. reflexivity. Qed.

(** ** Reserved label flags *)

(** C7 (counterexample): the length octet [0x41] (top bits [01]) is read as
    a one-byte label and [0x40] ends the name; no error is raised. *)
Lemma reserved_flag_accepted :
  exists st', read_label 0 (mkD [0x41; 97; 0x40; 98] ∅ []) = Ok ("a."%string, st').
Proof. eexists. vm_compute. reflexivity. Qed.

(** C7 (amended): a length octet whose top two bits are [01] or [10] is
    not rejected: the loop treats it exactly as the octet of its low six
    bits, a literal label length, and a zero length ends the name. *)
Theorem reserved_label_flags_as_length :
  (forall (i : nat) (head prev : option nat) (octet : Z) (r : list Z)
          (nds : gmap nat nat) (hp : list node),
      Z.land octet 0xC0 = 0x40 \/ Z.land octet 0xC0 = 0x80 ->
      read_label_body i head prev (mkD (octet :: r) nds hp)
      = read_label_body i head prev (mkD (Z.land octet 0x3F :: r) nds hp)) /\
  (forall (i : nat) (head prev : option nat) (octet : Z) (r : list Z)
          (nds : gmap nat nat) (hp : list node),
      Z.land octet 0xC0 = 0x40 \/ Z.land octet 0xC0 = 0x80 ->
      Z.land octet 0x3F = 0 ->
      read_label_body i head prev (mkD (octet :: r) nds hp) = Ok (Break head, mkD r nds hp)).
Proof.
  assert (Hc : forall octet : Z,
             Z.land octet 0xC0 = 0x40 \/ Z.land octet 0xC0 = 0x80 ->
             (Z.land octet 0xC0 =? 0xC0) = false)
    by (intros octet [-> | ->]; reflexivity).
  split.
  - intros i head prev octet r nds hp Hflag.
    rewrite !read_label_body_eq, (Hc octet Hflag).
    rewrite <- !Z.land_assoc. change (Z.land 0x3F 0xC0) with 0. change (Z.land 0x3F 0x3F) with 0x3F.
    rewrite Z.land_0_r. reflexivity.
  - intros i head prev octet r nds hp Hflag Hz.
    rewrite read_label_body_eq, (Hc octet Hflag), Hz. reflexivity.
Qed.

Lemma reserved_label_flags_as_length_witness :
  (Z.land 0x41 0xC0 = 0x40 \/ Z.land 0x41 0xC0 = 0x80) /\
  read_label_body 0 None None (mkD [0x41; 97; 0] ∅ [])
  = read_label_body 0 None None (mkD [Z.land 0x41 0x3F; 97; 0] ∅ []) /\
  (Z.land 0x80 0xC0 = 0x40 \/ Z.land 0x80 0xC0 = 0x80) /\ Z.land 0x80 0x3F = 0 /\
  read_label_body 0 None None (mkD [0x80; 98] ∅ []) = Ok (Break None, mkD [98] ∅ []).
Proof.
  split; [left; reflexivity|]. split.
  - apply (proj1 reserved_label_flags_as_length). left; reflexivity.
  - split; [right; reflexivity|]. split; [reflexivity|].
    apply (proj2 reserved_label_flags_as_length); [right; reflexivity | reflexivity].
Defined.

(** ** Fixed-size RDATA *)

Lemma rdata_fixed_panic (len : nat) (rt : QType.QType) (k : nat) (rdlen : Z) (st : dstate) :
  (rt = QType.A /\ k = 4%nat \/ rt = QType.AAAA /\ k = 16%nat) ->
  Z.to_nat rdlen <> k -> exists p, rdata_from_bytes len rt rdlen st = Panic p.
Proof.
  intros Hrt Hk.
  destruct (Nat.leb_spec (Z.to_nat rdlen) (length (cursor st))) as [Hle | Hgt].
  - assert (Hlen : length (take (Z.to_nat rdlen) (cursor st)) = Z.to_nat rdlen)
      by (rewrite length_take; lia).
    destruct Hrt as [[-> ->] | [-> ->]]; unfold rdata_from_bytes, bind at 1;
      rewrite (get_bytes_ok _ st Hle), Hlen;
      apply Nat.eqb_neq in Hk; rewrite Hk; eexists; reflexivity.
  - destruct Hrt as [[-> ->] | [-> ->]]; unfold rdata_from_bytes, bind at 1;
      rewrite (get_bytes_short _ st Hgt); eexists; reflexivity.
Qed.

(** C6 (amended): an A record's RDATA decodes to [IPV4] when RDLENGTH is 4
    and the 4 bytes are there, consuming exactly them; any other RDLENGTH
    makes decoding panic (the [assert_eq!] on the length, or the cursor
    running out) instead of returning an error; AAAA likewise with 16. *)
Theorem fixed_rdata_lengths :
  (forall (len : nat) (b0 b1 b2 b3 : Z) (r : list Z) (nds : gmap nat nat) (hp : list node),
      rdata_from_bytes len QType.A 4 (mkD (b0 :: b1 :: b2 :: b3 :: r) nds hp)
      = Ok (RDATA.IPV4 [b0; b1; b2; b3], mkD r nds hp)) /\
  (forall (len : nat) (rdlen : Z) (st : dstate),
      rdlen <> 4 -> exists p, rdata_from_bytes len QType.A rdlen st = Panic p) /\
  (forall (len : nat) (bs r : list Z) (nds : gmap nat nat) (hp : list node),
      length bs = 16%nat ->
      rdata_from_bytes len QType.AAAA 16 (mkD (bs ++ r) nds hp)
      = Ok (RDATA.IPV6 bs, mkD r nds hp)) /\
  (forall (len : nat) (rdlen : Z) (st : dstate),
      rdlen <> 16 -> exists p, rdata_from_bytes len QType.AAAA rdlen st = Panic p).
Proof.
  split; [intros; reflexivity|]. split; [|split].
  - intros len rdlen st Hne. apply (rdata_fixed_panic len QType.A 4); [left; auto | lia].
  - intros len bs r nds hp Hbs. unfold rdata_from_bytes, bind at 1.
    rewrite (get_bytes_ok _ (mkD (bs ++ r) nds hp)) by (cbn; rewrite length_app; lia).
    cbn [cursor nodes heap]. change (Z.to_nat 16) with 16%nat.
    rewrite <- Hbs, take_app_length, drop_app_length, Hbs. reflexivity.
  - intros len rdlen st Hne. apply (rdata_fixed_panic len QType.AAAA 16); [right; auto | lia].
Qed.

Lemma fixed_rdata_lengths_witness :
  rdata_from_bytes 0 QType.A 4 (mkD [93; 184; 216; 34] ∅ [])
    = Ok (RDATA.IPV4 [93; 184; 216; 34], mkD [] ∅ []) /\
  (3 <> 4 /\ exists p, rdata_from_bytes 0 QType.A 3 (mkD [93; 184; 216; 34] ∅ []) = Panic p) /\
  (length (seq 0 16) = 16%nat /\
   rdata_from_bytes 0 QType.AAAA 16 (mkD (map Z.of_nat (seq 0 16) ++ [7]) ∅ [])
   = Ok (RDATA.IPV6 (map Z.of_nat (seq 0 16)), mkD [7] ∅ [])) /\
  (4 <> 16 /\ exists p, rdata_from_bytes 0 QType.AAAA 4 (mkD [93; 184; 216; 34] ∅ []) = Panic p).
Proof.
  split; [apply (proj1 fixed_rdata_lengths)|]. split; [split; [lia|]|split; [split; [reflexivity|]|]].
  - apply (proj1 (proj2 fixed_rdata_lengths)). lia.
  - apply (proj1 (proj2 (proj2 fixed_rdata_lengths))). reflexivity.
  - split; [lia|]. apply (proj2 (proj2 (proj2 fixed_rdata_lengths))). lia.
Defined.

(** C6 (counterexample): RDLENGTH 3 for an A record is not an error result:
    decoding panics at the length assertion. *)
Lemma a_record_rdlength_3_panics :
  rdata_from_bytes 0 QType.A 3 (mkD [93; 184; 216; 34] ∅ [])
  = Panic (AssertFailed "Invalid A record length").
Proof. reflexivity. Qed.

(** A complete A answer, RDATA [93 184 216 34]. *)
Example a_record_in_message :
  message_from_bytes [0; 1; 0x81; 0x80; 0; 0; 0; 1; 0; 0; 0; 0;
                      1; 97; 0; 0; 1; 0; 1; 0; 0; 0; 60; 0; 4; 93; 184; 216; 34] 29
  = Ok (mkMessage (mkHeader 1 0x8180 0 1 0 0) []
          [mkAnswer "a." QType.A QClass.IN 60 4 (RDATA.IPV4 [93; 184; 216; 34])] [] []).
Proof. vm_compute. reflexivity. Qed.

(** ** Bytes consumed by RDATA *)

(** C9 (counterexample): a TXT record with RDLENGTH 10 whose RDATA is the
    character-string [2 'h' 'i'] decodes after consuming 3 bytes. *)
Lemma txt_rdlength_unchecked :
  rdata_from_bytes 0 QType.TXT 10 (mkD [2; 104; 105] ∅ [])
  = Ok (RDATA.TXT "hi", mkD [] ∅ []).
Proof. reflexivity. Qed.

(** ** Section counts and truncated input *)

Lemma repeatM_length {A} (n : nat) (m : M A) (st : dstate) (xs : list A) (st' : dstate) :
  repeatM n m st = Ok (xs, st') -> length xs = n.
Proof.
  revert st xs st'; induction n as [|n IH]; intros st xs st' Hok; cbn in Hok.
  - injection Hok as <- _. reflexivity.
  - unfold bind at 1 in Hok. destruct (m st) as [[x st1]| | |]; try discriminate.
    unfold bind at 1 in Hok. destruct (repeatM n m st1) as [[ys st2]| | |] eqn:Hr; try discriminate.
    injection Hok as <- _. cbn. f_equal. eapply IH. exact Hr.
Qed.

Lemma header_from_bytes_short (st : dstate) :
  (length (cursor st) < 12)%nat -> header_from_bytes st = Panic AdvancePastEnd.
Proof.
  destruct st as [c nds hp]. cbn [cursor]. intros Hc.
  do 12 (destruct c as [|? c]; [reflexivity|]). cbn in Hc. lia.
Qed.

(** *** Running the decoder on a longer buffer

    [ext s st] is the state [st] with the bytes [s] appended to the cursor.
    [sim s L m1 m2]: on any state whose cursor holds at most [L] bytes, [m1]
    either runs out of bytes, or does what [m2] does on the extended state,
    ending in the extended state of its own. *)
Definition ext (s : list Z) (st : dstate) : dstate :=
  mkD (cursor st ++ s) (nodes st) (heap st).

Definition out_rel {A} (s : list Z) (L : nat) (o1 o2 : outcome (A * dstate)) : Prop :=
  o1 = Panic AdvancePastEnd \/
  match o1 with
  | Ok (a, st1) => (length (cursor st1) <= L)%nat /\ o2 = Ok (a, ext s st1)
  | Err e => o2 = Err e
  | Panic p => o2 = Panic p
  | Diverge => o2 = Diverge
  end.

Definition sim {A} (s : list Z) (L : nat) (m1 m2 : M A) : Prop :=
  forall st, (length (cursor st) <= L)%nat -> out_rel s L (m1 st) (m2 (ext s st)).

Section Truncation.
Variable s : list Z.
Variable L : nat.

Lemma sim_bind {A B} (m1 m2 : M A) (k1 k2 : A -> M B) :
  sim s L m1 m2 -> (forall a, sim s L (k1 a) (k2 a)) -> sim s L (bind m1 k1) (bind m2 k2).
Proof.
  intros Hm Hk st Hst. unfold bind. destruct (Hm st Hst) as [E | Hr].
  - rewrite E. left. reflexivity.
  - destruct (m1 st) as [[a st1]| e | p |].
    + destruct Hr as [Hl ->]. apply Hk. exact Hl.
    + rewrite Hr. right. reflexivity.
    + rewrite Hr. right. reflexivity.
    + rewrite Hr. right. reflexivity.
Qed.

Lemma sim_ret {A} (a : A) : sim s L (ret a) (ret a).
Proof. intros st Hst. right. split; [exact Hst | reflexivity]. Qed.

Lemma sim_throw {A} (e : error) : sim s L (@throw A e) (throw e).
Proof. intros st Hst. right. reflexivity. Qed.

Lemma sim_fail {A} (p : panic) : sim s L (@fail A p) (fail p).
Proof. intros st Hst. right. reflexivity. Qed.

Lemma sim_lift {A} (r : outcome A) : sim s L (lift r) (lift r).
Proof. intros st Hst. right. destruct r; cbn; [split; [exact Hst|]|..]; reflexivity. Qed.

Lemma sim_get_u8 : sim s L get_u8 get_u8.
Proof.
  intros [[|b r] nds hp] Hst; [left; reflexivity|].
  right. cbn [cursor length] in *. split; [cbn; lia | reflexivity].
Qed.

Lemma sim_nodes_get (o : nat) : sim s L (nodes_get o) (nodes_get o).
Proof. intros st Hst. right. split; [exact Hst | reflexivity]. Qed.

Lemma sim_nodes_insert (i n : nat) : sim s L (nodes_insert i n) (nodes_insert i n).
Proof. intros st Hst. right. split; [exact Hst | reflexivity]. Qed.

Lemma sim_node_new (l : string) : sim s L (node_new l) (node_new l).
Proof. intros st Hst. right. split; [exact Hst | reflexivity]. Qed.

Lemma sim_set_next_of (prev : option nat) (n : nat) :
  sim s L (set_next_of prev n) (set_next_of prev n).
Proof. intros st Hst. right. destruct prev; (split; [exact Hst | reflexivity]). Qed.

Lemma sim_get_full_label (n : nat) : sim s L (get_full_label n) (get_full_label n).
Proof.
  intros st Hst. right. unfold get_full_label. cbn [ext heap].
  destruct (full_label_fuel _ _ _); [split; [exact Hst|]|]; reflexivity.
Qed.

(** [buf.remaining()] differs by [length s]; what follows only uses it
    through [len - remaining], the same offset on both sides. *)
Lemma sim_remaining {A} (k1 k2 : nat -> M A) :
  (forall n, (n <= L)%nat -> sim s L (k1 n) (k2 (n + length s)%nat)) ->
  sim s L (bind remaining k1) (bind remaining k2).
Proof.
  intros Hk st Hst. unfold bind, remaining. cbn [ext cursor]. rewrite length_app.
  apply Hk; assumption.
Qed.

Ltac sim_tac :=
  repeat (cbv zeta;
          first [ apply sim_bind
                | apply sim_ret | apply sim_throw | apply sim_fail | apply sim_lift
                | apply sim_get_u8 | apply sim_nodes_get | apply sim_nodes_insert
                | apply sim_node_new | apply sim_set_next_of | apply sim_get_full_label
                | match goal with |- forall _, _ => intros ? end
                | match goal with
                  | |- sim _ _ (match ?x with _ => _ end) _ => destruct x
                  | |- sim _ _ (if ?b then _ else _) _ => destruct b
                  end ]).

Lemma sim_get_u16 : sim s L get_u16 get_u16.
Proof. unfold get_u16. sim_tac. Qed.

Lemma sim_get_u32 : sim s L get_u32 get_u32.
Proof. unfold get_u32. sim_tac; apply sim_get_u16. Qed.

Lemma sim_get_bytes (n : nat) : sim s L (get_bytes n) (get_bytes n).
Proof. induction n as [|n IH]; cbn [get_bytes]; sim_tac; exact IH. Qed.

Lemma sim_read_label_body (i : nat) (head prev : option nat) :
  sim s L (read_label_body i head prev) (read_label_body i head prev).
Proof. unfold read_label_body, get_label. sim_tac; apply sim_get_bytes. Qed.

Lemma sim_read_label_loop (f i : nat) (head prev : option nat) :
  sim s L (read_label_loop f i head prev) (read_label_loop f i head prev).
Proof.
  revert i head prev; induction f as [|f IH]; intros i head prev.
  - intros st Hst. right. reflexivity.
  - cbn [read_label_loop]. apply sim_bind; [apply sim_read_label_body|].
    intros [h|i' h' p']; [apply sim_ret | apply IH].
Qed.

End Truncation.

(** Enough fuel for the loop of [read_label] gives the same result. *)
Lemma read_label_loop_fuel_eq (f1 f2 i : nat) (head prev : option nat) (st : dstate) :
  (length (cursor st) < f1)%nat -> (length (cursor st) < f2)%nat ->
  read_label_loop f1 i head prev st = read_label_loop f2 i head prev st.
Proof.
  revert f2 i head prev st; induction f1 as [|f1 IH];
    intros [|f2] i head prev st H1 H2; try lia.
  cbn [read_label_loop]. unfold bind.
  destruct (read_label_body i head prev st) as [[[h|i' h' p'] st']| | |] eqn:Hb;
    try reflexivity.
  apply read_label_body_progress in Hb. apply IH; lia.
Qed.

Section Truncation2.
Variable s : list Z.
Variable L : nat.

Lemma sim_read_label (i : nat) : sim s L (read_label i) (read_label i).
Proof.
  intros st Hst. unfold read_label. cbn [ext cursor]. rewrite length_app.
  unfold bind.
  rewrite (read_label_loop_fuel_eq (S (length (cursor st)))
             (S (length (cursor st) + length s)) i None None st) by lia.
  change (mkD (cursor st ++ s) (nodes st) (heap st)) with (ext s st).
  pose proof (sim_read_label_loop s L (S (length (cursor st) + length s)) i None None st Hst)
    as Hl.
  destruct Hl as [E | Hr].
  - rewrite E. left. reflexivity.
  - destruct (read_label_loop _ i None None st) as [[h st1]| e | p |].
    + destruct Hr as [Hle ->]. destruct h as [n|].
      * apply sim_get_full_label. exact Hle.
      * right. reflexivity.
    + rewrite Hr. right. reflexivity.
    + rewrite Hr. right. reflexivity.
    + rewrite Hr. right. reflexivity.
Qed.

Lemma sim_rdata_from_bytes (rt : QType.QType) (rdlen : Z) :
  sim s L (rdata_from_bytes L rt rdlen) (rdata_from_bytes (L + length s) rt rdlen).
Proof.
  destruct rt; cbn [rdata_from_bytes];
    repeat (first [ apply sim_remaining; intros n Hn;
                    replace (L + length s - (n + length s))%nat with (L - n)%nat by lia
                  | apply sim_read_label
                  | apply sim_ret | apply sim_fail | apply sim_get_u8
                  | apply sim_get_u16 | apply sim_get_bytes | apply sim_bind
                  | match goal with |- forall _, _ => intros ? end
                  | match goal with |- sim _ _ (if ?b then _ else _) _ => destruct b end ]).
Qed.

Lemma sim_question_from_bytes :
  sim s L (question_from_bytes L) (question_from_bytes (L + length s)).
Proof.
  unfold question_from_bytes. apply sim_remaining. intros n Hn. cbv zeta.
  replace (L + length s - (n + length s))%nat with (L - n)%nat by lia.
  repeat (first [ apply sim_read_label | apply sim_ret | apply sim_lift | apply sim_get_u16
                | apply sim_bind | match goal with |- forall _, _ => intros ? end ]).
Qed.

Lemma sim_answer_from_bytes :
  sim s L (answer_from_bytes L) (answer_from_bytes (L + length s)).
Proof.
  unfold answer_from_bytes. apply sim_remaining. intros n Hn.
  replace (L + length s - (n + length s))%nat with (L - n)%nat by lia.
  repeat (first [ apply sim_read_label | apply sim_rdata_from_bytes | apply sim_ret
                | apply sim_lift | apply sim_get_u16 | apply sim_get_u32 | apply sim_bind
                | match goal with |- forall _, _ => intros ? end ]).
Qed.

Lemma sim_repeatM {A} (n : nat) (m1 m2 : M A) :
  sim s L m1 m2 -> sim s L (repeatM n m1) (repeatM n m2).
Proof.
  intros Hm. induction n as [|n IH]; cbn [repeatM];
    [apply sim_ret | apply sim_bind; [exact Hm | intros x; apply sim_bind; [exact IH|]]].
  intros xs. apply sim_ret.
Qed.

Lemma sim_message_body : sim s L (message_body L) (message_body (L + length s)).
Proof.
  unfold message_body, header_from_bytes.
  repeat (first [ apply sim_repeatM; first [apply sim_question_from_bytes
                                           | apply sim_answer_from_bytes]
                | apply sim_ret | apply sim_get_u16 | apply sim_bind
                | match goal with |- forall _, _ => intros ? end ]).
Qed.

End Truncation2.

(** Decoding a buffer with more bytes after it: the shorter buffer either
    runs out of bytes (a panic) or decodes exactly as the longer one. *)
Lemma message_from_bytes_extend (buf extra : list Z) :
  message_from_bytes buf (length buf) = Panic AdvancePastEnd \/
  message_from_bytes buf (length buf)
  = message_from_bytes (buf ++ extra) (length (buf ++ extra)).
Proof.
  unfold message_from_bytes. rewrite !Nat.leb_refl, !take_ge by lia.
  rewrite length_app.
  destruct (sim_message_body extra (length buf) (mkD buf ∅ []) (le_n _)) as [E | Hr].
  - rewrite E. left. reflexivity.
  - right. change (mkD (buf ++ extra) ∅ []) with (ext extra (mkD buf ∅ [])).
    destruct (message_body (length buf) (mkD buf ∅ [])) as [[m st1]| e | p |];
      [destruct Hr as [_ ->] | rewrite Hr ..]; reflexivity.
Qed.

(** C5 (counterexample): ANCOUNT = 2 over a buffer holding one complete
    answer: decoding panics in the cursor; no error result is returned. *)
Lemma truncated_answer_panics :
  message_from_bytes [0; 1; 0x81; 0x80; 0; 0; 0; 2; 0; 0; 0; 0;
                      1; 97; 0; 0; 1; 0; 1; 0; 0; 0; 60; 0; 4; 93; 184; 216; 34] 29
  = Panic AdvancePastEnd.
Proof. vm_compute. reflexivity. Qed.

(** C5 (amended): there is no truncation error result. A buffer too short
    for a field makes decoding panic: any buffer shorter than the header;
    and in general, a buffer cut short anywhere (in the header, a question,
    a record or its RDATA) either panics in the byte cursor or decodes
    exactly as the whole buffer does, so cutting bytes off never yields an
    error result or a shorter message. And no partial message is returned:
    every decoded message has exactly as many entries in each section as
    its header counts. *)
Theorem no_partial_message :
  (forall (buf : list Z) (len : nat) (m : Message),
      message_from_bytes buf len = Ok m ->
      length (question m) = Z.to_nat (qdcount (header m)) /\
      length (answer m) = Z.to_nat (ancount (header m)) /\
      length (authority m) = Z.to_nat (nscount (header m)) /\
      length (additional m) = Z.to_nat (arcount (header m))) /\
  (forall (buf : list Z) (len : nat),
      (len <= length buf)%nat -> (len < 12)%nat ->
      message_from_bytes buf len = Panic AdvancePastEnd) /\
  (forall (buf extra : list Z),
      message_from_bytes buf (length buf) = Panic AdvancePastEnd \/
      message_from_bytes buf (length buf)
      = message_from_bytes (buf ++ extra) (length (buf ++ extra))).
Proof.
  split; [|split; [|exact message_from_bytes_extend]].
  - intros buf len m Hok. unfold message_from_bytes in Hok.
    destruct (Nat.leb len (length buf)); [|discriminate].
    destruct (message_body len _) as [[m' st']| | |] eqn:Hb; try discriminate.
    injection Hok as <-. unfold message_body, bind in Hb.
    destruct (header_from_bytes _) as [[h st1]| | |]; try discriminate.
    destruct (repeatM _ (question_from_bytes len) st1) as [[qs st2]| | |] eqn:Hq; try discriminate.
    destruct (repeatM _ (answer_from_bytes len) st2) as [[ans st3]| | |] eqn:Ha; try discriminate.
    destruct (repeatM _ (answer_from_bytes len) st3) as [[ns st4]| | |] eqn:Hn; try discriminate.
    destruct (repeatM _ (answer_from_bytes len) st4) as [[ad st5]| | |] eqn:Hd; try discriminate.
    injection Hb as <- _. cbn.
    apply repeatM_length in Hq, Ha, Hn, Hd. auto.
  - intros buf len Hle Hlt. unfold message_from_bytes.
    apply Nat.leb_le in Hle. rewrite Hle.
    unfold message_body, bind at 1. rewrite header_from_bytes_short; [reflexivity|].
    cbn. rewrite length_take. lia.
Qed.

Lemma no_partial_message_witness :
  (message_from_bytes [0; 1; 0x81; 0x80; 0; 0; 0; 1; 0; 0; 0; 0;
                       1; 97; 0; 0; 1; 0; 1; 0; 0; 0; 60; 0; 4; 93; 184; 216; 34] 29
   = Ok (mkMessage (mkHeader 1 0x8180 0 1 0 0) []
           [mkAnswer "a." QType.A QClass.IN 60 4 (RDATA.IPV4 [93; 184; 216; 34])] [] []) /\
   length [mkAnswer "a." QType.A QClass.IN 60 4 (RDATA.IPV4 [93; 184; 216; 34])]
   = Z.to_nat 1) /\
  ((5 <= length [0; 1; 0x81; 0x80; 0])%nat /\ (5 < 12)%nat /\
   message_from_bytes [0; 1; 0x81; 0x80; 0] 5 = Panic AdvancePastEnd) /\
  (message_from_bytes [0; 1; 0x81; 0x80; 0; 0; 0; 1; 0; 0; 0; 0;
                       1; 97; 0; 0; 1; 0; 1; 0; 0; 0; 60; 0; 4; 93; 184] 27
   = Panic AdvancePastEnd \/
   message_from_bytes [0; 1; 0x81; 0x80; 0; 0; 0; 1; 0; 0; 0; 0;
                       1; 97; 0; 0; 1; 0; 1; 0; 0; 0; 60; 0; 4; 93; 184] 27
   = message_from_bytes ([0; 1; 0x81; 0x80; 0; 0; 0; 1; 0; 0; 0; 0;
                          1; 97; 0; 0; 1; 0; 1; 0; 0; 0; 60; 0; 4; 93; 184] ++ [216; 34])
                        (length ([0; 1; 0x81; 0x80; 0; 0; 0; 1; 0; 0; 0; 0;
                          1; 97; 0; 0; 1; 0; 1; 0; 0; 0; 60; 0; 4; 93; 184] ++ [216; 34]))).
Proof.
  split.
  - assert (Hok : message_from_bytes [0; 1; 0x81; 0x80; 0; 0; 0; 1; 0; 0; 0; 0;
                       1; 97; 0; 0; 1; 0; 1; 0; 0; 0; 60; 0; 4; 93; 184; 216; 34] 29
             = Ok (mkMessage (mkHeader 1 0x8180 0 1 0 0) []
                     [mkAnswer "a." QType.A QClass.IN 60 4 (RDATA.IPV4 [93; 184; 216; 34])] [] []))
      by (vm_compute; reflexivity).
    split; [exact Hok|].
    exact (proj1 (proj2 (proj1 no_partial_message _ _ _ Hok))).
  - split; [|exact (proj2 (proj2 no_partial_message)
                      [0; 1; 0x81; 0x80; 0; 0; 0; 1; 0; 0; 0; 0;
                       1; 97; 0; 0; 1; 0; 1; 0; 0; 0; 60; 0; 4; 93; 184] [216; 34])].
    split; [cbn; lia|]. split; [lia|].
    apply (proj1 (proj2 no_partial_message)); cbn; lia.
Defined.

Lemma header_decode_verbatim_witness :
  (0 <= 0x1234 < 65536 /\ 0 <= 0x0000 < 65536) /\
  message_from_bytes (write_u16 0x1234 ++ write_u16 0x0000 ++ [0; 0; 0; 0; 0; 0; 0; 0]) 12
  = Ok (mkMessage (mkHeader 0x1234 0x0000 0 0 0 0) [] [] [] []).
Proof.
  split; [split; lia|].
  apply (proj2 header_decode_verbatim); lia.
Defined.

(** ** Name length on encoding *)

(** A label of [n] letters ['a']. *)
Fixpoint a_label (n : nat) : string :=
  match n with
  | O => EmptyString
  | S k => String "a" (a_label k)
  end.

(** C8 (counterexample): a 64-byte label is encoded without error, with the
    length byte 64. *)
Lemma label_64_encoded :
  exists bs, encode_query 0 (a_label 64) "A" "IN" = Ok bs /\ nth 12 bs 0 = 64.
Proof. eexists. split; reflexivity. Qed.

(** C8 (amended): with recognised mnemonics, encoding a query never fails
    because of the name: every piece of [split('.')] of the trimmed name
    is written as its length modulo 256 and its bytes, then one zero byte,
    with no bound on a label or on the whole name. *)
Theorem query_name_unchecked (rid : Z) (domain qt qc : string)
        (t : QType.QType) (c : QClass.QClass) :
  QType.from_str qt = Ok t -> QClass.from_str qc = Ok c ->
  encode_query rid domain qt qc
  = Ok (header_to_bytes (create_query_header rid)
        ++ flat_map (fun l => Z.of_nat (String.length l) mod 256 :: as_bytes l)
                    (split_dot (trim domain))
        ++ [0] ++ QType.to_bytes t ++ QClass.to_bytes c).
Proof.
  intros Ht Hc.
  unfold encode_query, create_query, create_query_question. rewrite Ht, Hc.
  unfold message_to_bytes. cbn [header question flat_map].
  unfold question_to_bytes, qname_to_bytes. cbn [qname qtype qclass].
  rewrite ?app_nil_r, <- ?app_assoc. f_equal. f_equal. f_equal.
  apply flat_map_ext. intros l. unfold label_to_bytes.
  change 255 with (Z.ones 8). rewrite Z.land_ones by lia. reflexivity.
Qed.

Lemma query_name_unchecked_witness :
  (QType.from_str "A" = Ok QType.A /\ QClass.from_str "IN" = Ok QClass.IN) /\
  encode_query 0 (a_label 64) "A" "IN"
  = Ok (header_to_bytes (create_query_header 0)
        ++ flat_map (fun l => Z.of_nat (String.length l) mod 256 :: as_bytes l)
                    (split_dot (trim (a_label 64)))
        ++ [0] ++ QType.to_bytes QType.A ++ QClass.to_bytes QClass.IN).
Proof.
  split; [split; reflexivity|].
  apply query_name_unchecked; reflexivity.
Defined.

(** ** Compression pointers point backward *)

(** The compression table only holds offsets before the cursor: with the
    cursor at absolute offset [len - length cursor], every registered
    offset is smaller. *)
Definition table_behind (len : nat) (st : dstate) : Prop :=
  (length (cursor st) <= len)%nat /\
  forall k v, nodes st !! k = Some v -> (k < len - length (cursor st))%nat.

Definition preserves (len : nat) {A} (m : M A) : Prop :=
  forall st a st', table_behind len st -> m st = Ok (a, st') -> table_behind len st'.

Create HintDb behind.

Lemma preserves_ret (len : nat) {A} (a : A) : preserves len (ret a).
Proof. intros st a' st' H Hok. injection Hok as _ <-. exact H. Qed.

Lemma preserves_throw (len : nat) {A} (e : error) : preserves len (@throw A e).
Proof. intros st a st' _ Hok. discriminate. Qed.

Lemma preserves_fail (len : nat) {A} (p : panic) : preserves len (@fail A p).
Proof. intros st a st' _ Hok. discriminate. Qed.

Lemma preserves_lift (len : nat) {A} (r : outcome A) : preserves len (lift r).
Proof. intros st a st' H Hok. destruct r; cbn in Hok; try discriminate. injection Hok as _ <-. exact H. Qed.

Lemma preserves_remaining (len : nat) : preserves len remaining.
Proof. intros st a st' H Hok. injection Hok as _ <-. exact H. Qed.

Lemma preserves_get_u8 (len : nat) : preserves len get_u8.
Proof.
  intros [[|b r] nds hp] a st' [Hle Hk] Hok; cbn in *; [discriminate|].
  injection Hok as _ <-. split; cbn; [lia|]. intros k v Hkv. specialize (Hk k v Hkv). lia.
Qed.

Lemma preserves_bind (len : nat) {A B} (m : M A) (k : A -> M B) :
  preserves len m -> (forall a, preserves len (k a)) -> preserves len (bind m k).
Proof.
  intros Hm Hk st b st' H Hok. unfold bind in Hok.
  destruct (m st) as [[a st1]| | |] eqn:E; try discriminate.
  eapply Hk; [eapply Hm; eauto | exact Hok].
Qed.

Lemma preserves_get_u16 (len : nat) : preserves len get_u16.
Proof.
  unfold get_u16. apply preserves_bind; [apply preserves_get_u8|intros].
  apply preserves_bind; [apply preserves_get_u8|intros]. apply preserves_ret.
Qed.

Lemma preserves_get_u32 (len : nat) : preserves len get_u32.
Proof.
  unfold get_u32. apply preserves_bind; [apply preserves_get_u16|intros].
  apply preserves_bind; [apply preserves_get_u16|intros]. apply preserves_ret.
Qed.

Lemma preserves_get_bytes (len : nat) (n : nat) : preserves len (get_bytes n).
Proof.
  induction n as [|n IH]; cbn; [apply preserves_ret|].
  apply preserves_bind; [apply preserves_get_u8|intros].
  apply preserves_bind; [exact IH|intros]. apply preserves_ret.
Qed.

Lemma preserves_get_full_label (len : nat) (n : nat) : preserves len (get_full_label n).
Proof.
  intros st a st' H Hok. unfold get_full_label in Hok.
  destruct (full_label_fuel _ _ _); [|discriminate]. injection Hok as _ <-. exact H.
Qed.

Global Hint Resolve preserves_ret preserves_throw preserves_fail preserves_lift
  preserves_remaining preserves_get_u8 preserves_get_u16 preserves_get_u32
  preserves_get_bytes preserves_get_full_label : behind.

(** One turn of the loop, started at the cursor's offset, keeps the table
    behind the cursor, and a continuing turn hands the new cursor offset to
    the next turn. *)
Lemma read_label_body_behind (len : nat) (head prev : option nat) (st : dstate)
      (s : step) (st' : dstate) :
  table_behind len st ->
  read_label_body (len - length (cursor st)) head prev st = Ok (s, st') ->
  table_behind len st' /\
  (forall i' h' p', s = Continue i' h' p' -> i' = (len - length (cursor st'))%nat).
Proof.
  destruct st as [[|octet r] nds hp]; [discriminate|].
  intros [Hle Hk]. cbn [cursor nodes length] in Hle, Hk |- *.
  rewrite read_label_body_eq. intros Hok.
  destruct (Z.land octet 0xC0 =? 0xC0).
  - destruct r as [|lower r']; [discriminate|].
    destruct (nds !! _) as [n|]; [|discriminate].
    injection Hok as <- <-. split; [|discriminate].
    split; cbn in *; [lia|]. intros k v Hkv. specialize (Hk k v Hkv). lia.
  - destruct (Z.land octet 0x3F =? 0).
    + injection Hok as <- <-. split; [|discriminate].
      split; cbn; [lia|]. intros k v Hkv. specialize (Hk k v Hkv). lia.
    + destruct (Nat.leb_spec (Z.to_nat (Z.land octet 0x3F)) (length r)) as [HL|]; [|discriminate].
      injection Hok as <- <-. unfold table_behind. cbn [cursor nodes]. rewrite !length_drop.
      split.
      * split; [lia|]. intros k v Hkv.
        destruct (decide (k = (len - S (length r))%nat)) as [->|Hne]; [lia|].
        rewrite lookup_insert_ne in Hkv by congruence. specialize (Hk k v Hkv). lia.
      * intros i' h' p' Heq. injection Heq as <- _ _. lia.
Qed.

Lemma read_label_loop_behind (len : nat) (f : nat) (head prev : option nat)
      (st : dstate) (h : option nat) (st' : dstate) :
  table_behind len st ->
  read_label_loop f (len - length (cursor st)) head prev st = Ok (h, st') ->
  table_behind len st'.
Proof.
  revert head prev st; induction f as [|f IH]; intros head prev st H Hok; [discriminate|].
  cbn [read_label_loop] in Hok. unfold bind at 1 in Hok.
  destruct (read_label_body _ head prev st) as [[s st1]| | |] eqn:Hb; try discriminate.
  destruct (read_label_body_behind len head prev st s st1 H Hb) as [H1 Hi].
  destruct s as [h'|i' h' p'].
  - injection Hok as _ <-. exact H1.
  - rewrite (Hi i' h' p' eq_refl) in Hok. eapply IH; eauto.
Qed.

Lemma read_label_behind (len : nat) (st : dstate) (s : string) (st' : dstate) :
  table_behind len st ->
  read_label (len - length (cursor st)) st = Ok (s, st') -> table_behind len st'.
Proof.
  intros H Hok. unfold read_label, bind in Hok.
  destruct (read_label_loop _ _ None None st) as [[h st1]| | |] eqn:Hl; try discriminate.
  pose proof (read_label_loop_behind len _ None None st h st1 H Hl) as H1.
  destruct h as [n|]; [|discriminate].
  eapply preserves_get_full_label; eauto.
Qed.

(** [let index = len - buf.remaining(); read_label(buf, index, nodes)?; ...] *)
Lemma preserves_read_label_here (len : nat) {B} (k : string -> M B) :
  (forall s, preserves len (k s)) ->
  preserves len (r <- remaining ;; s <- read_label (len - r) ;; k s).
Proof.
  intros Hk st b st' H Hok. unfold bind at 1, remaining in Hok.
  unfold bind in Hok.
  destruct (read_label _ st) as [[s st1]| | |] eqn:Hr; try discriminate.
  eapply Hk; [eapply read_label_behind; eauto | exact Hok].
Qed.

Ltac behind :=
  repeat match goal with
  | |- preserves _ (bind remaining (fun r => bind (read_label _) _)) =>
      apply preserves_read_label_here; intros
  | |- preserves _ (bind _ _) => apply preserves_bind; [|intros]
  | |- preserves _ (if ?b then _ else _) => destruct b
  | |- preserves _ (match ?x with _ => _ end) => destruct x
  | |- preserves _ _ => solve [eauto with behind]
  end.

Lemma preserves_question (len : nat) : preserves len (question_from_bytes len).
Proof. unfold question_from_bytes. cbv zeta. behind. Qed.

Lemma preserves_rdata (len : nat) (rt : QType.QType) (rdlen : Z) :
  preserves len (rdata_from_bytes len rt rdlen).
Proof. unfold rdata_from_bytes. destruct rt; behind. Qed.

Lemma preserves_answer (len : nat) : preserves len (answer_from_bytes len).
Proof.
  unfold answer_from_bytes. behind. apply preserves_rdata.
Qed.

Lemma preserves_header (len : nat) : preserves len header_from_bytes.
Proof. unfold header_from_bytes. behind. Qed.

(** C4 (amended): every compression pointer that a turn of the loop
    accepts targets a table entry, and the table only holds offsets of
    labels already read, so the target is strictly before the pointer byte;
    forward and unregistered targets are rejected (C3). The table starts
    empty in [Message::from_bytes], every decoder keeps it behind the
    cursor, and every turn of the loop starts at the cursor's offset. *)
Theorem pointer_targets_backward :
  (forall (len : nat) (head prev : option nat) (st : dstate) (octet lower : Z)
          (r : list Z) (s : step) (st' : dstate),
      table_behind len st ->
      cursor st = octet :: lower :: r -> Z.land octet 0xC0 = 0xC0 ->
      read_label_body (len - length (cursor st)) head prev st = Ok (s, st') ->
      (pointer_offset octet lower < len - length (cursor st))%nat) /\
  (forall (len : nat) (head prev : option nat) (st : dstate) (s : step) (st' : dstate),
      table_behind len st ->
      read_label_body (len - length (cursor st)) head prev st = Ok (s, st') ->
      table_behind len st' /\
      (forall i' h' p', s = Continue i' h' p' -> i' = (len - length (cursor st'))%nat)) /\
  (forall (buf : list Z) (len : nat),
      (len <= length buf)%nat -> table_behind len (mkD (take len buf) ∅ [])) /\
  (forall len : nat,
      preserves len header_from_bytes /\ preserves len (question_from_bytes len) /\
      preserves len (answer_from_bytes len)).
Proof.
  split; [|split; [|split]].
  - intros len head prev [c nds hp] octet lower r s st' [Hle Hk] Hc Hflag Hok.
    cbn [cursor nodes] in *. subst c. rewrite read_label_body_eq, Hflag, Z.eqb_refl in Hok.
    destruct (nds !! pointer_offset octet lower) as [n|] eqn:Hn; [|discriminate].
    exact (Hk _ _ Hn).
  - exact read_label_body_behind.
  - intros buf len Hle. split; cbn; [rewrite length_take; lia|].
    intros k v Hkv. rewrite lookup_empty in Hkv. discriminate.
  - intros len. split; [apply preserves_header|split; [apply preserves_question|apply preserves_answer]].
Qed.

Lemma pointer_targets_backward_witness :
  table_behind 17 (mkD [0xC0; 12] {[12%nat := 0%nat]} [mkNode "a" None]) /\
  (pointer_offset 0xC0 12 < 17 - length [0xC0; 12])%nat /\
  (table_behind 17 (mkD [] {[12%nat := 0%nat]} [mkNode "a" None]) /\
   forall i' h' p', Break (Some 0%nat) = Continue i' h' p' -> i' = (17 - length (@nil Z))%nat) /\
  ((17 <= length (repeat 0 17))%nat /\ table_behind 17 (mkD (take 17 (repeat 0 17)) ∅ [])).
Proof.
  assert (Hb : table_behind 17 (mkD [0xC0; 12] {[12%nat := 0%nat]} [mkNode "a" None])).
  { split; cbn; [lia|]. intros k v Hkv.
    apply lookup_singleton_Some in Hkv as [<- _]. lia. }
  assert (Hok : read_label_body (17 - length [0xC0; 12]) None None
                  (mkD [0xC0; 12] {[12%nat := 0%nat]} [mkNode "a" None])
                = Ok (Break (Some 0%nat), mkD [] {[12%nat := 0%nat]} [mkNode "a" None]))
    by reflexivity.
  split; [exact Hb|]. split; [|split].
  - exact (proj1 pointer_targets_backward 17%nat None None _ 0xC0 12 [] _ _ Hb eq_refl eq_refl Hok).
  - exact (proj1 (proj2 pointer_targets_backward) 17%nat None None _ _ _ Hb Hok).
  - split; [cbn; lia|]. apply (proj1 (proj2 (proj2 pointer_targets_backward))). cbn; lia.
Defined.

(** C4 (counterexample): the name [3 'abc'] at offset 12 followed by a
    pointer to offset 12 (its own start). The loop accepts the pointer and
    links the node of ['abc'] to itself; [Node::get_full_label] then has no
    result (the recursion does not end), so decoding does not terminate. *)
Lemma self_pointer_cycle :
  (exists st', read_label_loop 7 12 None None (mkD [3; 97; 98; 99; 0xC0; 12] ∅ [])
               = Ok (Some 0%nat, st') /\
               heap st' = [mkNode "abc" (Some 0%nat)]) /\
  ~ (exists s, full_label [mkNode "abc" (Some 0%nat)] 0 s) /\
  read_label 12 (mkD [3; 97; 98; 99; 0xC0; 12] ∅ []) = Diverge /\
  message_from_bytes [0; 1; 1; 0; 0; 1; 0; 0; 0; 0; 0; 0;
                      3; 97; 98; 99; 0xC0; 12; 0; 1; 0; 1] 22 = Diverge.
Proof.
  split; [eexists; split; reflexivity|]. split; [|split; vm_compute; reflexivity].
  intros [s Hs]. apply (full_label_acyclic _ _ _ Hs).
  apply tc_once. eexists. split; reflexivity.
Qed.

(** ** Round trip of a query *)

(** A label that the decoder reads as one label: 1 to 63 bytes. *)
Definition label_ok (l : string) : Prop := (1 <= String.length l <= 63)%nat.

(** Labels joined the way [Node::get_full_label] joins them: each one
    followed by a dot. *)
Fixpoint dotted (ls : list string) : string :=
  match ls with
  | [] => EmptyString
  | l :: ls' => (l ++ "." ++ dotted ls')%string
  end.

Lemma append_cons (c : ascii) (s t : string) :
  (String c s ++ t)%string = String c (s ++ t).
Proof. reflexivity. Qed.

Lemma append_empty_r (s : string) : (s ++ "")%string = s.
Proof. induction s as [|c s IH]; [reflexivity|]. rewrite append_cons, IH. reflexivity. Qed.

Lemma split_dot_nonempty (s : string) : split_dot s <> [].
Proof.
  destruct s as [|c r]; cbn; [discriminate|].
  destruct (Ascii.eqb c "."); [discriminate|]. destruct (split_dot r); discriminate.
Qed.

Lemma dotted_split_dot (s : string) : dotted (split_dot s) = (s ++ ".")%string.
Proof.
  induction s as [|c r IH]; [reflexivity|].
  rewrite append_cons. cbn [split_dot].
  destruct (Ascii.eqb_spec c ".") as [->|Hc].
  - cbn [dotted]. rewrite IH. reflexivity.
  - pose proof (split_dot_nonempty r) as Hne.
    destruct (split_dot r) as [|p ps] eqn:E; [contradiction|].
    cbn [dotted] in IH |- *. rewrite append_cons, IH. reflexivity.
Qed.

(** A label's bytes as [read_label] reads them back: [get_u8() as char]
    for each byte. *)
Definition read_back (s : string) : string := string_of_bytes (as_bytes s).

(** Every byte below [0x80]: the ASCII strings. *)
Fixpoint is_ascii_str (s : string) : bool :=
  match s with
  | EmptyString => true
  | String c r => (nat_of_ascii c <? 128)%nat && is_ascii_str r
  end.

(** The bytes from [0x80] on. *)
Fixpoint count_high (s : string) : nat :=
  match s with
  | EmptyString => O
  | String c r => ((if (nat_of_ascii c <? 128)%nat then 0 else 1) + count_high r)%nat
  end.

Lemma push_u8_as_char_app (b : Z) (t u : string) :
  push_u8_as_char b (t ++ u) = (push_u8_as_char b t ++ u)%string.
Proof. unfold push_u8_as_char. destruct (b <? 0x80); reflexivity. Qed.

Lemma string_of_bytes_app (x y : list Z) :
  string_of_bytes (x ++ y) = (string_of_bytes x ++ string_of_bytes y)%string.
Proof.
  induction x as [|b x IH]; [reflexivity|]. cbn [app string_of_bytes].
  rewrite IH, push_u8_as_char_app. reflexivity.
Qed.

Lemma as_bytes_app (s t : string) : as_bytes (s ++ t)%string = as_bytes s ++ as_bytes t.
Proof. induction s as [|c s IH]; [reflexivity|]. rewrite append_cons. cbn [as_bytes]. rewrite IH. reflexivity. Qed.

Lemma read_back_app (s t : string) :
  read_back (s ++ t)%string = (read_back s ++ read_back t)%string.
Proof. unfold read_back. rewrite as_bytes_app, string_of_bytes_app. reflexivity. Qed.

Lemma read_back_ascii (s : string) : is_ascii_str s = true -> read_back s = s.
Proof.
  unfold read_back. induction s as [|c s IH]; [reflexivity|]. cbn [is_ascii_str].
  intros [Hc Hs]%andb_prop. apply Nat.ltb_lt in Hc. cbn [as_bytes string_of_bytes].
  rewrite IH by exact Hs. unfold push_u8_as_char, u8_of_char, char_of_u8.
  rewrite (proj2 (Z.ltb_lt _ _)) by lia. rewrite Nat2Z.id, ascii_nat_embedding. reflexivity.
Qed.

Lemma length_read_back (s : string) :
  String.length (read_back s) = (String.length s + count_high s)%nat.
Proof.
  unfold read_back. induction s as [|c s IH]; [reflexivity|].
  cbn [as_bytes string_of_bytes count_high String.length].
  unfold push_u8_as_char, u8_of_char.
  destruct (Nat.ltb_spec (nat_of_ascii c) 128) as [Hc | Hc].
  - rewrite (proj2 (Z.ltb_lt _ _)) by lia. cbn [String.length]. lia.
  - rewrite (proj2 (Z.ltb_ge _ _)) by lia. cbn [String.length]. lia.
Qed.

(** [read_back] keeps a string exactly when it is ASCII. *)
Lemma read_back_id_iff (s : string) : read_back s = s <-> is_ascii_str s = true.
Proof.
  split; [|apply read_back_ascii].
  intros Hs. assert (Hc : count_high s = O).
  { pose proof (length_read_back s) as Hl. rewrite Hs in Hl. lia. }
  clear Hs. induction s as [|c s IH]; [reflexivity|]. cbn [count_high is_ascii_str] in *.
  destruct (Nat.ltb (nat_of_ascii c) 128); [|lia]. apply IH. lia.
Qed.

Lemma dotted_read_back (ls : list string) :
  dotted (map read_back ls) = read_back (dotted ls).
Proof.
  induction ls as [|l ls IH]; [reflexivity|]. cbn [map dotted].
  rewrite IH, !read_back_app. reflexivity.
Qed.

(** The name [read_label] returns for the labels of [s]: [s] read back,
    with a trailing dot. *)
Lemma dotted_read_back_split (s : string) :
  dotted (map read_back (split_dot s)) = (read_back s ++ ".")%string.
Proof. rewrite dotted_read_back, dotted_split_dot, read_back_app. reflexivity. Qed.

Lemma length_as_bytes (s : string) : length (as_bytes s) = String.length s.
Proof. induction s as [|c s IH]; cbn; congruence. Qed.

Lemma small_octet_bits (x : Z) :
  0 <= x < 64 -> Z.land x 0xC0 = 0 /\ Z.land x 0x3F = x.
Proof.
  intros Hx.
  assert (H3F : Z.land x 0x3F = x).
  { change 0x3F with (Z.ones 6). rewrite Z.land_ones by lia. apply Z.mod_small. lia. }
  split; [|exact H3F].
  rewrite <- H3F, <- Z.land_assoc. change (Z.land 0x3F 0xC0) with 0. apply Z.land_0_r.
Qed.

Lemma length_flat_map_labels (ls : list string) (rest : list Z) :
  (length ls <= length (flat_map label_to_bytes ls ++ rest))%nat.
Proof.
  induction ls as [|l ls IH]; cbn; [lia|]. rewrite !length_app in *. cbn. lia.
Qed.

(** [chain_to H n p ls]: following [next] from [n] visits nodes labelled
    [ls] and ends at [p]. *)
Inductive chain_to (H : list node) : nat -> nat -> list string -> Prop :=
| chain_one n nd :
    H !! n = Some nd -> chain_to H n n [label nd]
| chain_cons n nd m p ls :
    H !! n = Some nd -> next nd = Some m -> chain_to H m p ls ->
    chain_to H n p (label nd :: ls).

Lemma chain_full (H : list node) (n p : nat) (ls : list string) (ndp : node) :
  chain_to H n p ls -> H !! p = Some ndp -> next ndp = None ->
  full_label H n (dotted ls).
Proof.
  induction 1 as [n nd Hn | n nd m p ls Hn Hnx Hc IH]; intros Hp Hpx.
  - cbn. rewrite append_empty_r. rewrite Hn in Hp. injection Hp as <-.
    eapply full_label_last; eassumption.
  - cbn. eapply full_label_next; eauto.
Qed.

Lemma chain_lt (H : list node) (n p : nat) (ls : list string) :
  chain_to H n p ls -> (n < length H)%nat /\ (p < length H)%nat.
Proof.
  induction 1 as [n nd Hn | n nd m p ls Hn Hnx Hc IH];
    apply lookup_lt_Some in Hn; [lia|]. destruct IH; lia.
Qed.

(** Appending a node and linking the last node of the chain to it. *)
Lemma chain_snoc (H : list node) (n p : nat) (ls : list string) (ndp : node) (l : string) :
  chain_to H n p ls -> H !! p = Some ndp -> next ndp = None ->
  chain_to (link (Some p) (length H) (H ++ [mkNode l None])) n (length H) (ls ++ [l]).
Proof.
  unfold link.
  assert (Hnew : forall q, (q < length H)%nat ->
            alter (fun nd => mkNode (label nd) (Some (length H))) q (H ++ [mkNode l None])
              !! length H = Some (mkNode l None)).
  { intros q Hq. rewrite list_lookup_alter_ne by lia.
    rewrite lookup_app_r by lia. rewrite Nat.sub_diag. reflexivity. }
  induction 1 as [n nd Hn | n nd m p ls Hn Hnx Hc IH]; intros Hp Hpx.
  - rewrite Hn in Hp. injection Hp as <-. cbn.
    pose proof (lookup_lt_Some _ _ _ Hn) as Hlt.
    apply (chain_cons _ n (mkNode (label nd) (Some (length H))) (length H)); cbn.
    + rewrite list_lookup_alter, decide_True by reflexivity.
      rewrite lookup_app_l by exact Hlt. rewrite Hn. reflexivity.
    + reflexivity.
    + apply (chain_one _ (length H) (mkNode l None)). apply Hnew. exact Hlt.
  - cbn. apply (chain_cons _ n nd m).
    + rewrite list_lookup_alter_ne.
      * rewrite lookup_app_l by (apply lookup_lt_Some in Hn; exact Hn). exact Hn.
      * intros ->. congruence.
    + exact Hnx.
    + apply IH; assumption.
Qed.

Lemma link_lookup_new (H : list node) (prev : option nat) (l : string) :
  (forall p, prev = Some p -> (p < length H)%nat) ->
  link prev (length H) (H ++ [mkNode l None]) !! length H = Some (mkNode l None).
Proof.
  intros Hp. destruct prev as [p|]; cbn.
  - rewrite list_lookup_alter_ne by (specialize (Hp p eq_refl); lia).
    rewrite lookup_app_r, Nat.sub_diag by lia. reflexivity.
  - rewrite lookup_app_r, Nat.sub_diag by lia. reflexivity.
Qed.

(** What the loop of [read_label] has built after reading the labels
    [done]: nothing yet, or a chain from [head] to [prev] whose last node
    has no [next]. *)
Definition loop_inv (H : list node) (head prev : option nat) (done : list string) : Prop :=
  match done with
  | [] => head = None /\ prev = None
  | _ :: _ => exists hd p ndp, head = Some hd /\ prev = Some p /\
               chain_to H hd p done /\ H !! p = Some ndp /\ next ndp = None
  end.

Lemma loop_inv_snoc (H : list node) (head prev : option nat) (done : list string) (l : string) :
  loop_inv H head prev done ->
  loop_inv (link prev (length H) (H ++ [mkNode l None]))
           (match head with None => Some (length H) | Some _ => head end)
           (Some (length H)) (done ++ [l]).
Proof.
  destruct done as [|d ds]; cbn [loop_inv app].
  - intros [-> ->]. exists (length H), (length H), (mkNode l None).
    repeat split.
    + apply (chain_one _ _ (mkNode l None)). apply link_lookup_new. discriminate.
    + apply link_lookup_new. discriminate.
  - intros (hd & p & ndp & -> & -> & Hc & Hp & Hpx).
    exists hd, (length H), (mkNode l None). repeat split.
    + exact (chain_snoc _ _ _ (d :: ds) ndp l Hc Hp Hpx).
    + apply link_lookup_new. intros q [= <-]. exact (lookup_lt_Some _ _ _ Hp).
Qed.

(** The loop of [read_label] on the bytes [Question::to_bytes] writes for
    the labels [ls]: it reads them all, builds their chain, and stops at
    the zero byte. *)
Lemma loop_labels (ls : list string) :
  forall (f index : nat) (head prev : option nat) (done : list string)
         (rest : list Z) (nds : gmap nat nat) (H : list node),
  Forall label_ok ls -> loop_inv H head prev done -> (length ls < f)%nat ->
  exists h' p' nds' H',
    read_label_loop f index head prev (mkD (flat_map label_to_bytes ls ++ 0 :: rest) nds H)
    = Ok (h', mkD rest nds' H') /\ loop_inv H' h' p' (done ++ map read_back ls).
Proof.
  induction ls as [|l ls IH];
    intros f index head prev done rest nds H Hok Hinv Hf;
    (destruct f as [|f]; [cbn in Hf; lia|]).
  - exists head, prev, nds, H. split; [reflexivity|]. rewrite app_nil_r. exact Hinv.
  - apply Forall_cons in Hok as [[HL1 HL2] Hok].
    assert (Hoct : Z.land (Z.of_nat (String.length l)) 255 = Z.of_nat (String.length l)).
    { change 255 with (Z.ones 8). rewrite Z.land_ones by lia. apply Z.mod_small. lia. }
    destruct (small_octet_bits (Z.of_nat (String.length l))) as [Hc0 H3f]; [lia|].
    cbn [flat_map]. rewrite <- app_assoc. unfold label_to_bytes at 1.
    rewrite Hoct. cbn [app read_label_loop]. unfold bind at 1.
    rewrite read_label_body_eq, Hc0, H3f, Nat2Z.id.
    replace (0 =? 0xC0) with false by reflexivity.
    rewrite (proj2 (Z.eqb_neq _ _)) by lia.
    rewrite (proj2 (Nat.leb_le _ _))
      by (rewrite length_app, length_as_bytes; lia).
    cbv beta iota.
    rewrite <- (length_as_bytes l), take_app_length, drop_app_length.
    fold (read_back l).
    pose proof (loop_inv_snoc H head prev done (read_back l) Hinv) as Hinv'.
    destruct (IH f (index + 1 + length (as_bytes l))%nat _ _ _ rest
                 (<[index := length H]> nds) _ Hok Hinv') as (h' & p' & nds' & H' & Hl & Hi);
      [cbn in Hf; lia|].
    exists h', p', nds', H'. split; [exact Hl|].
    rewrite <- app_assoc in Hi. exact Hi.
Qed.

(** [read_label] on the bytes of a name of well-formed labels returns the
    labels, each followed by a dot. *)
Lemma read_label_labels (ls : list string) (index : nat) (rest : list Z)
      (nds : gmap nat nat) (H : list node) :
  ls <> [] -> Forall label_ok ls ->
  exists nds' H',
    read_label index (mkD (flat_map label_to_bytes ls ++ 0 :: rest) nds H)
    = Ok (dotted (map read_back ls), mkD rest nds' H').
Proof.
  intros Hne Hok. unfold read_label. cbn [cursor].
  destruct (loop_labels ls (S (length (flat_map label_to_bytes ls ++ 0 :: rest)))
              index None None [] rest nds H Hok (conj eq_refl eq_refl))
    as (h' & p' & nds' & H' & Hl & Hinv);
    [pose proof (length_flat_map_labels ls (0 :: rest)); lia|].
  unfold bind at 1. rewrite Hl.
  destruct ls as [|l ls]; [contradiction|]. cbn [app loop_inv] in Hinv.
  destruct Hinv as (hd & p & ndp & -> & -> & Hc & Hp & Hpx).
  exists nds', H'. apply get_full_label_ok. cbn [heap].
  exact (chain_full _ _ _ _ _ Hc Hp Hpx).
Qed.

Lemma bind_ok {A B} (m : M A) (k : A -> M B) (st st' : dstate) (a : A) :
  m st = Ok (a, st') -> bind m k st = k a st'.
Proof. intros H. unfold bind. rewrite H. reflexivity. Qed.

Lemma qtype_u16_roundtrip (t : QType.QType) :
  0 <= QType.to_u16 t < 65536 /\ QType.from_u16 (QType.to_u16 t) = Ok t.
Proof. destruct t; split; try reflexivity; cbn; lia. Qed.

Lemma qclass_u16_roundtrip (c : QClass.QClass) :
  0 <= QClass.to_u16 c < 65536 /\ QClass.from_u16 (QClass.to_u16 c) = Ok c.
Proof. destruct c; split; try reflexivity; cbn; lia. Qed.

(** [Question::from_bytes] reads back what [Question::to_bytes] wrote, the
    name gaining a trailing dot. *)
Lemma question_roundtrip (len : nat) (q : Question) (rest : list Z)
      (nds : gmap nat nat) (H : list node) :
  Forall label_ok (split_dot (qname q)) ->
  exists nds' H',
    question_from_bytes len (mkD (question_to_bytes q ++ rest) nds H)
    = Ok (mkQuestion (read_back (qname q) ++ ".") (qtype q) (qclass q), mkD rest nds' H').
Proof.
  destruct q as [t qt qc]; cbn [qname qtype qclass]; intros Hok.
  unfold question_from_bytes, question_to_bytes, qname_to_bytes. cbn [qname qtype qclass].
  rewrite <- !app_assoc. cbn [app].
  erewrite bind_ok by (unfold remaining; reflexivity). cbv beta. cbn [cursor].
  match goal with |- context [read_label ?i] =>
    destruct (read_label_labels (split_dot t) i
                (QType.to_bytes qt ++ QClass.to_bytes qc ++ rest) nds H
                (split_dot_nonempty t) Hok) as (nds' & H' & Hr) end.
  exists nds', H'.
  erewrite bind_ok by exact Hr. rewrite dotted_read_back_split.
  destruct (qtype_u16_roundtrip qt) as [Ht1 Ht2].
  destruct (qclass_u16_roundtrip qc) as [Hc1 Hc2].
  unfold QType.to_bytes, QClass.to_bytes.
  erewrite bind_ok by (apply get_u16_write; exact Ht1).
  erewrite bind_ok by (unfold lift; rewrite Ht2; reflexivity).
  erewrite bind_ok by (apply get_u16_write; exact Hc1).
  erewrite bind_ok by (unfold lift; rewrite Hc2; reflexivity).
  reflexivity.
Qed.

(** [Header::from_bytes] reads back what [Header::to_bytes] wrote. *)
Lemma header_roundtrip (h : Header) (rest : list Z) (nds : gmap nat nat) (hp : list node) :
  0 <= id h < 65536 -> 0 <= flags h < 65536 -> 0 <= qdcount h < 65536 ->
  0 <= ancount h < 65536 -> 0 <= nscount h < 65536 -> 0 <= arcount h < 65536 ->
  header_from_bytes (mkD (header_to_bytes h ++ rest) nds hp) = Ok (h, mkD rest nds hp).
Proof.
  destruct h as [i f qd an ns ar]; cbn [id flags qdcount ancount nscount arcount].
  intros Hi Hf Hqd Han Hns Har.
  unfold header_from_bytes, header_to_bytes; cbn [id flags qdcount ancount nscount arcount].
  rewrite <- !app_assoc.
  do 6 (erewrite bind_ok by (apply get_u16_write; assumption); cbv beta).
  reflexivity.
Qed.

Lemma create_query_shape (rid : Z) (domain qt qc : string) (m : Message) :
  create_query rid domain qt qc = Ok m ->
  exists t c, m = mkMessage (create_query_header rid) [mkQuestion (trim domain) t c] [] [] [].
Proof.
  unfold create_query, create_query_question.
  destruct (QType.from_str qt) as [t| | |]; try discriminate.
  destruct (QClass.from_str qc) as [c| | |]; try discriminate.
  intros [= <-]. exists t, c. reflexivity.
Qed.

(** The zero byte ends the loop. *)
Lemma loop_step_zero (f index : nat) (head prev : option nat) (r : list Z)
      (nds : gmap nat nat) (H : list node) :
  read_label_loop (S f) index head prev (mkD (0 :: r) nds H) = Ok (head, mkD r nds H).
Proof. reflexivity. Qed.

Lemma bind_err {A B} (m : M A) (k : A -> M B) (st : dstate) (e : error) :
  m st = Err e -> bind m k st = Err e.
Proof. intros H. unfold bind. rewrite H. reflexivity. Qed.

Lemma read_label_root (index : nat) (rest : list Z) (nds : gmap nat nat) (H : list node) :
  read_label index (mkD (0 :: rest) nds H) = Err (ParseLabelError "No head detected").
Proof.
  unfold read_label. cbn [cursor length].
  erewrite bind_ok by (apply (loop_step_zero _ index None None rest nds H)). reflexivity.
Qed.

Lemma split_dot_snoc_dot (d : string) :
  split_dot (d ++ ".") = split_dot d ++ [EmptyString].
Proof.
  induction d as [|c r IH]; [reflexivity|].
  rewrite append_cons. cbn [split_dot]. rewrite IH.
  destruct (Ascii.eqb c "."); [reflexivity|].
  pose proof (split_dot_nonempty r) as Hne.
  destruct (split_dot r) as [|p ps]; [contradiction|]. reflexivity.
Qed.

(** Every supported type code is below 256: its high byte is zero. *)
Lemma qtype_to_bytes_high (t : QType.QType) : exists lo, QType.to_bytes t = [0; lo].
Proof. destruct t; eexists; reflexivity. Qed.

(** Decoding the bytes of a query message comes down to decoding its
    question after the 12 header bytes. *)
Lemma query_message_decode (rid : Z) (q : Question) :
  0 <= rid < 65536 ->
  let bs := message_to_bytes (mkMessage (create_query_header rid) [q] [] [] []) in
  message_from_bytes bs (length bs)
  = match question_from_bytes (length bs) (mkD (question_to_bytes q) ∅ []) with
    | Ok (q', _) => Ok (mkMessage (create_query_header rid) [q'] [] [] [])
    | Err e => Err e
    | Panic p => Panic p
    | Diverge => Diverge
    end.
Proof.
  intros Hrid bs. unfold message_from_bytes. rewrite Nat.leb_refl, take_ge by lia.
  set (len := length bs). unfold bs, message_to_bytes. cbn [header question flat_map].
  rewrite app_nil_r. unfold message_body.
  erewrite bind_ok
    by (apply header_roundtrip; unfold create_query_header;
        cbn [id flags qdcount ancount nscount arcount];
        try change (Z.lor 0 (Z.shiftl 1 8)) with 256; lia).
  cbv beta. cbn [create_query_header qdcount ancount nscount arcount].
  change (Z.to_nat 1) with 1%nat. change (Z.to_nat 0) with 0%nat. cbn [repeatM].
  unfold bind at 1 2.
  destruct (question_from_bytes len (mkD (question_to_bytes q) ∅ [])) as [[q' st']| | |];
    reflexivity.
Qed.

(** Claim C1 fails in two ways: a domain ending in a dot is encoded but its
    bytes do not decode (the empty last label is written as a zero byte, the
    name ends there, and the next zero byte is read as the type); and a
    domain with a byte from [0x80] on is read back with each such byte
    widened to a character of its own ([é], the bytes [C3 A9], becomes
    [Ã©]). *)
Example query_roundtrip_fails :
  (exists bs, encode_query 0 "example.com." "A" "IN" = Ok bs /\
              message_from_bytes bs (length bs) = Err (ParseQTypeCode 0)) /\
  (exists m m', create_query 0 "é.com" "A" "IN" = Ok m /\
     message_from_bytes (message_to_bytes m) (length (message_to_bytes m)) = Ok m' /\
     map qname (question m) = ["é.com"%string] /\
     map qname (question m') = ["Ã©.com."%string]).
Proof.
  split.
  - eexists. split; [reflexivity | vm_compute; reflexivity].
  - eexists. eexists. split; [reflexivity|]. split; [vm_compute; reflexivity|].
    split; reflexivity.
Qed.

(** Claim C1 (amended). For a u16 id and supported type and class mnemonics,
    [create_query] builds a single question named by the trimmed domain.
    When the trimmed domain splits on '.' into labels of 1 to 63 bytes,
    decoding the bytes gives back the same header (id included) and the
    question with the same type and class, named by the trimmed domain read
    back byte by byte ([get_u8() as char]) followed by a dot; the read-back
    name is the domain itself exactly when the domain is ASCII. A trimmed
    domain ending in '.' (after labels of 1 to 63 bytes) fails to decode
    with the type code 0, and one starting with '.' fails with "No head
    detected". *)
Theorem query_roundtrip (rid : Z) (domain qt qc : string) (m : Message) :
  0 <= rid < 65536 ->
  create_query rid domain qt qc = Ok m ->
  map qname (question m) = [trim domain] /\
  (Forall label_ok (split_dot (trim domain)) ->
   message_from_bytes (message_to_bytes m) (length (message_to_bytes m))
   = Ok (mkMessage (header m)
           (map (fun q => mkQuestion (read_back (qname q) ++ ".") (qtype q) (qclass q))
                (question m))
           [] [] [])) /\
  (read_back (trim domain) = trim domain <-> is_ascii_str (trim domain) = true) /\
  (forall d, trim domain = (d ++ ".")%string -> Forall label_ok (split_dot d) ->
   message_from_bytes (message_to_bytes m) (length (message_to_bytes m))
   = Err (ParseQTypeCode 0)) /\
  (forall d, trim domain = String "." d ->
   message_from_bytes (message_to_bytes m) (length (message_to_bytes m))
   = Err (ParseLabelError "No head detected")).
Proof.
  intros Hrid Hq.
  destruct (create_query_shape _ _ _ _ _ Hq) as (t & c & ->).
  pose proof (query_message_decode rid (mkQuestion (trim domain) t c) Hrid) as Hd.
  cbv zeta in Hd. cbn [header question map qname qtype qclass].
  set (bs := message_to_bytes _) in *.
  split; [reflexivity|]. split; [|split; [apply read_back_id_iff|split]].
  - intros Hok. rewrite Hd.
    destruct (question_roundtrip (length bs) (mkQuestion (trim domain) t c) [] ∅ [] Hok)
      as (nds' & H' & Hqr).
    rewrite app_nil_r in Hqr. rewrite Hqr. reflexivity.
  - intros d Htrim Hok. rewrite Hd.
    unfold question_from_bytes, question_to_bytes, qname_to_bytes. cbn [qname qtype qclass].
    rewrite Htrim, split_dot_snoc_dot, flat_map_app.
    destruct (qtype_to_bytes_high t) as [lo ->].
    cbn [flat_map label_to_bytes String.length as_bytes].
    change (Z.land (Z.of_nat 0) 255) with 0.
    rewrite <- !app_assoc. cbn [app].
    erewrite bind_ok by (unfold remaining; reflexivity). cbv beta. cbn [cursor].
    match goal with |- context [read_label ?i] =>
      destruct (read_label_labels (split_dot d) i (0 :: 0 :: lo :: QClass.to_bytes c)
                  ∅ [] (split_dot_nonempty d) Hok) as (nds' & H' & Hr) end.
    erewrite bind_ok by exact Hr. reflexivity.
  - intros d Htrim. rewrite Hd.
    unfold question_from_bytes, question_to_bytes, qname_to_bytes. cbn [qname qtype qclass].
    rewrite Htrim. cbn [split_dot Ascii.eqb Bool.eqb flat_map label_to_bytes String.length as_bytes].
    change (Z.land (Z.of_nat 0) 255) with 0. rewrite <- !app_assoc. cbn [app].
    erewrite bind_ok by (unfold remaining; reflexivity). cbv beta.
    rewrite (bind_err _ _ _ (ParseLabelError "No head detected")) by apply read_label_root.
    reflexivity.
Qed.

Lemma query_roundtrip_witness :
  (0 <= 0x1234 < 65536 /\
   create_query 0x1234 " example.com" "A" "IN"
   = Ok (mkMessage (create_query_header 0x1234)
                   [mkQuestion "example.com" QType.A QClass.IN] [] [] [])) /\
  (map qname (question (mkMessage (create_query_header 0x1234)
                          [mkQuestion "example.com" QType.A QClass.IN] [] [] []))
   = [trim " example.com"] /\
   (Forall label_ok (split_dot (trim " example.com")) ->
    message_from_bytes
      (message_to_bytes (mkMessage (create_query_header 0x1234)
                           [mkQuestion "example.com" QType.A QClass.IN] [] [] []))
      (length (message_to_bytes (mkMessage (create_query_header 0x1234)
                           [mkQuestion "example.com" QType.A QClass.IN] [] [] [])))
    = Ok (mkMessage (create_query_header 0x1234)
                    [mkQuestion (read_back "example.com" ++ ".") QType.A QClass.IN] [] [] [])) /\
   (read_back (trim " example.com") = trim " example.com" <->
    is_ascii_str (trim " example.com") = true) /\
   (forall d, trim " example.com" = (d ++ ".")%string -> Forall label_ok (split_dot d) ->
    message_from_bytes
      (message_to_bytes (mkMessage (create_query_header 0x1234)
                           [mkQuestion "example.com" QType.A QClass.IN] [] [] []))
      (length (message_to_bytes (mkMessage (create_query_header 0x1234)
                           [mkQuestion "example.com" QType.A QClass.IN] [] [] [])))
    = Err (ParseQTypeCode 0)) /\
   (forall d, trim " example.com" = String "." d ->
    message_from_bytes
      (message_to_bytes (mkMessage (create_query_header 0x1234)
                           [mkQuestion "example.com" QType.A QClass.IN] [] [] []))
      (length (message_to_bytes (mkMessage (create_query_header 0x1234)
                           [mkQuestion "example.com" QType.A QClass.IN] [] [] [])))
    = Err (ParseLabelError "No head detected"))).
Proof.
  split; [split; [lia | reflexivity]|].
  apply (query_roundtrip 0x1234 " example.com" "A" "IN"); [lia | reflexivity].
Defined.

(** ** Further properties of the decoder *)

(** One turn of the loop on a label as [Question::to_bytes] writes it. *)
Lemma loop_step_label (f index : nat) (head prev : option nat) (l : string)
      (r : list Z) (nds : gmap nat nat) (H : list node) :
  label_ok l ->
  read_label_loop (S f) index head prev (mkD (label_to_bytes l ++ r) nds H) =
  read_label_loop f (index + 1 + String.length l)
    (match head with None => Some (length H) | Some _ => head end) (Some (length H))
    (mkD r (<[index := length H]> nds) (link prev (length H) (H ++ [mkNode (read_back l) None]))).
Proof.
  intros [HL1 HL2].
  assert (Hoct : Z.land (Z.of_nat (String.length l)) 255 = Z.of_nat (String.length l)).
  { change 255 with (Z.ones 8). rewrite Z.land_ones by lia. apply Z.mod_small. lia. }
  destruct (small_octet_bits (Z.of_nat (String.length l))) as [Hc0 H3f]; [lia|].
  unfold label_to_bytes. rewrite Hoct. cbn [app read_label_loop]. unfold bind at 1.
  rewrite read_label_body_eq, Hc0, H3f, Nat2Z.id.
  replace (0 =? 0xC0) with false by reflexivity.
  rewrite (proj2 (Z.eqb_neq _ _)) by lia.
  rewrite (proj2 (Nat.leb_le _ _)) by (rewrite length_app, length_as_bytes; lia).
  cbv beta iota.
  rewrite <- (length_as_bytes l), take_app_length, drop_app_length.
  reflexivity.
Qed.

(** What reading the labels [ls] does to the table: entries below [index]
    are kept, a head already found stays, and the first label read is
    registered at [index] as the head. *)
Lemma loop_labels_table (ls : list string) :
  forall (f index : nat) (head prev : option nat) (rest : list Z)
         (nds : gmap nat nat) (H : list node) (h' : option nat) (st' : dstate),
  Forall label_ok ls ->
  read_label_loop f index head prev (mkD (flat_map label_to_bytes ls ++ 0 :: rest) nds H)
  = Ok (h', st') ->
  (forall k, (k < index)%nat -> nodes st' !! k = nds !! k) /\
  match head with
  | Some x => h' = Some x
  | None => ls <> [] -> h' = Some (length H) /\ nodes st' !! index = Some (length H)
  end.
Proof.
  induction ls as [|l ls IH]; intros f index head prev rest nds H h' st' Hok Hl;
    (destruct f as [|f]; [discriminate|]).
  - rewrite app_nil_l, loop_step_zero in Hl. injection Hl as <- <-. cbn [nodes].
    split; [reflexivity|]. destruct head; [reflexivity|]. intros []. reflexivity.
  - apply Forall_cons in Hok as [Hl1 Hok].
    cbn [flat_map] in Hl. rewrite <- app_assoc, loop_step_label in Hl by exact Hl1.
    destruct (IH _ _ _ _ _ _ _ _ _ Hok Hl) as [Hkeep Hhead].
    split.
    + intros k Hk. rewrite Hkeep by lia. apply lookup_insert_ne. lia.
    + destruct head as [x|]; [exact Hhead|]. intros _. split; [exact Hhead|].
      rewrite Hkeep by lia. rewrite lookup_insert, decide_True by reflexivity.
      reflexivity.
Qed.

(** [read_label] on a fresh name also registers the name's offset in the
    table, pointing at the head of its chain. *)
Lemma read_label_registers (ls : list string) (index : nat) (rest : list Z)
      (nds : gmap nat nat) (H : list node) :
  ls <> [] -> Forall label_ok ls ->
  exists nds' H' hd,
    read_label index (mkD (flat_map label_to_bytes ls ++ 0 :: rest) nds H)
    = Ok (dotted (map read_back ls), mkD rest nds' H') /\
    nds' !! index = Some hd /\ full_label H' hd (dotted (map read_back ls)) /\
    (forall k, (k < index)%nat -> nds' !! k = nds !! k).
Proof.
  intros Hne Hok. unfold read_label. cbn [cursor].
  destruct (loop_labels ls (S (length (flat_map label_to_bytes ls ++ 0 :: rest)))
              index None None [] rest nds H Hok (conj eq_refl eq_refl))
    as (h' & p' & nds' & H' & Hl & Hinv);
    [pose proof (length_flat_map_labels ls (0 :: rest)); lia|].
  destruct (loop_labels_table _ _ _ _ _ _ _ _ _ _ Hok Hl) as [Hkeep Hhead].
  destruct (Hhead Hne) as [Hh' Hidx]. cbn [nodes] in Hkeep, Hidx.
  unfold bind at 1. rewrite Hl.
  destruct ls as [|l ls]; [contradiction|]. cbn [app loop_inv] in Hinv.
  destruct Hinv as (hd & p & ndp & Hhd & -> & Hc & Hp & Hpx).
  rewrite Hh' in Hhd. injection Hhd as <-. rewrite Hh'.
  exists nds', H', (length H). pose proof (chain_full _ _ _ _ _ Hc Hp Hpx) as Hfl.
  split; [|split; [exact Hidx | split; [exact Hfl | exact Hkeep]]].
  apply get_full_label_ok. exact Hfl.
Qed.

(** [read_label] on a compression pointer to a registered node returns the
    node's full label and leaves the table and the heap as they were. *)
Lemma read_label_pointer (index : nat) (hi lo : Z) (rest : list Z)
      (nds : gmap nat nat) (H : list node) (hd : nat) (s : string) :
  Z.land hi 0xC0 = 0xC0 -> nds !! pointer_offset hi lo = Some hd -> full_label H hd s ->
  read_label index (mkD (hi :: lo :: rest) nds H) = Ok (s, mkD rest nds H).
Proof.
  intros Hc Hn Hfl. unfold read_label. cbn [cursor length].
  assert (Hl : forall f, read_label_loop (S f) index None None (mkD (hi :: lo :: rest) nds H)
                         = Ok (Some hd, mkD rest nds H)).
  { intros f. cbn [read_label_loop]. unfold bind at 1.
    rewrite read_label_body_eq, Hc, Z.eqb_refl, Hn. reflexivity. }
  erewrite bind_ok by apply Hl. cbv beta iota.
  apply get_full_label_ok. exact Hfl.
Qed.

(** The question-level version of [read_label_registers]. *)
Lemma question_registers (len : nat) (q : Question) (rest : list Z)
      (nds : gmap nat nat) (H : list node) :
  Forall label_ok (split_dot (qname q)) ->
  exists nds' H' hd,
    question_from_bytes len (mkD (question_to_bytes q ++ rest) nds H)
    = Ok (mkQuestion (read_back (qname q) ++ ".") (qtype q) (qclass q), mkD rest nds' H') /\
    nds' !! (len - length (question_to_bytes q ++ rest))%nat = Some hd /\
    full_label H' hd (read_back (qname q) ++ ".") /\
    (forall k, (k < len - length (question_to_bytes q ++ rest))%nat -> nds' !! k = nds !! k).
Proof.
  destruct q as [t qt qc]; cbn [qname qtype qclass]; intros Hok.
  unfold question_from_bytes.
  erewrite bind_ok by (unfold remaining; reflexivity). cbv beta. cbn [cursor].
  set (i := (len - length (question_to_bytes (mkQuestion t qt qc) ++ rest))%nat).
  unfold question_to_bytes, qname_to_bytes. cbn [qname qtype qclass].
  rewrite <- !app_assoc. cbn [app].
  destruct (read_label_registers (split_dot t) i
              (QType.to_bytes qt ++ QClass.to_bytes qc ++ rest) nds H
              (split_dot_nonempty t) Hok) as (nds' & H' & hd & Hr & Hidx & Hfl & Hkeep).
  rewrite dotted_read_back_split in Hr, Hfl.
  exists nds', H', hd. split; [|split; [exact Hidx | split; [exact Hfl | exact Hkeep]]].
  erewrite bind_ok by exact Hr.
  destruct (qtype_u16_roundtrip qt) as [Ht1 Ht2].
  destruct (qclass_u16_roundtrip qc) as [Hc1 Hc2].
  unfold QType.to_bytes, QClass.to_bytes.
  erewrite bind_ok by (apply get_u16_write; exact Ht1).
  erewrite bind_ok by (unfold lift; rewrite Ht2; reflexivity).
  erewrite bind_ok by (apply get_u16_write; exact Hc1).
  erewrite bind_ok by (unfold lift; rewrite Hc2; reflexivity).
  reflexivity.
Qed.

(** A question whose name is a compression pointer to a registered node. *)
Lemma question_pointer (len : nat) (hi lo : Z) (t : QType.QType) (c : QClass.QClass)
      (rest : list Z) (nds : gmap nat nat) (H : list node) (hd : nat) (s : string) :
  Z.land hi 0xC0 = 0xC0 -> nds !! pointer_offset hi lo = Some hd -> full_label H hd s ->
  question_from_bytes len (mkD ([hi; lo] ++ QType.to_bytes t ++ QClass.to_bytes c ++ rest) nds H)
  = Ok (mkQuestion s t c, mkD rest nds H).
Proof.
  intros Hc Hn Hfl. unfold question_from_bytes.
  erewrite bind_ok by (unfold remaining; reflexivity). cbv beta. cbn [app].
  erewrite bind_ok by exact (read_label_pointer _ hi lo _ nds H hd s Hc Hn Hfl).
  destruct (qtype_u16_roundtrip t) as [Ht1 Ht2].
  destruct (qclass_u16_roundtrip c) as [Hc1 Hc2].
  unfold QType.to_bytes, QClass.to_bytes.
  erewrite bind_ok by (apply get_u16_write; exact Ht1).
  erewrite bind_ok by (unfold lift; rewrite Ht2; reflexivity).
  erewrite bind_ok by (apply get_u16_write; exact Hc1).
  erewrite bind_ok by (unfold lift; rewrite Hc2; reflexivity).
  reflexivity.
Qed.

Lemma get_u32_write (hi lo : Z) (r : list Z) (nds : gmap nat nat) (H : list node) :
  0 <= hi < 65536 -> 0 <= lo < 65536 ->
  get_u32 (mkD (write_u16 hi ++ write_u16 lo ++ r) nds H) = Ok (hi * 65536 + lo, mkD r nds H).
Proof.
  intros Hhi Hlo. unfold get_u32.
  erewrite bind_ok by (apply get_u16_write; exact Hhi).
  erewrite bind_ok by (apply get_u16_write; exact Hlo).
  unfold ret. rewrite lor_shiftl_low by lia. reflexivity.
Qed.

(** [Answer::from_bytes] on an A record whose name is a compression pointer. *)
Lemma answer_a_pointer (len : nat) (hi lo : Z) (c : QClass.QClass) (thi tlo : Z)
      (ip rest : list Z) (nds : gmap nat nat) (H : list node) (hd : nat) (s : string) :
  Z.land hi 0xC0 = 0xC0 -> nds !! pointer_offset hi lo = Some hd -> full_label H hd s ->
  0 <= thi < 65536 -> 0 <= tlo < 65536 -> length ip = 4%nat ->
  answer_from_bytes len
    (mkD ([hi; lo] ++ QType.to_bytes QType.A ++ QClass.to_bytes c ++ write_u16 thi
          ++ write_u16 tlo ++ write_u16 4 ++ ip ++ rest) nds H)
  = Ok (mkAnswer s QType.A c (thi * 65536 + tlo) 4 (RDATA.IPV4 ip), mkD rest nds H).
Proof.
  intros Hc Hn Hfl Hthi Htlo Hip. unfold answer_from_bytes.
  erewrite bind_ok by (unfold remaining; reflexivity). cbv beta. cbn [app].
  erewrite bind_ok by exact (read_label_pointer _ hi lo _ nds H hd s Hc Hn Hfl).
  destruct (qclass_u16_roundtrip c) as [Hc1 Hc2].
  unfold QType.to_bytes, QClass.to_bytes.
  erewrite bind_ok by (apply get_u16_write; cbn; lia).
  erewrite bind_ok by (unfold lift; reflexivity).
  erewrite bind_ok by (apply get_u16_write; exact Hc1).
  erewrite bind_ok by (unfold lift; rewrite Hc2; reflexivity).
  erewrite bind_ok by (apply get_u32_write; assumption).
  erewrite bind_ok by (apply get_u16_write; lia).
  assert (Hrd : rdata_from_bytes len QType.A 4 (mkD (ip ++ rest) nds H)
                = Ok (RDATA.IPV4 ip, mkD rest nds H)).
  { cbn [rdata_from_bytes]. change (Z.to_nat 4) with 4%nat.
    erewrite bind_ok.
    2:{ rewrite get_bytes_ok by (cbn [cursor]; rewrite length_app; lia). reflexivity. }
    cbn [cursor nodes heap]. rewrite <- Hip, take_app_length, drop_app_length, Hip.
    reflexivity. }
  erewrite bind_ok by exact Hrd. reflexivity.
Qed.

(** Decoding the questions [Message::to_bytes] writes, one after another. *)
Lemma questions_roundtrip (len : nat) (qs : list Question) (rest : list Z) :
  Forall (fun q => Forall label_ok (split_dot (qname q))) qs ->
  forall (nds : gmap nat nat) (H : list node),
  exists nds' H',
    repeatM (length qs) (question_from_bytes len)
      (mkD (flat_map question_to_bytes qs ++ rest) nds H)
    = Ok (map (fun q => mkQuestion (read_back (qname q) ++ ".") (qtype q) (qclass q)) qs,
          mkD rest nds' H').
Proof.
  induction 1 as [|q qs Hq Hqs IH]; intros nds H.
  - exists nds, H. reflexivity.
  - cbn [length repeatM flat_map map]. rewrite <- app_assoc.
    destruct (question_roundtrip len q (flat_map question_to_bytes qs ++ rest) nds H Hq)
      as (nds1 & H1 & Hq1).
    destruct (IH nds1 H1) as (nds' & H' & Hrest).
    exists nds', H'.
    erewrite bind_ok by exact Hq1. erewrite bind_ok by exact Hrest. reflexivity.
Qed.

(** The decoding of a message with the given header and questions, after
    [&buf[..len]] and [Header::from_bytes]. *)
Lemma message_from_bytes_questions (h : Header) (qs : list Question) (rest : list Z)
      (k : list Z) :
  0 <= id h < 65536 -> 0 <= flags h < 65536 -> 0 <= qdcount h < 65536 ->
  0 <= ancount h < 65536 -> 0 <= nscount h < 65536 -> 0 <= arcount h < 65536 ->
  qdcount h = Z.of_nat (length qs) ->
  Forall (fun q => Forall label_ok (split_dot (qname q))) qs ->
  k = header_to_bytes h ++ flat_map question_to_bytes qs ++ rest ->
  exists nds H,
    message_from_bytes k (length k) =
    match (ans <- repeatM (Z.to_nat (ancount h)) (answer_from_bytes (length k)) ;;
           ns <- repeatM (Z.to_nat (nscount h)) (answer_from_bytes (length k)) ;;
           ad <- repeatM (Z.to_nat (arcount h)) (answer_from_bytes (length k)) ;;
           ret (mkMessage h (map (fun q => mkQuestion (read_back (qname q) ++ ".") (qtype q) (qclass q)) qs)
                          ans ns ad)) (mkD rest nds H) with
    | Ok (m, _) => Ok m
    | Err e => Err e
    | Panic p => Panic p
    | Diverge => Diverge
    end.
Proof.
  intros Hi Hf Hqd Han Hns Har Hcount Hok ->.
  set (len := length (header_to_bytes h ++ flat_map question_to_bytes qs ++ rest)).
  destruct (questions_roundtrip len qs rest Hok ∅ []) as (nds & H & Hq).
  exists nds, H.
  unfold message_from_bytes. rewrite Nat.leb_refl, take_ge by lia.
  unfold message_body.
  erewrite bind_ok by (apply header_roundtrip; assumption). cbv beta.
  rewrite Hcount, Nat2Z.id.
  erewrite bind_ok by exact Hq. reflexivity.
Qed.

(** A message with no records: [Message::from_bytes] reads back the header
    and every question [Message::to_bytes] wrote, when the header counts the
    questions, counts no records, and every name splits into labels of 1 to
    63 bytes; each name gains a trailing dot. *)
Theorem message_roundtrip (m : Message) :
  0 <= id (header m) < 65536 -> 0 <= flags (header m) < 65536 ->
  qdcount (header m) = Z.of_nat (length (question m)) ->
  Z.of_nat (length (question m)) < 65536 ->
  ancount (header m) = 0 -> nscount (header m) = 0 -> arcount (header m) = 0 ->
  Forall (fun q => Forall label_ok (split_dot (qname q))) (question m) ->
  message_from_bytes (message_to_bytes m) (length (message_to_bytes m))
  = Ok (mkMessage (header m)
                  (map (fun q => mkQuestion (read_back (qname q) ++ ".") (qtype q) (qclass q)) (question m))
                  [] [] []).
Proof.
  intros Hi Hf Hqd Hlen Han Hns Har Hok.
  destruct (message_from_bytes_questions (header m) (question m) [] (message_to_bytes m)
              Hi Hf ltac:(lia) ltac:(lia) ltac:(lia) ltac:(lia) Hqd Hok
              ltac:(unfold message_to_bytes; rewrite app_nil_r; reflexivity))
    as (nds & H & ->).
  rewrite Han, Hns, Har. reflexivity.
Qed.

Lemma message_roundtrip_witness :
  let m := mkMessage (mkHeader 7 0x0100 2 0 0 0)
             [mkQuestion "example.com" QType.A QClass.IN;
              mkQuestion "mail.example.org" QType.MX QClass.CH] [] [] [] in
  (0 <= id (header m) < 65536 /\ 0 <= flags (header m) < 65536 /\
   qdcount (header m) = Z.of_nat (length (question m)) /\
   Z.of_nat (length (question m)) < 65536 /\
   ancount (header m) = 0 /\ nscount (header m) = 0 /\ arcount (header m) = 0 /\
   Forall (fun q => Forall label_ok (split_dot (qname q))) (question m)) /\
  message_from_bytes (message_to_bytes m) (length (message_to_bytes m))
  = Ok (mkMessage (header m)
                  (map (fun q => mkQuestion (read_back (qname q) ++ ".") (qtype q) (qclass q)) (question m))
                  [] [] []).
Proof.
  intros m.
  assert (Hok : Forall (fun q => Forall label_ok (split_dot (qname q))) (question m)).
  { cbn. repeat (constructor; [repeat (constructor; [unfold label_ok; cbn; lia|]); constructor|]).
    constructor. }
  split; [repeat split; cbn; try lia; exact Hok|].
  apply message_roundtrip; cbn; try lia; try reflexivity; exact Hok.
Defined.

(** [Message::to_bytes] writes the header counts but no resource records:
    a message whose header counts at least one answer does not decode from
    its own bytes; the decoder runs out of bytes and panics. *)
Theorem answers_never_encoded (m : Message) :
  0 <= id (header m) < 65536 -> 0 <= flags (header m) < 65536 ->
  qdcount (header m) = Z.of_nat (length (question m)) ->
  Z.of_nat (length (question m)) < 65536 ->
  1 <= ancount (header m) < 65536 ->
  0 <= nscount (header m) < 65536 -> 0 <= arcount (header m) < 65536 ->
  Forall (fun q => Forall label_ok (split_dot (qname q))) (question m) ->
  message_from_bytes (message_to_bytes m) (length (message_to_bytes m)) = Panic AdvancePastEnd.
Proof.
  intros Hi Hf Hqd Hlen Han Hns Har Hok.
  destruct (message_from_bytes_questions (header m) (question m) [] (message_to_bytes m)
              Hi Hf ltac:(lia) ltac:(lia) Hns Har Hqd Hok
              ltac:(unfold message_to_bytes; rewrite app_nil_r; reflexivity))
    as (nds & H & ->).
  destruct (Z.to_nat (ancount (header m))) as [|n] eqn:E; [lia|].
  cbn [repeatM]. reflexivity.
Qed.

Lemma answers_never_encoded_witness :
  let m := mkMessage (mkHeader 7 0x8180 1 1 0 0)
             [mkQuestion "example.com" QType.A QClass.IN]
             [mkAnswer "example.com." QType.A QClass.IN 60 4 (RDATA.IPV4 [93; 184; 216; 34])]
             [] [] in
  (0 <= id (header m) < 65536 /\ 0 <= flags (header m) < 65536 /\
   qdcount (header m) = Z.of_nat (length (question m)) /\
   Z.of_nat (length (question m)) < 65536 /\
   1 <= ancount (header m) < 65536 /\
   0 <= nscount (header m) < 65536 /\ 0 <= arcount (header m) < 65536 /\
   Forall (fun q => Forall label_ok (split_dot (qname q))) (question m)) /\
  message_from_bytes (message_to_bytes m) (length (message_to_bytes m)) = Panic AdvancePastEnd.
Proof.
  intros m.
  assert (Hok : Forall (fun q => Forall label_ok (split_dot (qname q))) (question m)).
  { cbn. repeat (constructor; [repeat (constructor; [unfold label_ok; cbn; lia|]); constructor|]).
    constructor. }
  split; [repeat split; cbn; try lia; exact Hok|].
  apply answers_never_encoded; cbn; try lia; try reflexivity; exact Hok.
Defined.

(** Name compression across records: the first question's name is
    registered at its offset 12; a second question whose name is the
    pointer [C0 0C] decodes to the same name. *)
Theorem compressed_question_name (i f : Z) (q : Question) (t2 : QType.QType)
        (c2 : QClass.QClass) (bs : list Z) :
  0 <= i < 65536 -> 0 <= f < 65536 ->
  Forall label_ok (split_dot (qname q)) ->
  bs = header_to_bytes (mkHeader i f 2 0 0 0) ++ question_to_bytes q ++ [0xC0; 12]
       ++ QType.to_bytes t2 ++ QClass.to_bytes c2 ->
  message_from_bytes bs (length bs)
  = Ok (mkMessage (mkHeader i f 2 0 0 0)
                  [mkQuestion (read_back (qname q) ++ ".") (qtype q) (qclass q);
                   mkQuestion (read_back (qname q) ++ ".") t2 c2] [] [] []).
Proof.
  intros Hi Hf Hok Hbs.
  rewrite <- (app_nil_r (QClass.to_bytes c2)) in Hbs.
  set (rest := [0xC0; 12] ++ QType.to_bytes t2 ++ QClass.to_bytes c2 ++ []) in Hbs.
  unfold message_from_bytes. rewrite Nat.leb_refl, take_ge by lia.
  unfold message_body.
  assert (Hst : mkD bs ∅ [] = mkD (header_to_bytes (mkHeader i f 2 0 0 0)
                                   ++ question_to_bytes q ++ rest) ∅ [])
    by (rewrite Hbs; reflexivity).
  rewrite Hst.
  erewrite bind_ok by (apply header_roundtrip; cbn; lia). cbv beta.
  cbn [qdcount ancount nscount arcount].
  change (Z.to_nat 2) with 2%nat. change (Z.to_nat 0) with 0%nat.
  destruct (question_registers (length bs) q rest ∅ [] Hok)
    as (nds & H & hd & Hq1 & Hidx & Hfl & _).
  assert (H12 : (length bs - length (question_to_bytes q ++ rest))%nat = 12%nat).
  { rewrite Hbs, length_app. cbn [header_to_bytes write_u16 app length]. lia. }
  rewrite H12 in Hidx.
  pose proof (question_pointer (length bs) 0xC0 12 t2 c2 [] nds H hd _ eq_refl Hidx Hfl)
    as Hq2.
  cbn [repeatM].
  erewrite bind_ok
    by (erewrite bind_ok by exact Hq1; cbv beta;
        erewrite bind_ok by (erewrite bind_ok by exact Hq2; reflexivity);
        reflexivity).
  reflexivity.
Qed.

Lemma compressed_question_name_witness :
  (0 <= 0x1234 < 65536 /\ 0 <= 0x0100 < 65536 /\
   Forall label_ok (split_dot "example.com")) /\
  message_from_bytes
    (header_to_bytes (mkHeader 0x1234 0x0100 2 0 0 0)
     ++ question_to_bytes (mkQuestion "example.com" QType.A QClass.IN) ++ [0xC0; 12]
     ++ QType.to_bytes QType.AAAA ++ QClass.to_bytes QClass.IN)
    (length (header_to_bytes (mkHeader 0x1234 0x0100 2 0 0 0)
     ++ question_to_bytes (mkQuestion "example.com" QType.A QClass.IN) ++ [0xC0; 12]
     ++ QType.to_bytes QType.AAAA ++ QClass.to_bytes QClass.IN))
  = Ok (mkMessage (mkHeader 0x1234 0x0100 2 0 0 0)
                  [mkQuestion "example.com." QType.A QClass.IN;
                   mkQuestion "example.com." QType.AAAA QClass.IN] [] [] []).
Proof.
  assert (Hok : Forall label_ok (split_dot "example.com")).
  { cbn. repeat (constructor; [unfold label_ok; cbn; lia|]). constructor. }
  split; [split; [lia | split; [lia | exact Hok]]|].
  exact (compressed_question_name 0x1234 0x0100 (mkQuestion "example.com" QType.A QClass.IN)
           QType.AAAA QClass.IN _ ltac:(lia) ltac:(lia) Hok eq_refl).
Defined.

(** A typical answer to an A query: one question and one A record whose
    name is the pointer [C0 0C] to the question's name. It decodes to the
    question's name, the record's class, the TTL read big-endian from its
    four bytes, RDLENGTH 4 and the four address bytes. *)
Theorem a_response_decodes (i f : Z) (q : Question) (c : QClass.QClass)
        (thi tlo : Z) (ip bs : list Z) :
  0 <= i < 65536 -> 0 <= f < 65536 ->
  0 <= thi < 65536 -> 0 <= tlo < 65536 -> length ip = 4%nat ->
  Forall label_ok (split_dot (qname q)) ->
  bs = header_to_bytes (mkHeader i f 1 1 0 0) ++ question_to_bytes q ++ [0xC0; 12]
       ++ QType.to_bytes QType.A ++ QClass.to_bytes c ++ write_u16 thi ++ write_u16 tlo
       ++ write_u16 4 ++ ip ->
  message_from_bytes bs (length bs)
  = Ok (mkMessage (mkHeader i f 1 1 0 0)
                  [mkQuestion (read_back (qname q) ++ ".") (qtype q) (qclass q)]
                  [mkAnswer (read_back (qname q) ++ ".") QType.A c (thi * 65536 + tlo) 4 (RDATA.IPV4 ip)]
                  [] []).
Proof.
  intros Hi Hf Hthi Htlo Hip Hok Hbs.
  rewrite <- (app_nil_r ip) in Hbs.
  set (rest := [0xC0; 12] ++ QType.to_bytes QType.A ++ QClass.to_bytes c ++ write_u16 thi
               ++ write_u16 tlo ++ write_u16 4 ++ ip ++ []) in Hbs.
  unfold message_from_bytes. rewrite Nat.leb_refl, take_ge by lia.
  unfold message_body.
  assert (Hst : mkD bs ∅ [] = mkD (header_to_bytes (mkHeader i f 1 1 0 0)
                                   ++ question_to_bytes q ++ rest) ∅ [])
    by (rewrite Hbs; reflexivity).
  rewrite Hst.
  erewrite bind_ok by (apply header_roundtrip; cbn; lia). cbv beta.
  cbn [qdcount ancount nscount arcount].
  change (Z.to_nat 1) with 1%nat. change (Z.to_nat 0) with 0%nat.
  destruct (question_registers (length bs) q rest ∅ [] Hok)
    as (nds & H & hd & Hq1 & Hidx & Hfl & _).
  assert (H12 : (length bs - length (question_to_bytes q ++ rest))%nat = 12%nat).
  { rewrite Hbs, length_app. cbn [header_to_bytes write_u16 app length]. lia. }
  rewrite H12 in Hidx.
  cbn [repeatM].
  erewrite bind_ok by (erewrite bind_ok by exact Hq1; reflexivity).
  erewrite bind_ok.
  2:{ cbn [repeatM].
      erewrite bind_ok by exact (answer_a_pointer (length bs) 0xC0 12 c thi tlo ip [] nds H hd _
                                   eq_refl Hidx Hfl Hthi Htlo Hip).
      reflexivity. }
  reflexivity.
Qed.

Lemma a_response_decodes_witness :
  (0 <= 0x1234 < 65536 /\ 0 <= 0x8180 < 65536 /\ 0 <= 0 < 65536 /\ 0 <= 300 < 65536 /\
   length [93; 184; 216; 34] = 4%nat /\ Forall label_ok (split_dot "example.com")) /\
  message_from_bytes
    (header_to_bytes (mkHeader 0x1234 0x8180 1 1 0 0)
     ++ question_to_bytes (mkQuestion "example.com" QType.A QClass.IN) ++ [0xC0; 12]
     ++ QType.to_bytes QType.A ++ QClass.to_bytes QClass.IN ++ write_u16 0 ++ write_u16 300
     ++ write_u16 4 ++ [93; 184; 216; 34])
    (length (header_to_bytes (mkHeader 0x1234 0x8180 1 1 0 0)
     ++ question_to_bytes (mkQuestion "example.com" QType.A QClass.IN) ++ [0xC0; 12]
     ++ QType.to_bytes QType.A ++ QClass.to_bytes QClass.IN ++ write_u16 0 ++ write_u16 300
     ++ write_u16 4 ++ [93; 184; 216; 34]))
  = Ok (mkMessage (mkHeader 0x1234 0x8180 1 1 0 0)
                  [mkQuestion "example.com." QType.A QClass.IN]
                  [mkAnswer "example.com." QType.A QClass.IN (0 * 65536 + 300) 4
                            (RDATA.IPV4 [93; 184; 216; 34])] [] []).
Proof.
  assert (Hok : Forall label_ok (split_dot "example.com")).
  { cbn. repeat (constructor; [unfold label_ok; cbn; lia|]). constructor. }
  split; [repeat split; try lia; exact Hok|].
  exact (a_response_decodes 0x1234 0x8180 (mkQuestion "example.com" QType.A QClass.IN)
           QClass.IN 0 300 [93; 184; 216; 34] _ ltac:(lia) ltac:(lia) ltac:(lia) ltac:(lia)
           eq_refl Hok eq_refl).
Defined.

(** The root name (a single zero byte) is not accepted as a name: the loop
    of [read_label] ends before any label, and the name is rejected with
    "No head detected". So the query [Message::create_query] builds for a
    domain that is empty after trimming is written (as two zero bytes, an
    empty label and the terminator), but its bytes do not decode. *)
Theorem empty_name_rejected :
  (forall (index : nat) (rest : list Z) (nds : gmap nat nat) (H : list node),
      read_label index (mkD (0 :: rest) nds H) = Err (ParseLabelError "No head detected")) /\
  (forall (rid : Z) (domain qt qc : string) (bs : list Z),
      0 <= rid < 65536 -> trim domain = EmptyString ->
      encode_query rid domain qt qc = Ok bs ->
      take 2 (drop 12 bs) = [0; 0] /\
      message_from_bytes bs (length bs) = Err (ParseLabelError "No head detected")).
Proof.
  split; [exact read_label_root|].
  intros rid domain qt qc bs Hrid Htrim Henc.
  unfold encode_query in Henc.
  destruct (create_query rid domain qt qc) as [m| | |] eqn:Hq; try discriminate.
  injection Henc as <-.
  destruct (create_query_shape _ _ _ _ _ Hq) as (t & c & ->).
  unfold message_to_bytes. cbn [header question flat_map].
  unfold question_to_bytes, qname_to_bytes. cbn [qname qtype qclass]. rewrite Htrim.
  cbn [split_dot flat_map label_to_bytes String.length as_bytes].
  change (Z.land (Z.of_nat 0) 255) with 0. cbn [app].
  set (rest := QType.to_bytes t ++ QClass.to_bytes c ++ []).
  split.
  { unfold header_to_bytes, create_query_header, write_u16. cbn [id flags qdcount ancount nscount arcount].
    reflexivity. }
  unfold message_from_bytes. rewrite Nat.leb_refl, take_ge by lia.
  unfold message_body.
  erewrite bind_ok
    by (apply header_roundtrip; unfold create_query_header;
        cbn [id flags qdcount ancount nscount arcount];
        try change (Z.lor 0 (Z.shiftl 1 8)) with 256; lia).
  cbv beta. cbn [create_query_header qdcount]. change (Z.to_nat 1) with 1%nat.
  cbn [repeatM].
  erewrite bind_err; [reflexivity|].
  apply bind_err. unfold question_from_bytes.
  erewrite bind_ok by (unfold remaining; reflexivity). cbv beta.
  apply bind_err. apply read_label_root.
Qed.

Lemma empty_name_rejected_witness :
  (0 <= 0x1234 < 65536 /\ trim "  " = EmptyString /\
   encode_query 0x1234 "  " "A" "IN"
   = Ok [0x12; 0x34; 1; 0; 0; 1; 0; 0; 0; 0; 0; 0; 0; 0; 0; 1; 0; 1]) /\
  take 2 (drop 12 [0x12; 0x34; 1; 0; 0; 1; 0; 0; 0; 0; 0; 0; 0; 0; 0; 1; 0; 1]) = [0; 0] /\
  message_from_bytes [0x12; 0x34; 1; 0; 0; 1; 0; 0; 0; 0; 0; 0; 0; 0; 0; 1; 0; 1] 18
  = Err (ParseLabelError "No head detected").
Proof.
  assert (He : encode_query 0x1234 "  " "A" "IN"
               = Ok [0x12; 0x34; 1; 0; 0; 1; 0; 0; 0; 0; 0; 0; 0; 0; 0; 1; 0; 1])
    by reflexivity.
  split; [split; [lia | split; [reflexivity | exact He]]|].
  exact (proj2 empty_name_rejected 0x1234 "  "%string "A"%string "IN"%string _ ltac:(lia) eq_refl He).
Defined.

Lemma qtype_from_u16_unknown (v : Z) :
  (forall t, QType.to_u16 t <> v) -> QType.from_u16 v = Err (ParseQTypeCode v).
Proof.
  intros Hv. unfold QType.from_u16.
  destruct (Z.eqb_spec v 1); [destruct (Hv QType.A); cbn; lia|].
  destruct (Z.eqb_spec v 2); [destruct (Hv QType.NS); cbn; lia|].
  destruct (Z.eqb_spec v 5); [destruct (Hv QType.CNAME); cbn; lia|].
  destruct (Z.eqb_spec v 15); [destruct (Hv QType.MX); cbn; lia|].
  destruct (Z.eqb_spec v 16); [destruct (Hv QType.TXT); cbn; lia|].
  destruct (Z.eqb_spec v 28); [destruct (Hv QType.AAAA); cbn; lia|].
  reflexivity.
Qed.

Lemma qclass_from_u16_unknown (v : Z) :
  (forall c, QClass.to_u16 c <> v) -> QClass.from_u16 v = Err (ParseQClassCode v).
Proof.
  intros Hv. unfold QClass.from_u16.
  destruct (Z.eqb_spec v 1); [destruct (Hv QClass.IN); cbn; lia|].
  destruct (Z.eqb_spec v 2); [destruct (Hv QClass.CS); cbn; lia|].
  destruct (Z.eqb_spec v 3); [destruct (Hv QClass.CH); cbn; lia|].
  destruct (Z.eqb_spec v 4); [destruct (Hv QClass.HS); cbn; lia|].
  destruct (Z.eqb_spec v 255); [destruct (Hv QClass.ANY); cbn; lia|].
  reflexivity.
Qed.

(** After a name, whatever its form, a type code outside the six [QType]
    codes ends the question or record with [ParseQTypeCode]. *)
Lemma type_code_rejected (len : nat) (v : Z) (st : dstate) (n : string) (rest : list Z)
      (nds' : gmap nat nat) (H' : list node) :
  0 <= v < 65536 -> (forall t, QType.to_u16 t <> v) ->
  read_label (len - length (cursor st)) st = Ok (n, mkD (write_u16 v ++ rest) nds' H') ->
  question_from_bytes len st = Err (ParseQTypeCode v) /\
  answer_from_bytes len st = Err (ParseQTypeCode v).
Proof.
  intros Hv Hunk Hr. pose proof (qtype_from_u16_unknown v Hunk) as Hu.
  split;
    [unfold question_from_bytes | unfold answer_from_bytes];
    (erewrite bind_ok by (unfold remaining; reflexivity)); cbv beta;
    (erewrite bind_ok by exact Hr);
    (erewrite bind_ok by (apply get_u16_write; exact Hv));
    apply bind_err; unfold lift; rewrite Hu; reflexivity.
Qed.

(** After a name and a known type, a class code outside the five [QClass]
    codes ends the question or record with [ParseQClassCode]. *)
Lemma class_code_rejected (len : nat) (v : Z) (t : QType.QType) (st : dstate) (n : string)
      (rest : list Z) (nds' : gmap nat nat) (H' : list node) :
  0 <= v < 65536 -> (forall c, QClass.to_u16 c <> v) ->
  read_label (len - length (cursor st)) st
  = Ok (n, mkD (QType.to_bytes t ++ write_u16 v ++ rest) nds' H') ->
  question_from_bytes len st = Err (ParseQClassCode v) /\
  answer_from_bytes len st = Err (ParseQClassCode v).
Proof.
  intros Hv Hunk Hr. pose proof (qclass_from_u16_unknown v Hunk) as Hu.
  destruct (qtype_u16_roundtrip t) as [Ht1 Ht2].
  split;
    [unfold question_from_bytes | unfold answer_from_bytes];
    (erewrite bind_ok by (unfold remaining; reflexivity)); cbv beta;
    (erewrite bind_ok by exact Hr); unfold QType.to_bytes;
    (erewrite bind_ok by (apply get_u16_write; exact Ht1));
    (erewrite bind_ok by (unfold lift; rewrite Ht2; reflexivity));
    (erewrite bind_ok by (apply get_u16_write; exact Hv));
    apply bind_err; unfold lift; rewrite Hu; reflexivity.
Qed.

(** A question or a record whose type code is not one of the six [QType]
    codes (SOA = 6, PTR = 12, OPT = 41, ...) is rejected with the code in
    the error; so is one with a known type and a class code outside the
    five [QClass] codes. This holds whatever the name before the codes: a
    sequence of labels, a compression pointer, or labels ending in a
    pointer; all that matters is that [read_label] accepts it. The error
    ends the decoding of the whole message. *)
Theorem unsupported_codes_rejected (len : nat) (v : Z) :
  0 <= v < 65536 ->
  ((forall t, QType.to_u16 t <> v) ->
   forall (st : dstate) (n : string) (rest : list Z) (nds' : gmap nat nat) (H' : list node),
   read_label (len - length (cursor st)) st = Ok (n, mkD (write_u16 v ++ rest) nds' H') ->
   question_from_bytes len st = Err (ParseQTypeCode v) /\
   answer_from_bytes len st = Err (ParseQTypeCode v)) /\
  (forall t : QType.QType, (forall c, QClass.to_u16 c <> v) ->
   forall (st : dstate) (n : string) (rest : list Z) (nds' : gmap nat nat) (H' : list node),
   read_label (len - length (cursor st)) st
   = Ok (n, mkD (QType.to_bytes t ++ write_u16 v ++ rest) nds' H') ->
   question_from_bytes len st = Err (ParseQClassCode v) /\
   answer_from_bytes len st = Err (ParseQClassCode v)).
Proof.
  intros Hv. split.
  - intros Hunk st n rest nds' H'. apply type_code_rejected; assumption.
  - intros t Hunk st n rest nds' H'. apply class_code_rejected; assumption.
Qed.

Lemma unsupported_codes_rejected_witness :
  (0 <= 6 < 65536 /\ (forall t, QType.to_u16 t <> 6) /\
   read_label (20 - length [0xC0; 12; 0; 6])
     (mkD [0xC0; 12; 0; 6] (<[12%nat := 0%nat]> ∅) [mkNode "a" None])
   = Ok ("a."%string, mkD (write_u16 6 ++ []) (<[12%nat := 0%nat]> ∅) [mkNode "a" None])) /\
  answer_from_bytes 20 (mkD [0xC0; 12; 0; 6] (<[12%nat := 0%nat]> ∅) [mkNode "a" None])
  = Err (ParseQTypeCode 6).
Proof.
  assert (Hu : forall t, QType.to_u16 t <> 6) by (intros []; cbn; lia).
  assert (Hr : read_label (20 - length [0xC0; 12; 0; 6])
                 (mkD [0xC0; 12; 0; 6] (<[12%nat := 0%nat]> ∅) [mkNode "a" None])
               = Ok ("a."%string, mkD (write_u16 6 ++ []) (<[12%nat := 0%nat]> ∅)
                                    [mkNode "a" None]))
    by (vm_compute; reflexivity).
  split; [split; [lia | split; [exact Hu | exact Hr]]|].
  exact (proj2 (proj1 (unsupported_codes_rejected 20 6 ltac:(lia)) Hu
                  (mkD [0xC0; 12; 0; 6] (<[12%nat := 0%nat]> ∅) [mkNode "a" None])
                  "a."%string [] (<[12%nat := 0%nat]> ∅) [mkNode "a" None] Hr)).
Defined.

(** The MX arm reads a big-endian preference and then a name; the CNAME and
    NS arms read a name. On a name of labels, the arms consume the name's
    bytes up to its zero byte. *)
Lemma name_rdata_plain (len : nat) (rdlen pref : Z) (ls : list string)
        (rest : list Z) (nds : gmap nat nat) (H : list node) :
  ls <> [] -> Forall label_ok ls -> 0 <= pref < 65536 ->
  (exists nds' H',
     rdata_from_bytes len QType.MX rdlen
       (mkD (write_u16 pref ++ flat_map label_to_bytes ls ++ 0 :: rest) nds H)
     = Ok (RDATA.MX pref (dotted (map read_back ls)), mkD rest nds' H')) /\
  (forall t, t = QType.CNAME \/ t = QType.NS ->
   exists nds' H',
     rdata_from_bytes len t rdlen (mkD (flat_map label_to_bytes ls ++ 0 :: rest) nds H)
     = Ok (RDATA.DomainName (dotted (map read_back ls)), mkD rest nds' H')).
Proof.
  intros Hne Hok Hp. split.
  - cbn [rdata_from_bytes].
    erewrite bind_ok by (apply get_u16_write; exact Hp).
    erewrite bind_ok by (unfold remaining; reflexivity). cbv beta.
    match goal with |- context [read_label ?i] =>
      destruct (read_label_labels ls i rest nds H Hne Hok) as (nds' & H' & Hr) end.
    exists nds', H'. erewrite bind_ok by exact Hr. reflexivity.
  - intros t Ht.
    assert (Hd : exists nds' H',
               (r <- remaining ;; n <- read_label (len - r) ;; ret (RDATA.DomainName n))
                 (mkD (flat_map label_to_bytes ls ++ 0 :: rest) nds H)
               = Ok (RDATA.DomainName (dotted (map read_back ls)), mkD rest nds' H')).
    { erewrite bind_ok by (unfold remaining; reflexivity). cbv beta.
      match goal with |- context [read_label ?i] =>
        destruct (read_label_labels ls i rest nds H Hne Hok) as (nds' & H' & Hr) end.
      exists nds', H'. erewrite bind_ok by exact Hr. reflexivity. }
    destruct Ht as [-> | ->]; exact Hd.
Qed.

(** On a name that is a compression pointer to a registered node, the
    arms consume the two bytes of the pointer. *)
Lemma name_rdata_pointer (len : nat) (rdlen pref hi lo : Z) (rest : list Z)
      (nds : gmap nat nat) (H : list node) (hd : nat) (s : string) :
  Z.land hi 0xC0 = 0xC0 -> nds !! pointer_offset hi lo = Some hd -> full_label H hd s ->
  0 <= pref < 65536 ->
  rdata_from_bytes len QType.MX rdlen (mkD (write_u16 pref ++ hi :: lo :: rest) nds H)
  = Ok (RDATA.MX pref s, mkD rest nds H) /\
  (forall t, t = QType.CNAME \/ t = QType.NS ->
   rdata_from_bytes len t rdlen (mkD (hi :: lo :: rest) nds H)
   = Ok (RDATA.DomainName s, mkD rest nds H)).
Proof.
  intros Hc Hn Hfl Hp. split.
  - cbn [rdata_from_bytes].
    erewrite bind_ok by (apply get_u16_write; exact Hp).
    erewrite bind_ok by (unfold remaining; reflexivity). cbv beta.
    erewrite bind_ok by exact (read_label_pointer _ hi lo rest nds H hd s Hc Hn Hfl).
    reflexivity.
  - intros t Ht.
    assert (Hd : (r <- remaining ;; n <- read_label (len - r) ;; ret (RDATA.DomainName n))
                   (mkD (hi :: lo :: rest) nds H) = Ok (RDATA.DomainName s, mkD rest nds H)).
    { erewrite bind_ok by (unfold remaining; reflexivity). cbv beta.
      erewrite bind_ok by exact (read_label_pointer _ hi lo rest nds H hd s Hc Hn Hfl).
      reflexivity. }
    destruct Ht as [-> | ->]; exact Hd.
Qed.

(** C9 (amended): only the A and AAAA arms consume exactly RDLENGTH bytes.
    The other arms do not read RDLENGTH at all: their result is the same
    whatever it is. The TXT arm consumes one length byte and that many
    bytes; the CNAME and NS arms consume a name and the MX arm a 2-byte
    preference and a name, for instance the labels of the name up to its
    zero byte, or a 2-byte compression pointer. There is no SOA arm: a
    record with type code 6 is rejected with [ParseQTypeCode 6] after its
    name, whatever that name is. *)
Theorem rdata_consumption :
  (forall (len : nat) (rt : QType.QType) (rdlen : Z) (st : dstate)
          (rd : RDATA.RDATA) (st' : dstate),
      rt = QType.A \/ rt = QType.AAAA ->
      rdata_from_bytes len rt rdlen st = Ok (rd, st') ->
      length (cursor st) = (length (cursor st') + Z.to_nat rdlen)%nat) /\
  (forall (len : nat) (rdlen l : Z) (r : list Z) (nds : gmap nat nat) (hp : list node)
          (rd : RDATA.RDATA) (st' : dstate),
      rdata_from_bytes len QType.TXT rdlen (mkD (l :: r) nds hp) = Ok (rd, st') ->
      length r = (length (cursor st') + Z.to_nat l)%nat) /\
  (forall (len : nat) (rt : QType.QType) (rdlen rdlen' : Z) (st : dstate),
      rt <> QType.A -> rt <> QType.AAAA ->
      rdata_from_bytes len rt rdlen st = rdata_from_bytes len rt rdlen' st) /\
  (forall (len : nat) (rdlen pref : Z) (ls : list string) (rest : list Z)
          (nds : gmap nat nat) (H : list node),
      ls <> [] -> Forall label_ok ls -> 0 <= pref < 65536 ->
      (exists nds' H',
         rdata_from_bytes len QType.MX rdlen
           (mkD (write_u16 pref ++ flat_map label_to_bytes ls ++ 0 :: rest) nds H)
         = Ok (RDATA.MX pref (dotted (map read_back ls)), mkD rest nds' H')) /\
      (forall t, t = QType.CNAME \/ t = QType.NS ->
       exists nds' H',
         rdata_from_bytes len t rdlen (mkD (flat_map label_to_bytes ls ++ 0 :: rest) nds H)
         = Ok (RDATA.DomainName (dotted (map read_back ls)), mkD rest nds' H'))) /\
  (forall (len : nat) (rdlen pref hi lo : Z) (rest : list Z) (nds : gmap nat nat)
          (H : list node) (hd : nat) (s : string),
      Z.land hi 0xC0 = 0xC0 -> nds !! pointer_offset hi lo = Some hd -> full_label H hd s ->
      0 <= pref < 65536 ->
      rdata_from_bytes len QType.MX rdlen (mkD (write_u16 pref ++ hi :: lo :: rest) nds H)
      = Ok (RDATA.MX pref s, mkD rest nds H) /\
      (forall t, t = QType.CNAME \/ t = QType.NS ->
       rdata_from_bytes len t rdlen (mkD (hi :: lo :: rest) nds H)
       = Ok (RDATA.DomainName s, mkD rest nds H))) /\
  (forall (len : nat) (st : dstate) (n : string) (rest : list Z)
          (nds' : gmap nat nat) (H' : list node),
      read_label (len - length (cursor st)) st = Ok (n, mkD (write_u16 6 ++ rest) nds' H') ->
      answer_from_bytes len st = Err (ParseQTypeCode 6)).
Proof.
  split; [|split; [|split; [|split; [|split]]]].
  - intros len rt rdlen st rd st' Hrt Hok.
    destruct (Nat.leb_spec (Z.to_nat rdlen) (length (cursor st))) as [Hle | Hgt].
    + destruct Hrt as [-> | ->]; unfold rdata_from_bytes, bind at 1 in Hok;
        rewrite (get_bytes_ok _ st Hle) in Hok;
        (destruct (Nat.eqb _ _); [|discriminate]);
        injection Hok as _ <-; cbn; rewrite length_drop; lia.
    + destruct Hrt as [-> | ->]; unfold rdata_from_bytes, bind at 1 in Hok;
        rewrite (get_bytes_short _ st Hgt) in Hok; discriminate.
  - intros len rdlen l r nds hp rd st' Hok.
    unfold rdata_from_bytes, bind at 1, get_u8 in Hok. cbn [cursor nodes heap] in Hok.
    unfold bind at 1 in Hok. cbn [cursor nodes heap] in Hok.
    destruct (Nat.leb_spec (Z.to_nat l) (length r)) as [Hle | Hgt].
    + rewrite (get_bytes_ok _ (mkD r nds hp) Hle) in Hok.
      injection Hok as _ <-. cbn. rewrite length_drop. lia.
    + rewrite (get_bytes_short _ (mkD r nds hp) Hgt) in Hok. discriminate.
  - intros len rt rdlen rdlen' st HA HAAAA.
    destruct rt; try contradiction; reflexivity.
  - exact name_rdata_plain.
  - exact name_rdata_pointer.
  - intros len st n rest nds' H' Hr.
    refine (proj2 (type_code_rejected len 6 st n rest nds' H' _ _ Hr)); [lia|].
    intros []; cbn; lia.
Qed.

Lemma rdata_consumption_witness :
  ((QType.A = QType.A \/ QType.A = QType.AAAA) /\
   rdata_from_bytes 0 QType.A 4 (mkD [93; 184; 216; 34] ∅ [])
     = Ok (RDATA.IPV4 [93; 184; 216; 34], mkD [] ∅ []) /\
   length [93; 184; 216; 34] = (length (@nil Z) + Z.to_nat 4)%nat) /\
  (rdata_from_bytes 0 QType.TXT 10 (mkD [2; 104; 105] ∅ []) = Ok (RDATA.TXT "hi", mkD [] ∅ []) /\
   length [104; 105] = (length (@nil Z) + Z.to_nat 2)%nat) /\
  ((QType.MX <> QType.A /\ QType.MX <> QType.AAAA) /\
   rdata_from_bytes 0 QType.MX 0 (mkD [0; 10; 1; 97; 0] ∅ [])
   = rdata_from_bytes 0 QType.MX 700 (mkD [0; 10; 1; 97; 0] ∅ [])) /\
  ((["mail"; "example"; "com"]%string <> [] /\
    Forall label_ok ["mail"; "example"; "com"]%string /\ 0 <= 10 < 65536) /\
   exists nds' H',
     rdata_from_bytes 0 QType.MX 0
       (mkD (write_u16 10 ++ flat_map label_to_bytes ["mail"; "example"; "com"]%string ++ 0 :: [])
            ∅ [])
     = Ok (RDATA.MX 10 (dotted (map read_back ["mail"; "example"; "com"]%string)),
           mkD [] nds' H')).
Proof.
  assert (Hok : Forall label_ok ["mail"; "example"; "com"]%string).
  { repeat (constructor; [unfold label_ok; cbn; lia|]). constructor. }
  split; [|split; [|split]].
  - split; [left; reflexivity|]. split; [reflexivity|].
    apply (proj1 rdata_consumption 0%nat QType.A 4 (mkD [93; 184; 216; 34] ∅ [])
             (RDATA.IPV4 [93; 184; 216; 34]) (mkD [] ∅ [])); [left; reflexivity | reflexivity].
  - split; [reflexivity|].
    apply (proj1 (proj2 rdata_consumption) 0%nat 10 2 [104; 105] ∅ [] (RDATA.TXT "hi")
             (mkD [] ∅ [])).
    reflexivity.
  - split; [split; discriminate|].
    apply (proj1 (proj2 (proj2 rdata_consumption))); discriminate.
  - split; [split; [discriminate | split; [exact Hok | lia]]|].
    exact (proj1 (proj1 (proj2 (proj2 (proj2 rdata_consumption)))
                    0%nat 0 10 ["mail"; "example"; "com"]%string [] ∅ []
                    ltac:(discriminate) Hok ltac:(lia))).
Defined.

(** ** Reading back what Display writes *)

Definition is_digit_char (c : ascii) : bool :=
  let n := nat_of_ascii c in ((48 <=? n) && (n <=? 57))%nat || ((97 <=? n) && (n <=? 102))%nat.

Fixpoint str_all (p : ascii -> bool) (s : string) : bool :=
  match s with
  | EmptyString => true
  | String c s' => p c && str_all p s'
  end.

Definition digit_val (c : ascii) : Z :=
  let n := Z.of_nat (nat_of_ascii c) in if n <=? 57 then n - 48 else n - 87.

(** The number a digit string denotes, read most significant first. *)
Fixpoint undigits (base v : Z) (s : string) : Z :=
  match s with
  | EmptyString => v
  | String c s' => undigits base (v * base + digit_val c) s'
  end.

Fixpoint count_char (c : ascii) (s : string) : nat :=
  match s with
  | EmptyString => O
  | String d s' => ((if Ascii.eqb c d then 1 else 0) + count_char c s')%nat
  end.

Lemma str_app_assoc (s t u : string) : ((s ++ t) ++ u = s ++ t ++ u)%string.
Proof. induction s as [|c s IH]; [reflexivity|]. rewrite !append_cons, IH. reflexivity. Qed.

Lemma str_app_cancel_l (s t1 t2 : string) : (s ++ t1 = s ++ t2)%string -> t1 = t2.
Proof. induction s as [|c s IH]; [auto|]. rewrite !append_cons. intros [= H]. auto. Qed.

Lemma str_all_app (p : ascii -> bool) (s t : string) :
  str_all p (s ++ t) = str_all p s && str_all p t.
Proof.
  induction s as [|c s IH]; [reflexivity|]. rewrite append_cons. cbn [str_all].
  rewrite IH. apply andb_assoc.
Qed.

Lemma undigits_app (b v : Z) (s t : string) :
  undigits b v (s ++ t) = undigits b (undigits b v s) t.
Proof.
  revert v; induction s as [|c s IH]; intros v; [reflexivity|].
  rewrite append_cons. cbn [undigits]. apply IH.
Qed.

Lemma count_char_app (c : ascii) (s t : string) :
  count_char c (s ++ t) = (count_char c s + count_char c t)%nat.
Proof.
  induction s as [|d s IH]; [reflexivity|]. rewrite append_cons. cbn [count_char].
  rewrite IH. lia.
Qed.

Lemma count_char_digits (c : ascii) (s : string) :
  is_digit_char c = false -> str_all is_digit_char s = true -> count_char c s = O.
Proof.
  intros Hc. induction s as [|d s IH]; [reflexivity|]. cbn [str_all count_char].
  intros [Hd Hs]%andb_prop. rewrite IH by exact Hs.
  destruct (Ascii.eqb_spec c d) as [->|]; [congruence | reflexivity].
Qed.

Lemma digit_char_ok (d : Z) :
  0 <= d < 16 -> is_digit_char (digit_char d) = true /\ digit_val (digit_char d) = d.
Proof.
  intros Hd. assert (Hk : exists k, (k < 16)%nat /\ d = Z.of_nat k)
    by (exists (Z.to_nat d); lia).
  destruct Hk as [k [Hk ->]].
  do 16 (destruct k as [|k]; [split; reflexivity|]). lia.
Qed.

Lemma digits_fuel_app (f : nat) (b n : Z) (acc : string) :
  digits_fuel f b n acc = (digits_fuel f b n "" ++ acc)%string.
Proof.
  revert n acc; induction f as [|f IH]; intros n acc; [reflexivity|].
  cbn [digits_fuel]. destruct (n <? b); [reflexivity|].
  rewrite IH, (IH _ (String _ "")), str_app_assoc. reflexivity.
Qed.

Lemma log2_div_lt (n b : Z) :
  2 <= b -> b <= n -> Z.log2 (n / b) < Z.log2 n.
Proof.
  intros Hb Hn.
  assert (Hle : n / b <= n / 2) by (apply Z.div_le_compat_l; lia).
  assert (H1 : 1 <= n / b) by (apply Z.div_le_lower_bound; lia).
  assert (Hs : n / 2 = Z.shiftr n 1) by (rewrite Z.shiftr_div_pow2 by lia; reflexivity).
  pose proof (Z.log2_le_mono _ _ Hle) as Hm. rewrite Hs, Z.log2_shiftr in Hm by lia.
  assert (0 < Z.log2 n) by (apply Z.log2_pos; lia). lia.
Qed.

Lemma digits_fuel_ok (f : nat) (b n : Z) :
  2 <= b <= 16 -> 0 <= n -> (Z.to_nat (Z.log2 n) < f)%nat ->
  undigits b 0 (digits_fuel f b n "") = n /\ str_all is_digit_char (digits_fuel f b n "") = true.
Proof.
  revert n; induction f as [|f IH]; intros n Hb Hn Hf; [lia|].
  cbn [digits_fuel].
  destruct (digit_char_ok (n mod b)) as [Hd1 Hd2];
    [pose proof (Z.mod_pos_bound n b ltac:(lia)); lia|].
  destruct (Z.ltb_spec n b) as [Hlt | Hge].
  - cbn [undigits str_all]. rewrite Hd1, Hd2, Z.mod_small by lia. split; [lia | reflexivity].
  - assert (Hlog : Z.log2 (n / b) < Z.log2 n) by (apply log2_div_lt; lia).
    destruct (IH (n / b)) as [IH1 IH2];
      [lia | apply Z.div_pos; lia | pose proof (Z.log2_nonneg (n / b)); lia |].
    rewrite digits_fuel_app, undigits_app, str_all_app, IH1, IH2. cbn [undigits str_all].
    rewrite Hd1, Hd2. split; [|reflexivity].
    pose proof (Z.div_mod n b ltac:(lia)). lia.
Qed.

Lemma dec_ok (n : Z) :
  0 <= n -> undigits 10 0 (dec n) = n /\ str_all is_digit_char (dec n) = true.
Proof. intros Hn. apply digits_fuel_ok; lia. Qed.

Lemma hex_ok (n : Z) :
  0 <= n -> undigits 16 0 (hex n) = n /\ str_all is_digit_char (hex n) = true.
Proof. intros Hn. apply digits_fuel_ok; lia. Qed.

(** Two digit strings followed by the same non-digit separator. *)
Lemma split_at_sep (x y t1 t2 : string) (c : ascii) :
  str_all is_digit_char x = true -> str_all is_digit_char y = true ->
  is_digit_char c = false ->
  (x ++ String c t1 = y ++ String c t2)%string -> x = y /\ t1 = t2.
Proof.
  intros Hx Hy Hc. revert y Hy; induction x as [|d x IH]; intros [|e y] Hy Heq.
  - injection Heq as ->. split; reflexivity.
  - rewrite append_cons in Heq. injection Heq as <- _.
    cbn [str_all] in Hy. rewrite Hc in Hy. discriminate.
  - rewrite append_cons in Heq. injection Heq as -> _.
    cbn [str_all] in Hx. rewrite Hc in Hx. discriminate.
  - rewrite !append_cons in Heq. injection Heq as <- Heq.
    cbn [str_all] in Hx, Hy. apply andb_prop in Hx as [_ Hx]. apply andb_prop in Hy as [_ Hy].
    destruct (IH Hx y Hy Heq) as [-> ->]. split; reflexivity.
Qed.

Lemma dec_sep_inj (a b : Z) (c : ascii) (t1 t2 : string) :
  0 <= a -> 0 <= b -> is_digit_char c = false ->
  (dec a ++ String c t1 = dec b ++ String c t2)%string -> a = b /\ t1 = t2.
Proof.
  intros Ha Hb Hc Heq. destruct (dec_ok a Ha) as [Ha1 Ha2]. destruct (dec_ok b Hb) as [Hb1 Hb2].
  destruct (split_at_sep _ _ _ _ _ Ha2 Hb2 Hc Heq) as [Hd ->].
  split; [|reflexivity]. rewrite <- Ha1, <- Hb1, Hd. reflexivity.
Qed.

Lemma hex_sep_inj (a b : Z) (c : ascii) (t1 t2 : string) :
  0 <= a -> 0 <= b -> is_digit_char c = false ->
  (hex a ++ String c t1 = hex b ++ String c t2)%string -> a = b /\ t1 = t2.
Proof.
  intros Ha Hb Hc Heq. destruct (hex_ok a Ha) as [Ha1 Ha2]. destruct (hex_ok b Hb) as [Hb1 Hb2].
  destruct (split_at_sep _ _ _ _ _ Ha2 Hb2 Hc Heq) as [Hd ->].
  split; [|reflexivity]. rewrite <- Ha1, <- Hb1, Hd. reflexivity.
Qed.

Lemma line_dec_inj (label : string) (a b : Z) (t1 t2 : string) :
  (line label (dec a) ++ t1 = line label (dec b) ++ t2)%string -> 0 <= a -> 0 <= b ->
  a = b /\ t1 = t2.
Proof.
  intros Heq Ha Hb. unfold line in Heq. rewrite !str_app_assoc in Heq.
  apply str_app_cancel_l, str_app_cancel_l in Heq.
  unfold nl in Heq. rewrite !append_cons in Heq.
  exact (dec_sep_inj a b (ascii_of_nat 10) _ _ Ha Hb eq_refl Heq).
Qed.

(** The eight flag fields of [Header]'s Display, weighted by their bit
    positions. OPCODE is masked with [0x7], three bits, so bit 14 is in no
    field. *)
Definition flags_recon (f : Z) : Z :=
  Z.shiftr f 15 * 32768 + Z.land (Z.shiftr f 11) 0x7 * 2048
  + Z.land (Z.shiftr f 10) 0x1 * 1024 + Z.land (Z.shiftr f 9) 0x1 * 512
  + Z.land (Z.shiftr f 8) 0x1 * 256 + Z.land (Z.shiftr f 7) 0x1 * 128
  + Z.land (Z.shiftr f 4) 0x7 * 16 + Z.land f 0xF.

Definition flag_fields (f : Z) : list Z :=
  [Z.shiftr f 15; Z.land (Z.shiftr f 11) 0x7; Z.land (Z.shiftr f 10) 0x1;
   Z.land (Z.shiftr f 9) 0x1; Z.land (Z.shiftr f 8) 0x1; Z.land (Z.shiftr f 7) 0x1;
   Z.land (Z.shiftr f 4) 0x7; Z.land f 0xF].

Definition flags_check (f : Z) : bool :=
  (flags_recon f =? Z.land f 0xBFFF) &&
  bool_decide (flag_fields f = flag_fields (Z.land f 0xBFFF)).

(** [flags_check] on the [2 ^ k] values from [base] on, split in halves. *)
Fixpoint check_block (k : nat) (base : Z) : bool :=
  match k with
  | O => flags_check base
  | S k' => check_block k' base && check_block k' (base + 2 ^ Z.of_nat k')
  end.

Lemma check_block_sound (k : nat) :
  forall base f, check_block k base = true -> base <= f < base + 2 ^ Z.of_nat k ->
  flags_check f = true.
Proof.
  induction k as [|k IH]; intros base f Hc Hf.
  - cbn in Hf. replace f with base by lia. exact Hc.
  - cbn [check_block] in Hc. apply andb_prop in Hc as [H1 H2].
    rewrite Nat2Z.inj_succ, Z.pow_succ_r in Hf by lia.
    destruct (Z.lt_ge_cases f (base + 2 ^ Z.of_nat k)).
    + apply (IH base); [exact H1 | lia].
    + apply (IH (base + 2 ^ Z.of_nat k)); [exact H2 | lia].
Qed.

Lemma flags_check_all : check_block 16 0 = true.
Proof. vm_compute. reflexivity. Qed.

Lemma flags_check_ok (f : Z) :
  0 <= f < 65536 ->
  flags_recon f = Z.land f 0xBFFF /\ flag_fields f = flag_fields (Z.land f 0xBFFF).
Proof.
  intros Hf. pose proof (check_block_sound 16 0 f flags_check_all ltac:(cbn; lia)) as Hall.
  unfold flags_check in Hall.
  apply andb_prop in Hall as [H1 H2]. split; [apply Z.eqb_eq, H1|].
  apply bool_decide_eq_true in H2. exact H2.
Qed.

(** The fields of a [Header] are [u16]. *)
Definition header_u16 (h : Header) : Prop :=
  0 <= id h < 65536 /\ 0 <= flags h < 65536 /\ 0 <= qdcount h < 65536 /\
  0 <= ancount h < 65536 /\ 0 <= nscount h < 65536 /\ 0 <= arcount h < 65536.

Ltac field_nonneg :=
  first [ lia | apply Z.shiftr_nonneg; lia | apply Z.land_nonneg; right; lia ].

Ltac peel_line H :=
  lazymatch type of H with
  | (line ?l (dec ?a) ++ _ = line ?l (dec ?b) ++ _)%string =>
      let Hx := fresh "Hx" in let E := fresh "E" in
      pose proof (line_dec_inj l a b _ _ H) as Hx;
      specialize (Hx ltac:(field_nonneg) ltac:(field_nonneg));
      clear H; destruct Hx as [E H]
  | line ?l (dec ?a) = line ?l (dec ?b) =>
      let H' := fresh "H" in
      assert (H' : (line l (dec a) ++ "" = line l (dec b) ++ "")%string)
        by (rewrite !append_empty_r; exact H);
      clear H; peel_line H'
  end.

(** [Header]'s Display prints OPCODE as [(flags >> 11) & 0x7], three bits,
    so bit 14 of the flags word is never shown; every other bit is. Two
    headers with [u16] fields print the same text exactly when they agree
    on the id, the four counts and every flags bit except bit 14. *)
Theorem header_fmt_hides_bit14 (h1 h2 : Header) :
  header_u16 h1 -> header_u16 h2 ->
  (header_fmt h1 = header_fmt h2 <->
   id h1 = id h2 /\ Z.land (flags h1) 0xBFFF = Z.land (flags h2) 0xBFFF /\
   qdcount h1 = qdcount h2 /\ ancount h1 = ancount h2 /\
   nscount h1 = nscount h2 /\ arcount h1 = arcount h2).
Proof.
  destruct h1 as [i1 f1 q1 a1 n1 r1], h2 as [i2 f2 q2 a2 n2 r2].
  unfold header_u16; cbn [id flags qdcount ancount nscount arcount].
  intros (Hi1 & Hf1 & Hq1 & Ha1 & Hn1 & Hr1) (Hi2 & Hf2 & Hq2 & Ha2 & Hn2 & Hr2).
  destruct (flags_check_ok f1 Hf1) as [Hrec1 Hfld1].
  destruct (flags_check_ok f2 Hf2) as [Hrec2 Hfld2].
  split.
  - intros H. unfold header_fmt in H; cbn [id flags qdcount ancount nscount arcount] in H.
    do 13 peel_line H.
    rewrite <- Hrec1, <- Hrec2. unfold flags_recon.
    repeat split; congruence.
  - intros (-> & Hf & -> & -> & -> & ->).
    assert (Hfld : flag_fields f1 = flag_fields f2) by congruence.
    unfold flag_fields in Hfld.
    injection Hfld as E1 E2 E3 E4 E5 E6 E7 E8.
    unfold header_fmt; cbn [id flags qdcount ancount nscount arcount].
    rewrite E1, E2, E3, E4, E5, E6, E7, E8. reflexivity.
Qed.

Lemma header_fmt_hides_bit14_witness :
  (header_u16 (mkHeader 7 0x4100 1 0 0 0) /\ header_u16 (mkHeader 7 0x0100 1 0 0 0)) /\
  (header_fmt (mkHeader 7 0x4100 1 0 0 0) = header_fmt (mkHeader 7 0x0100 1 0 0 0) <->
   id (mkHeader 7 0x4100 1 0 0 0) = id (mkHeader 7 0x0100 1 0 0 0) /\
   Z.land (flags (mkHeader 7 0x4100 1 0 0 0)) 0xBFFF
   = Z.land (flags (mkHeader 7 0x0100 1 0 0 0)) 0xBFFF /\
   qdcount (mkHeader 7 0x4100 1 0 0 0) = qdcount (mkHeader 7 0x0100 1 0 0 0) /\
   ancount (mkHeader 7 0x4100 1 0 0 0) = ancount (mkHeader 7 0x0100 1 0 0 0) /\
   nscount (mkHeader 7 0x4100 1 0 0 0) = nscount (mkHeader 7 0x0100 1 0 0 0) /\
   arcount (mkHeader 7 0x4100 1 0 0 0) = arcount (mkHeader 7 0x0100 1 0 0 0)).
Proof.
  assert (H1 : header_u16 (mkHeader 7 0x4100 1 0 0 0)) by (unfold header_u16; cbn; lia).
  assert (H2 : header_u16 (mkHeader 7 0x0100 1 0 0 0)) by (unfold header_u16; cbn; lia).
  split; [split; assumption|].
  exact (header_fmt_hides_bit14 _ _ H1 H2).
Defined.

(** ** Reading back the addresses of [RDATA]'s Display *)

Lemma digits_fuel_digits (f : nat) (b n : Z) :
  0 < b <= 16 -> str_all is_digit_char (digits_fuel f b n "") = true.
Proof.
  intros Hb. revert n; induction f as [|f IH]; intros n; [reflexivity|].
  cbn [digits_fuel].
  destruct (digit_char_ok (n mod b)) as [Hd _];
    [pose proof (Z.mod_pos_bound n b ltac:(lia)); lia|].
  destruct (n <? b).
  - cbn [str_all]. rewrite Hd. reflexivity.
  - rewrite digits_fuel_app, str_all_app, IH. cbn [str_all]. rewrite Hd. reflexivity.
Qed.

Lemma hex_digits (n : Z) : str_all is_digit_char (hex n) = true.
Proof. apply digits_fuel_digits; lia. Qed.

Definition ipv6_char (c : ascii) : bool := is_digit_char c || Ascii.eqb c ":".

Lemma str_all_impl (p q : ascii -> bool) (s : string) :
  (forall c, p c = true -> q c = true) -> str_all p s = true -> str_all q s = true.
Proof.
  intros Hpq. induction s as [|c s IH]; [reflexivity|]. cbn [str_all].
  intros [Hc Hs]%andb_prop. rewrite Hpq, IH by assumption. reflexivity.
Qed.

Lemma hex_ipv6_chars (n : Z) : str_all ipv6_char (hex n) = true.
Proof.
  apply (str_all_impl is_digit_char); [|apply hex_digits].
  intros c Hc. unfold ipv6_char. rewrite Hc. reflexivity.
Qed.

Lemma ipv6_groups_shape (i k : nat) (ip : list Z) :
  count_char ":" (ipv6_groups (S i) k ip) = k /\
  str_all ipv6_char (ipv6_groups (S i) k ip) = true.
Proof.
  revert i; induction k as [|k IH]; intros i; [split; reflexivity|].
  cbn [ipv6_groups]. destruct (IH (S i)) as [IH1 IH2].
  change ((if (S i =? 0)%nat then EmptyString else ":") ++ ?x)%string
    with (String ":" x).
  cbn [count_char str_all]. rewrite count_char_app, str_all_app, IH1, IH2, hex_ipv6_chars.
  rewrite (count_char_digits ":" _ eq_refl (hex_digits _)). split; reflexivity.
Qed.

Lemma byte_pair_inj (a b c d : Z) :
  0 <= a -> 0 <= b < 256 -> 0 <= c -> 0 <= d < 256 ->
  Z.lor (Z.shiftl a 8) b = Z.lor (Z.shiftl c 8) d -> a = c /\ b = d.
Proof.
  intros Ha Hb Hc Hd. rewrite !lor_shiftl_low by (change (2 ^ 8) with 256; lia).
  change (2 ^ 8) with 256. lia.
Qed.

Lemma byte_pair_nonneg (a b : Z) : 0 <= a -> 0 <= b < 256 -> 0 <= Z.lor (Z.shiftl a 8) b.
Proof.
  intros Ha Hb. rewrite lor_shiftl_low by (change (2 ^ 8) with 256; lia). lia.
Qed.

Lemma list_of_length4 (l : list Z) :
  length l = 4%nat -> exists a b c d, l = [a; b; c; d].
Proof.
  intros H. do 4 (destruct l as [|? l]; [discriminate|]).
  destruct l; [|discriminate]. eauto 10.
Qed.

Lemma list_of_length16 (l : list Z) :
  length l = 16%nat ->
  exists b0 b1 b2 b3 b4 b5 b6 b7 b8 b9 b10 b11 b12 b13 b14 b15,
    l = [b0; b1; b2; b3; b4; b5; b6; b7; b8; b9; b10; b11; b12; b13; b14; b15].
Proof.
  intros H. do 16 (destruct l as [|? l]; [discriminate|]).
  destruct l; [|discriminate]. eauto 20.
Qed.

Ltac peel_sep H :=
  lazymatch type of H with
  | (dec ?a ++ String ?c ?t1 = dec ?b ++ String ?c ?t2)%string =>
      let Hx := fresh "Hx" in let E := fresh "E" in
      pose proof (dec_sep_inj a b c t1 t2) as Hx;
      specialize (Hx ltac:(lia) ltac:(lia) eq_refl H);
      clear H; destruct Hx as [E H]
  | (hex ?a ++ String ?c ?t1 = hex ?b ++ String ?c ?t2)%string =>
      let Hx := fresh "Hx" in let E := fresh "E" in
      pose proof (hex_sep_inj a b c t1 t2) as Hx;
      specialize (Hx ltac:(apply byte_pair_nonneg; lia) ltac:(apply byte_pair_nonneg; lia)
                     eq_refl H);
      clear H; destruct Hx as [E H]
  end.

Ltac forall_cons_bounds :=
  repeat match goal with H : Forall _ (_ :: _) |- _ => inversion_clear H end.

Lemma ipv4_fmt_shape (a b c d : Z) :
  rdata_fmt (RDATA.IPV4 [a; b; c; d]) =
  (dec a ++ String "." (dec b ++ String "." (dec c ++ String "."
    (dec d ++ String (ascii_of_nat 10) ""))))%string.
Proof. reflexivity. Qed.

Lemma ipv6_fmt_shape (l : list Z) :
  rdata_fmt (RDATA.IPV6 l) =
  (hex (Z.lor (Z.shiftl (nth 0 l 0) 8) (nth 1 l 0)) ++ ipv6_groups 1 7 l)%string.
Proof. reflexivity. Qed.

(** The IPv4 arm of [RDATA]'s Display writes the four bytes in decimal,
    separated by dots and followed by a newline: distinct addresses print
    distinct text. *)
Theorem ipv4_fmt_injective (ip1 ip2 : list Z) :
  length ip1 = 4%nat -> length ip2 = 4%nat ->
  Forall (fun b => 0 <= b) ip1 -> Forall (fun b => 0 <= b) ip2 ->
  rdata_fmt (RDATA.IPV4 ip1) = rdata_fmt (RDATA.IPV4 ip2) -> ip1 = ip2.
Proof.
  intros L1 L2 F1 F2 H.
  destruct (list_of_length4 _ L1) as (a1 & b1 & c1 & d1 & ->).
  destruct (list_of_length4 _ L2) as (a2 & b2 & c2 & d2 & ->).
  forall_cons_bounds.
  rewrite !ipv4_fmt_shape in H.
  do 4 peel_sep H. subst. reflexivity.
Qed.

Lemma ipv4_fmt_injective_witness :
  length [10; 0; 0; 1] = 4%nat /\ length [10; 0; 0; 1] = 4%nat /\
  Forall (fun b => 0 <= b) [10; 0; 0; 1] /\ Forall (fun b => 0 <= b) [10; 0; 0; 1] /\
  rdata_fmt (RDATA.IPV4 [10; 0; 0; 1]) = rdata_fmt (RDATA.IPV4 [10; 0; 0; 1]) /\
  [10; 0; 0; 1] = [10; 0; 0; 1].
Proof.
  assert (F : Forall (fun b => 0 <= b) [10; 0; 0; 1]) by (repeat constructor; lia).
  split; [reflexivity|]. split; [reflexivity|]. split; [exact F|]. split; [exact F|].
  split; [reflexivity|].
  exact (ipv4_fmt_injective [10; 0; 0; 1] [10; 0; 0; 1] eq_refl eq_refl F F eq_refl).
Defined.

(** The IPv6 arm writes all eight 16-bit groups in lowercase hex joined by
    [:], with no [::] run compression and no newline: the text is hex
    digits and exactly seven colons, whatever the bytes. *)
Theorem ipv6_fmt_eight_groups (ip : list Z) :
  count_char ":" (rdata_fmt (RDATA.IPV6 ip)) = 7%nat /\
  str_all ipv6_char (rdata_fmt (RDATA.IPV6 ip)) = true.
Proof.
  rewrite ipv6_fmt_shape, count_char_app, str_all_app, hex_ipv6_chars.
  destruct (ipv6_groups_shape 0 7 ip) as [H1 H2]. rewrite H1, H2.
  rewrite (count_char_digits ":" _ eq_refl (hex_digits _)). split; reflexivity.
Qed.

Lemma ipv6_fmt_unfold (b0 b1 b2 b3 b4 b5 b6 b7 b8 b9 b10 b11 b12 b13 b14 b15 : Z) :
  rdata_fmt (RDATA.IPV6 [b0; b1; b2; b3; b4; b5; b6; b7; b8; b9; b10; b11; b12; b13; b14; b15])
  = (hex (Z.lor (Z.shiftl b0 8) b1) ++ String ":" (hex (Z.lor (Z.shiftl b2 8) b3) ++
     String ":" (hex (Z.lor (Z.shiftl b4 8) b5) ++ String ":" (hex (Z.lor (Z.shiftl b6 8) b7) ++
     String ":" (hex (Z.lor (Z.shiftl b8 8) b9) ++ String ":" (hex (Z.lor (Z.shiftl b10 8) b11) ++
     String ":" (hex (Z.lor (Z.shiftl b12 8) b13) ++ String ":" (hex (Z.lor (Z.shiftl b14 8) b15)
     ++ ""))))))))%string.
Proof. reflexivity. Qed.

(** For sixteen bytes, as the AAAA arm of [Answer::from_bytes] reads them,
    distinct addresses print distinct text. *)
Theorem ipv6_fmt_injective (ip1 ip2 : list Z) :
  length ip1 = 16%nat -> length ip2 = 16%nat ->
  Forall (fun b => 0 <= b < 256) ip1 -> Forall (fun b => 0 <= b < 256) ip2 ->
  rdata_fmt (RDATA.IPV6 ip1) = rdata_fmt (RDATA.IPV6 ip2) -> ip1 = ip2.
Proof.
  intros L1 L2 F1 F2 H.
  destruct (list_of_length16 _ L1)
    as (a0 & a1 & a2 & a3 & a4 & a5 & a6 & a7 & a8 & a9 & a10 & a11 & a12 & a13 & a14 & a15 & ->).
  destruct (list_of_length16 _ L2)
    as (c0 & c1 & c2 & c3 & c4 & c5 & c6 & c7 & c8 & c9 & c10 & c11 & c12 & c13 & c14 & c15 & ->).
  forall_cons_bounds.
  rewrite !ipv6_fmt_unfold in H.
  do 7 peel_sep H.
  rewrite !append_empty_r in H.
  pose proof (hex_ok _ (byte_pair_nonneg a14 a15 ltac:(lia) ltac:(lia))) as [Ha _].
  pose proof (hex_ok _ (byte_pair_nonneg c14 c15 ltac:(lia) ltac:(lia))) as [Hc _].
  rewrite H, Hc in Ha.
  repeat match goal with
         | E : Z.lor (Z.shiftl _ 8) _ = Z.lor (Z.shiftl _ 8) _ |- _ =>
             apply byte_pair_inj in E as [? ?]; [|lia..]
         end.
  subst. reflexivity.
Qed.

Lemma ipv6_fmt_injective_witness :
  let ip := [0x20; 0x01; 0x0d; 0xb8; 0; 0; 0; 0; 0; 0; 0; 0; 0; 0; 0; 1] in
  length ip = 16%nat /\ Forall (fun b => 0 <= b < 256) ip /\
  rdata_fmt (RDATA.IPV6 ip) = rdata_fmt (RDATA.IPV6 ip) /\ ip = ip.
Proof.
  intros ip.
  assert (F : Forall (fun b => 0 <= b < 256) ip) by (repeat constructor; lia).
  split; [reflexivity|]. split; [exact F|]. split; [reflexivity|].
  exact (ipv6_fmt_injective ip ip eq_refl eq_refl F F eq_refl).
Defined.

(** ** Names and codes of [QType] and [QClass] *)

(** [QType::from_str] and [QClass::from_str] accept exactly the names that
    the derived [Debug] prints (as [Question]'s Display shows them), case
    included, and give back that variant; any other string is rejected with
    an error that carries the string. *)
Theorem from_str_accepts_debug_names :
  (forall s t, QType.from_str s = Ok t <-> s = qtype_debug t) /\
  (forall s, QType.from_str s = Err (ParseQTypeError s) \/
             exists t, s = qtype_debug t /\ QType.from_str s = Ok t) /\
  (forall s c, QClass.from_str s = Ok c <-> s = qclass_debug c) /\
  (forall s, QClass.from_str s = Err (ParseQClassError s) \/
             exists c, s = qclass_debug c /\ QClass.from_str s = Ok c).
Proof.
  split; [|split; [|split]].
  - intros s t. split.
    + unfold QType.from_str.
      repeat match goal with
             | |- (if String.eqb ?a ?b then _ else _) = _ -> _ =>
                 destruct (String.eqb_spec a b) as [->|]
             end; intros Hs; inversion Hs; reflexivity.
    + intros ->. destruct t; reflexivity.
  - intros s. unfold QType.from_str.
    repeat match goal with
           | |- context [if String.eqb ?a ?b then _ else _] =>
               destruct (String.eqb_spec a b) as [->|]
           end;
      first [left; reflexivity | right; eexists; split; [|reflexivity]; reflexivity].
  - intros s c. split.
    + unfold QClass.from_str.
      repeat match goal with
             | |- (if String.eqb ?a ?b then _ else _) = _ -> _ =>
                 destruct (String.eqb_spec a b) as [->|]
             end; intros Hs; inversion Hs; reflexivity.
    + intros ->. destruct c; reflexivity.
  - intros s. unfold QClass.from_str.
    repeat match goal with
           | |- context [if String.eqb ?a ?b then _ else _] =>
               destruct (String.eqb_spec a b) as [->|]
           end;
      first [left; reflexivity | right; eexists; split; [|reflexivity]; reflexivity].
Qed.

(** [QType::from_u16] and [QClass::from_u16] accept exactly the enum
    discriminants that [to_bytes] writes ([self as u16]), each giving back
    its own variant. *)
Theorem from_u16_accepts_discriminants :
  (forall v t, QType.from_u16 v = Ok t <-> QType.to_u16 t = v) /\
  (forall v c, QClass.from_u16 v = Ok c <-> QClass.to_u16 c = v).
Proof.
  split; intros v t; split.
  - unfold QType.from_u16.
    repeat match goal with
           | |- (if Z.eqb ?a ?b then _ else _) = _ -> _ =>
               destruct (Z.eqb_spec a b) as [->|]
           end; intros Hs; inversion Hs; reflexivity.
  - intros <-. exact (proj2 (qtype_u16_roundtrip t)).
  - unfold QClass.from_u16.
    repeat match goal with
           | |- (if Z.eqb ?a ?b then _ else _) = _ -> _ =>
               destruct (Z.eqb_spec a b) as [->|]
           end; intros Hs; inversion Hs; reflexivity.
  - intros <-. exact (proj2 (qclass_u16_roundtrip t)).
Qed.

(** ** Names ending in a compression pointer *)

Lemma full_label_ext (G G' : list node) (n : nat) (s : string) :
  full_label G n s -> (forall i, (i < length G)%nat -> G' !! i = G !! i) -> full_label G' n s.
Proof.
  intros Hfl Hag. induction Hfl as [n nd Hn Hnx | n nd m s Hn Hnx Hfl IH].
  - apply full_label_last; [|exact Hnx].
    rewrite Hag by (eapply lookup_lt_Some; exact Hn). exact Hn.
  - eapply full_label_next; [| exact Hnx | exact IH].
    rewrite Hag by (eapply lookup_lt_Some; exact Hn). exact Hn.
Qed.

(** Pointing the last node of a chain at a node with a full label. *)
Lemma chain_ptr_full (G : list node) (hd p t : nat) (ls : list string) (ndp : node)
      (s : string) :
  chain_to G hd p ls -> G !! p = Some ndp -> next ndp = None ->
  full_label (alter (fun nd => mkNode (label nd) (Some t)) p G) t s ->
  full_label (alter (fun nd => mkNode (label nd) (Some t)) p G) hd (dotted ls ++ s).
Proof.
  intros Hc Hp Hpx Ht.
  induction Hc as [n nd Hn | n nd m q ls Hn Hnx Hc IH].
  - rewrite Hn in Hp. injection Hp as <-.
    cbn [dotted]. rewrite append_empty_r, str_app_assoc.
    apply (full_label_next _ n (mkNode (label nd) (Some t)) t s); [|reflexivity|exact Ht].
    rewrite list_lookup_alter, decide_True by reflexivity. rewrite Hn. reflexivity.
  - cbn [dotted]. rewrite !str_app_assoc.
    apply (full_label_next _ n nd m); [|exact Hnx|].
    + rewrite list_lookup_alter_ne; [exact Hn|]. intros ->. congruence.
    + apply IH; assumption.
Qed.

(** The loop over the labels [ls], continued on whatever follows them:
    the chain grows, the nodes that were there before are untouched, and
    the table keeps its entries below [index]. *)
Lemma loop_labels_prefix (H0 : list node) (ls : list string) :
  forall (f index : nat) (head prev : option nat) (done : list string) (rest : list Z)
         (nds : gmap nat nat) (H : list node),
  Forall label_ok ls -> loop_inv H head prev done ->
  (forall p, prev = Some p -> (length H0 <= p)%nat) -> (length H0 <= length H)%nat ->
  (forall i, (i < length H0)%nat -> H !! i = H0 !! i) ->
  exists index' head' prev' nds' H',
    read_label_loop (length ls + f) index head prev
      (mkD (flat_map label_to_bytes ls ++ rest) nds H)
    = read_label_loop f index' head' prev' (mkD rest nds' H') /\
    loop_inv H' head' prev' (done ++ map read_back ls) /\
    (forall p, prev' = Some p -> (length H0 <= p)%nat) /\ (length H0 <= length H')%nat /\
    (forall i, (i < length H0)%nat -> H' !! i = H0 !! i) /\
    (forall k, (k < index)%nat -> nds' !! k = nds !! k).
Proof.
  induction ls as [|l ls IH]; intros f index head prev done rest nds H Hok Hinv Hp HlH Hag.
  - exists index, head, prev, nds, H. rewrite app_nil_r. repeat split; auto.
  - apply Forall_cons in Hok as [Hl Hok].
    cbn [flat_map length]. rewrite <- app_assoc.
    change (S (length ls) + f)%nat with (S (length ls + f)).
    rewrite loop_step_label by exact Hl.
    pose proof (loop_inv_snoc H head prev done (read_back l) Hinv) as Hinv'.
    assert (Hlen : length (link prev (length H) (H ++ [mkNode (read_back l) None])) = S (length H)).
    { destruct prev; cbn [link]; [rewrite length_alter|]; rewrite length_app; cbn; lia. }
    destruct (IH f (index + 1 + String.length l)%nat _ (Some (length H)) _ rest
                 (<[index := length H]> nds) _ Hok Hinv')
      as (index' & head' & prev' & nds' & H' & Hl' & Hi & Hp' & HlH' & Hag' & Hk');
      [intros p [= <-]; exact HlH | lia | |].
    + intros i Hi. destruct prev as [p|]; cbn [link].
      * rewrite list_lookup_alter_ne by (specialize (Hp p eq_refl); lia).
        rewrite lookup_app_l by lia. apply Hag. exact Hi.
      * rewrite lookup_app_l by lia. apply Hag. exact Hi.
    + exists index', head', prev', nds', H'. rewrite <- app_assoc in Hi.
      repeat split; auto.
      intros k Hk. rewrite Hk' by lia. apply lookup_insert_ne. lia.
Qed.

(** Suffix compression: a name written as labels followed by a pointer to
    an earlier offset registered in the table decodes to those labels, each
    followed by a dot, and then the full name stored at the target (for
    instance [3 'www' C0 0C] with [example.com.] at offset 12 gives
    [www.example.com.]). The labels do not disturb the target, whose
    nodes were built before. *)
Theorem suffix_pointer_name (ls : list string) (index : nat) (hi lo : Z) (rest : list Z)
        (nds : gmap nat nat) (H : list node) (t : nat) (s : string) :
  ls <> [] -> Forall label_ok ls -> Z.land hi 0xC0 = 0xC0 ->
  (pointer_offset hi lo < index)%nat -> nds !! pointer_offset hi lo = Some t ->
  full_label H t s ->
  exists nds' H',
    read_label index (mkD (flat_map label_to_bytes ls ++ hi :: lo :: rest) nds H)
    = Ok (dotted (map read_back ls) ++ s, mkD rest nds' H')%string.
Proof.
  intros Hne Hok Hc Hlt Hnt Hfl. unfold read_label. cbn [cursor].
  pose proof (length_flat_map_labels ls (hi :: lo :: rest)) as Hn.
  replace (S (length (flat_map label_to_bytes ls ++ hi :: lo :: rest)))
    with (length ls + S (length (flat_map label_to_bytes ls ++ hi :: lo :: rest) - length ls))%nat
    by lia.
  destruct (loop_labels_prefix H ls (S (length (flat_map label_to_bytes ls ++ hi :: lo :: rest)
                                        - length ls))
              index None None [] (hi :: lo :: rest) nds H Hok (conj eq_refl eq_refl)
              (fun p Hp => ltac:(discriminate)) (le_n _) (fun i _ => eq_refl))
    as (index' & head' & prev' & nds' & H' & Hl & Hi & Hp' & HlH' & Hag' & Hk').
  cbn [app] in Hi. destruct ls as [|l0 ls0]; [congruence|].
  destruct Hi as (hd & p & ndp & -> & -> & Hch & Hp & Hpx).
  exists nds', (link (Some p) t H').
  erewrite bind_ok.
  2:{ rewrite Hl. cbn [read_label_loop]. unfold bind at 1.
      rewrite read_label_body_eq, Hc, Z.eqb_refl, Hk' by exact Hlt. rewrite Hnt.
      reflexivity. }
  cbv beta iota. apply get_full_label_ok. cbn [heap link].
  apply (chain_ptr_full _ _ _ _ _ ndp); [exact Hch | exact Hp | exact Hpx |].
  apply (full_label_ext H); [exact Hfl|].
  intros i Hi. rewrite list_lookup_alter_ne by (specialize (Hp' p eq_refl); lia).
  apply Hag'. exact Hi.
Qed.

Lemma suffix_pointer_name_witness :
  let H := [mkNode "example" (Some 1%nat); mkNode "com" None] in
  let nds : gmap nat nat := {[12%nat := 0%nat]} in
  ["www"%string] <> [] /\ Forall label_ok ["www"%string] /\ Z.land 0xC0 0xC0 = 0xC0 /\
  (pointer_offset 0xC0 12 < 29)%nat /\ nds !! pointer_offset 0xC0 12 = Some 0%nat /\
  full_label H 0 ("example" ++ "." ++ ("com" ++ "."))%string /\
  (dotted ["www"%string] ++ ("example" ++ "." ++ ("com" ++ ".")))%string
  = "www.example.com."%string /\
  exists nds' H',
    read_label 29 (mkD (flat_map label_to_bytes ["www"%string] ++ 0xC0 :: 12 :: []) nds H)
    = Ok (dotted ["www"%string] ++ ("example" ++ "." ++ ("com" ++ ".")), mkD [] nds' H')%string.
Proof.
  intros H nds.
  assert (Hok : Forall label_ok ["www"%string])
    by (constructor; [unfold label_ok; cbn; lia | constructor]).
  assert (Hlt : (pointer_offset 0xC0 12 < 29)%nat) by (vm_compute; lia).
  assert (Hnt : nds !! pointer_offset 0xC0 12 = Some 0%nat) by reflexivity.
  assert (Hfl : full_label H 0 ("example" ++ "." ++ ("com" ++ "."))%string).
  { apply (full_label_next H 0 (mkNode "example" (Some 1%nat)) 1); [reflexivity|reflexivity|].
    apply (full_label_last H 1 (mkNode "com" None)); reflexivity. }
  split; [discriminate|]. split; [exact Hok|]. split; [reflexivity|].
  split; [exact Hlt|]. split; [exact Hnt|]. split; [exact Hfl|]. split; [reflexivity|].
  exact (suffix_pointer_name ["www"%string] 29 0xC0 12 [] nds H 0 _
           ltac:(discriminate) Hok eq_refl Hlt Hnt Hfl).
Defined.
